(** * The rules engine ([window.Rules]) of the workspace shell

    A shallow embedding of the policy evaluator in [src/unnamed/part_002]
    (module RULES, "Root Authority") and the properties its specification
    states about it, with the code around the engine: the event log it
    reports to, the callers that ask it first, and the validator of the
    projects whose rules it loads.

    Layout: [Js] is the fragment of JavaScript values and primitive
    operations the engine touches; [RegExp] is an executable fragment of the
    regular expressions [_matchesTarget] builds; [Rules] is the engine, one
    definition per source function, in source order.  [Literal] has the
    object literals with spread elements; [Debugger] is the event log of
    [src/js/debugger.js]; [Logged] is the engine together with the calls it
    makes to the log; [DB] and [Widgets] are the callers of [evaluate] in
    [src/unnamed/part_000] and [src/js/project.js]; [Project] is the
    constructor and the validator of projects in [src/js/project.js].  Then come the vocabulary of the
    properties, the lemmas about the store's order ([Order]) and about the
    engine's functions ([Facts]), the claims of the specification, and the
    further properties of the engine and of the code around it.

    What the embedding fixes:
    - the engine's state is the pair of [_rules] and [_initialized]; each
      method takes the state and returns the new one with its result;
    - a call that can throw returns a [Completion]; a method that can throw
      after it has changed the store returns the store as it is then;
    - rule objects are values: a rule is not modified by its owner after it
      has been registered;
    - a conversion to text or to a property key ([to_text]) and the call
      [v.toString()] ([toString_call]) run the [toString] and [valueOf] of
      the object they are given, and throw when neither is callable or when
      one of them throws;
    - of the calls to [window.Debugger], [Rules] has the one that can end a
      method: the [logError] of the [catch] block in [_applyEffect], which
      converts the error it is handed before anything is recorded; the
      other calls report and neither read nor change the engine, and
      [Logged] has them all, in order;
    - an asynchronous function returns how its promise settles;
    - the host supplies what a value model cannot: whether two objects are
      the same object, the text of numbers and functions, the regular
      expressions outside the fragment of [RegExp], the members that values
      other than plain objects inherit, the order of a sort whose
      comparator is not consistent (a [NaN] priority), whether the page has
      [window.Debugger], and the call of a function of the program (a
      transform, a [toString]), which is taken to return or throw as a
      function of its operands and without touching the engine. *)

From Stdlib Require Import List String Ascii Bool Arith ZArith QArith Lia Lqa.
From Stdlib Require Import Sorting.Sorted Sorting.Permutation DecimalString.
Import ListNotations.
Close Scope Q_scope.
Open Scope string_scope.
Open Scope list_scope.

Set Implicit Arguments.
Set Warnings "-register-all".

(* ================================================================== *)
(** * JavaScript values *)

Module Js.

(** Numbers.  The engine only compares priorities with [<], [>] and the
    sign of a difference; on IEEE doubles these are exact, so a finite
    double is represented by the rational it denotes. *)
Inductive JsNum : Type :=
| NaN
| PInf
| NInf
| Fin (q : Q).

(** Values.  Objects are plain property lists (first binding of a key
    wins), arrays are element lists, functions are opaque handles whose
    behaviour belongs to the host, and [JProto n] is the member [n] that
    every plain object inherits from [Object.prototype]. *)
Inductive JsVal : Type :=
| JUndefined
| JNull
| JBool (b : bool)
| JNum (n : JsNum)
| JStr (s : string)
| JArr (elems : list JsVal)
| JObj (props : list (string * JsVal))
| JFun (handle : nat)
| JProto (name : string).

(** Abrupt completions. *)
Inductive Exn : Type :=
| TypeError
| SyntaxError
| Thrown (v : JsVal).

Inductive Completion (A : Type) : Type :=
| Ok (a : A)
| Throw (e : Exn).
Arguments Ok {A} a.
Arguments Throw {A} e.

Definition bind {A B} (c : Completion A) (k : A -> Completion B) : Completion B :=
  match c with
  | Ok a => k a
  | Throw e => Throw e
  end.

Notation "x <- c ;; k" := (bind c (fun x => k))
  (at level 61, c at next level, right associativity).

Definition num (z : Z) : JsVal := JNum (Fin (inject_Z z)).

(** ** Number comparisons: [a < b], [a > b], [a - b] *)

Definition js_lt (a b : JsNum) : bool :=
  match a, b with
  | NaN, _ | _, NaN => false
  | PInf, _ => false
  | _, NInf => false
  | NInf, _ => true
  | Fin _, PInf => true
  | Fin x, Fin y => match (x ?= y)%Q with Lt => true | _ => false end
  end.

Definition js_gt (a b : JsNum) : bool := js_lt b a.

Definition js_sub (a b : JsNum) : JsNum :=
  match a, b with
  | NaN, _ | _, NaN => NaN
  | PInf, PInf | NInf, NInf => NaN
  | PInf, _ => PInf
  | NInf, _ => NInf
  | Fin _, PInf => NInf
  | Fin _, NInf => PInf
  | Fin x, Fin y => Fin (x - y)
  end.

(** ** [ToBoolean], [typeof], [===] *)

Definition truthy (v : JsVal) : bool :=
  match v with
  | JUndefined | JNull => false
  | JBool b => b
  | JNum NaN => false
  | JNum (Fin q) => negb (Qeq_bool q 0)
  | JNum _ => true
  | JStr s => negb (String.eqb s "")
  | JArr _ | JObj _ | JFun _ | JProto _ => true
  end.

Definition typeof (v : JsVal) : string :=
  match v with
  | JUndefined => "undefined"
  | JNull => "object"
  | JBool _ => "boolean"
  | JNum _ => "number"
  | JStr _ => "string"
  | JArr _ | JObj _ => "object"
  | JFun _ => "function"
  | JProto n => if String.eqb n "__proto__" then "object" else "function"
  end.

Definition num_eq (a b : JsNum) : bool :=
  match a, b with
  | Fin x, Fin y => Qeq_bool x y
  | PInf, PInf | NInf, NInf => true
  | _, _ => false
  end.

(** Strict equality.  Primitives compare by value ([NaN] differs from
    itself); arrays and objects compare by reference, which a value model
    cannot see: the host says whether two of them are the same object. *)
Definition strict_eq (same_object : JsVal -> JsVal -> bool) (a b : JsVal) : bool :=
  match a, b with
  | JUndefined, JUndefined | JNull, JNull => true
  | JBool x, JBool y => Bool.eqb x y
  | JNum x, JNum y => num_eq x y
  | JStr x, JStr y => String.eqb x y
  | JFun x, JFun y => Nat.eqb x y
  | JProto x, JProto y => String.eqb x y
  | JArr _, JArr _ | JObj _, JObj _ => same_object a b
  | _, _ => false
  end.

(** Comparison with a string literal needs no host. *)
Definition is_str (v : JsVal) (s : string) : bool :=
  match v with
  | JStr x => String.eqb x s
  | _ => false
  end.

(** ** Property reads *)

Definition object_prototype : list string :=
  [ "constructor"; "toString"; "toLocaleString"; "valueOf"; "hasOwnProperty";
    "isPrototypeOf"; "propertyIsEnumerable"; "__proto__";
    "__defineGetter__"; "__defineSetter__"; "__lookupGetter__"; "__lookupSetter__" ].

Definition mem (s : string) (l : list string) : bool := existsb (String.eqb s) l.

Fixpoint own (props : list (string * JsVal)) (key : string) : option JsVal :=
  match props with
  | [] => None
  | (k, v) :: rest => if String.eqb k key then Some v else own rest key
  end.

(** Array indices as property keys: the canonical decimal numerals. *)
Definition index_key (i : nat) : string := NilEmpty.string_of_uint (Nat.to_uint i).

Definition digit (c : ascii) : option nat :=
  let code := nat_of_ascii c in
  if Nat.leb 48 code && Nat.leb code 57 then Some (code - 48) else None.

Fixpoint digits (acc : nat) (s : string) : option nat :=
  match s with
  | EmptyString => Some acc
  | String c rest =>
      match digit c with
      | Some d => digits (10 * acc + d) rest
      | None => None
      end
  end.

Definition parse_index (key : string) : option nat :=
  match key with
  | EmptyString => None
  | String c rest =>
      match digit c with
      | Some O => match rest with EmptyString => Some O | String _ _ => None end
      | Some d => digits d rest
      | None => None
      end
  end.

Definition at_index {A} (key : string) (l : list A) : option A :=
  match parse_index key with
  | Some i => nth_error l i
  | None => None
  end.

(** [v.key] for a receiver that is not [null] or [undefined].  Plain
    objects answer with their own property, then with the inherited
    [Object.prototype] member; arrays and strings answer for their indices
    and [length]; the members arrays, strings and functions inherit from
    their own prototypes are outside the model and read as [undefined]. *)
Definition prop (v : JsVal) (key : string) : JsVal :=
  match v with
  | JObj props =>
      match own props key with
      | Some x => x
      | None => if mem key object_prototype then JProto key else JUndefined
      end
  | JArr elems =>
      if String.eqb key "length" then num (Z.of_nat (List.length elems))
      else match at_index key elems with Some x => x | None => JUndefined end
  | JStr s =>
      if String.eqb key "length" then num (Z.of_nat (String.length s))
      else match at_index key (list_ascii_of_string s) with
           | Some c => JStr (String c EmptyString)
           | None => JUndefined
           end
  | _ => JUndefined
  end.

Definition nullish (v : JsVal) : bool :=
  match v with
  | JUndefined | JNull => true
  | _ => false
  end.

(** [v.key] in general: a [TypeError] on [null] and [undefined]. *)
Definition read (v : JsVal) (key : string) : Completion JsVal :=
  if nullish v then Throw TypeError else Ok (prop v key).

(** The keys [for (key in v)] enumerates. *)
Definition keys (v : JsVal) : list string :=
  match v with
  | JObj props => nodup string_dec (map fst props)
  | JArr elems => map index_key (seq 0 (List.length elems))
  | JStr s => map index_key (seq 0 (String.length s))
  | _ => []
  end.

(** [a || b] on values. *)
Definition or_else (a b : JsVal) : JsVal := if truthy a then a else b.

End Js.

(* ================================================================== *)
(** * Regular expressions *)

(** [_matchesTarget] hands two kinds of text to [new RegExp]: the inside
    of a delimited pattern, and a glob with every star replaced by
    dot-star between two anchors.  This module interprets the fragment of
    the pattern grammar (no flags, Annex B) made of literal characters,
    [.], [^], [$], identity escapes of syntax characters, capturing groups,
    alternation and the greedy quantifiers.  A source text is either
    parsed, or rejected the way the host rejects it ([SyntaxErr]), or
    outside the fragment ([Outside]), in which case the engine asks the
    host.  Strings are sequences of code units below 256. *)

Module RegExp.

Inductive re : Type :=
| Empty
| Chr (c : ascii)
| Dot
| Bol
| Eol
| Seq (r1 r2 : re)
| Alt (r1 r2 : re)
| Star (r : re).

Inductive Parse (A : Type) : Type :=
| Parsed (a : A)
| SyntaxErr
| Outside.
Arguments Parsed {A} a.
Arguments SyntaxErr {A}.
Arguments Outside {A}.

Definition pbind {A B} (p : Parse A) (k : A -> Parse B) : Parse B :=
  match p with
  | Parsed a => k a
  | SyntaxErr => SyntaxErr
  | Outside => Outside
  end.

Definition is_char (c : ascii) (s : string) : bool := String.eqb (String c EmptyString) s.

(** SyntaxCharacter, and the characters an escape may make literal. *)
Definition syntax_chars : list string :=
  ["^"; "$"; "\"; "."; "*"; "+"; "?"; "("; ")"; "["; "]"; "{"; "}"; "|"].

Definition is_syntax_char (c : ascii) : bool := existsb (is_char c) syntax_chars.

(** What may follow an assertion or a quantified atom. *)
Definition no_quantifier (r : re) (rest : list ascii) : Parse (re * list ascii) :=
  match rest with
  | c :: _ =>
      if is_char c "*" || is_char c "+" || is_char c "?" then SyntaxErr
      else if is_char c "{" then Outside
      else Parsed (r, rest)
  | [] => Parsed (r, rest)
  end.

(** After a quantifier: a following [?] makes it lazy (outside the
    fragment), another quantifier has nothing to repeat. *)
Definition after_quantifier (r : re) (rest : list ascii) : Parse (re * list ascii) :=
  match rest with
  | c :: _ =>
      if is_char c "?" || is_char c "{" then Outside
      else if is_char c "*" || is_char c "+" then SyntaxErr
      else Parsed (r, rest)
  | [] => Parsed (r, rest)
  end.

Definition quantified (a : re) (rest : list ascii) : Parse (re * list ascii) :=
  match rest with
  | c :: rest' =>
      if is_char c "*" then after_quantifier (Star a) rest'
      else if is_char c "+" then after_quantifier (Seq a (Star a)) rest'
      else if is_char c "?" then after_quantifier (Alt a Empty) rest'
      else if is_char c "{" then Outside
      else Parsed (a, rest)
  | [] => Parsed (a, rest)
  end.

(** Disjunction, Alternative and Term of the grammar, by recursive descent. *)
Fixpoint disjunction (fuel : nat) (s : list ascii) : Parse (re * list ascii) :=
  match fuel with
  | O => Outside
  | S f =>
      pbind (alternative f s) (fun '(r1, rest) =>
        match rest with
        | c :: rest' =>
            if is_char c "|"
            then pbind (disjunction f rest') (fun '(r2, rest'') => Parsed (Alt r1 r2, rest''))
            else Parsed (r1, rest)
        | [] => Parsed (r1, rest)
        end)
  end
with alternative (fuel : nat) (s : list ascii) : Parse (re * list ascii) :=
  match fuel with
  | O => Outside
  | S f =>
      match s with
      | [] => Parsed (Empty, s)
      | c :: _ =>
          if is_char c "|" || is_char c ")" then Parsed (Empty, s)
          else pbind (term f s) (fun '(t, rest) =>
                 pbind (alternative f rest) (fun '(r, rest') => Parsed (Seq t r, rest')))
      end
  end
with term (fuel : nat) (s : list ascii) : Parse (re * list ascii) :=
  match fuel with
  | O => Outside
  | S f =>
      match s with
      | [] => Outside
      | c :: rest =>
          if is_char c "^" then no_quantifier Bol rest
          else if is_char c "$" then no_quantifier Eol rest
          else if is_char c "." then quantified Dot rest
          else if is_char c "*" || is_char c "+" || is_char c "?" then SyntaxErr
          else if is_char c "\" then
            match rest with
            | e :: rest' =>
                if is_syntax_char e || is_char e "/" then quantified (Chr e) rest' else Outside
            | [] => Outside
            end
          else if is_char c "(" then
            match rest with
            | q :: _ =>
                if is_char q "?" then Outside
                else pbind (disjunction f rest) (fun '(r, rest') =>
                       match rest' with
                       | d :: rest'' => if is_char d ")" then quantified r rest'' else SyntaxErr
                       | [] => SyntaxErr
                       end)
            | [] => SyntaxErr
            end
          else if is_syntax_char c then Outside
          else quantified (Chr c) rest
      end
  end.

(** [new RegExp(source)]: the whole text must be one disjunction; what is
    left can only start with an unmatched closing parenthesis. *)
Definition compile (source : string) : Parse re :=
  let s := list_ascii_of_string source in
  pbind (disjunction (4 * List.length s + 4) s) (fun '(r, rest) =>
    match rest with
    | [] => Parsed r
    | _ :: _ => SyntaxErr
    end).

(** LineTerminator code units below 256: [.] does not match them. *)
Definition is_line_terminator (c : ascii) : bool :=
  Nat.eqb (nat_of_ascii c) 10 || Nat.eqb (nat_of_ascii c) 13.

(** The iterations of a starred expression: an iteration that consumes
    nothing is not repeated. *)
Definition star_ends (step : list ascii -> list (list ascii)) : nat -> list ascii -> list (list ascii) :=
  fix go (fuel : nat) (s : list ascii) : list (list ascii) :=
    s :: match fuel with
         | O => []
         | S f => flat_map (go f)
                    (filter (fun s' => Nat.ltb (List.length s') (List.length s)) (step s))
         end.

(** [ends n r s]: the suffixes left after [r] matches a prefix of [s],
    where [s] is itself a suffix of an input of length [n]. *)
Fixpoint ends (n : nat) (r : re) (s : list ascii) : list (list ascii) :=
  match r with
  | Empty => [s]
  | Chr c => match s with
             | x :: s' => if Ascii.eqb x c then [s'] else []
             | [] => []
             end
  | Dot => match s with
           | x :: s' => if is_line_terminator x then [] else [s']
           | [] => []
           end
  | Bol => if Nat.eqb (List.length s) n then [s] else []
  | Eol => match s with
           | [] => [s]
           | _ :: _ => []
           end
  | Seq r1 r2 => flat_map (ends n r2) (ends n r1 s)
  | Alt r1 r2 => ends n r1 s ++ ends n r2 s
  | Star r1 => star_ends (ends n r1) (List.length s) s
  end.

Fixpoint suffixes {A} (s : list A) : list (list A) :=
  s :: match s with
       | [] => []
       | _ :: s' => suffixes s'
       end.

(** [regex.test(target)] without flags: a match may start anywhere. *)
Definition test (r : re) (target : string) : bool :=
  let s := list_ascii_of_string target in
  existsb (fun s' => match ends (List.length s) r s' with [] => false | _ :: _ => true end)
          (suffixes s).

End RegExp.

(* ================================================================== *)
(** * The engine *)

Module Rules.
Import Js.

(** What the engine leaves to its host.  A call and a conversion are
    taken to be functions of their operands and to leave the engine
    alone. *)
Record Host : Type := {
  (** whether two arrays or two objects are the same object *)
  same_object : JsVal -> JsVal -> bool;
  (** the text of a number or of a function *)
  ToString : JsVal -> string;
  (** [new RegExp(source)] outside the fragment of [RegExp]: [None] when
      the constructor throws, else the [test] of the expression *)
  RegExp_host : string -> option (string -> bool);
  (** [f.call(receiver, argument)] *)
  call : JsVal -> JsVal -> JsVal -> Completion JsVal;
  (** [v[key]] for a receiver that is not a plain object and a key that is
      neither one of its indices nor [length]: what its prototype chain
      answers *)
  member : JsVal -> string -> JsVal;
  (** the object a [catch] clause binds for a native error *)
  error_object : Exn -> JsVal;
  (** [l.sort(comparefn)] under a comparator that is not consistent, where
      the language leaves the order to the implementation *)
  sort_host : list JsVal -> list JsVal;
  sort_host_perm : forall l, Permutation (sort_host l) l;
  (** whether [window.Debugger] is present *)
  Debugger_present : bool
}.

(** The object [evaluate] returns. *)
Record Decision : Type := {
  allowed : bool;
  reason : JsVal;
  modifiedAction : option JsVal
}.

(** Internal state. *)
Record Engine : Type := {
  _rules : list JsVal;
  _initialized : bool
}.

Definition with_rules (st : Engine) (rules : list JsVal) : Engine :=
  {| _rules := rules; _initialized := _initialized st |}.

(** ** String methods the engine calls *)

Definition startsWith (s pre : string) : bool := String.prefix pre s.

Definition endsWith (s suf : string) : bool :=
  Nat.leb (String.length suf) (String.length s)
  && String.eqb (String.substring (String.length s - String.length suf) (String.length suf) s) suf.

(** [s.slice(1, -1)] *)
Definition slice_1_m1 (s : string) : string := String.substring 1 (String.length s - 2) s.

(** [s.substring(n)] *)
Definition substring_from (n : nat) (s : string) : string :=
  String.substring n (String.length s - n) s.

Definition includes (s : string) (c : ascii) : bool :=
  existsb (Ascii.eqb c) (list_ascii_of_string s).

(** [s.replace(/\*/g, '.*')] *)
Fixpoint replace_stars (s : string) : string :=
  match s with
  | EmptyString => EmptyString
  | String c rest =>
      if Ascii.eqb c "*"%char then String "."%char (String "*"%char (replace_stars rest))
      else String c (replace_stars rest)
  end.

(** ** [Array.prototype] methods the engine calls *)

Fixpoint findIndex_from {A} (p : A -> bool) (i : nat) (l : list A) : option nat :=
  match l with
  | [] => None
  | x :: rest => if p x then Some i else findIndex_from p (S i) rest
  end.

(** [l.findIndex(p)]; [None] stands for [-1]. *)
Definition findIndex {A} (p : A -> bool) (l : list A) : option nat := findIndex_from p 0 l.

(** [l[i] = x] for an index inside the array. *)
Fixpoint assign {A} (i : nat) (x : A) (l : list A) : list A :=
  match l, i with
  | [], _ => []
  | _ :: rest, O => x :: rest
  | y :: rest, S j => y :: assign j x rest
  end.

(** [l.splice(i, 1)] *)
Fixpoint splice1 {A} (i : nat) (l : list A) : list A :=
  match l, i with
  | [], _ => []
  | _ :: rest, O => rest
  | y :: rest, S j => y :: splice1 j rest
  end.

(** [l.sort(comparefn)] under a consistent comparator.
    [Array.prototype.sort] is stable, so its result is the one stable
    sorted permutation, which insertion computes: an element [y] that
    stood after [x] moves in front of it exactly when
    [comparefn(y, x) < 0]. *)
Section Sort.
Variable A : Type.
Variable comparefn : A -> A -> JsNum.

Definition precedes (y x : A) : bool := js_lt (comparefn y x) (Fin 0).

Fixpoint insert (x : A) (l : list A) : list A :=
  match l with
  | [] => [x]
  | y :: rest => if precedes y x then y :: insert x rest else x :: y :: rest
  end.

Fixpoint sort (l : list A) : list A :=
  match l with
  | [] => []
  | x :: rest => insert x (sort rest)
  end.
End Sort.

(** ** Constants *)

(** Rule hierarchy (highest priority first). *)
Definition HIERARCHY : list string := ["system"; "environment"; "project"; "mode"; "widget"].

Definition taxonomy : list string :=
  [ "widget.open"; "widget.close"; "widget.execute"; "widget.install"; "widget.uninstall";
    "window.create"; "window.close"; "window.move"; "window.resize"; "window.focus";
    "window.minimize"; "window.maximize";
    "db.read"; "db.write"; "db.delete"; "db.export"; "db.import";
    "project.create"; "project.open"; "project.save"; "project.export"; "project.delete";
    "project.switch"; "project.clone";
    "page.create"; "page.update"; "page.delete"; "page.preview";
    "ui.notify"; "ui.alert"; "ui.confirm";
    "system.boot"; "system.shutdown"; "system.debug"; "system.log";
    "system.settings.read"; "system.settings.write" ].

(** Action taxonomy (all valid actions): the object literal
    [{ 'widget.open': true, ... }]. *)
Definition ACTIONS : JsVal := JObj (map (fun a => (a, JBool true)) taxonomy).

(** ** Rule literals *)

Definition rule_literal (id name : string) (priority : Z) (level action target when type why : string)
           (enabled : bool) : JsVal :=
  JObj [ ("id", JStr id); ("name", JStr name); ("priority", num priority); ("level", JStr level);
         ("condition", JObj [("action", JStr action); ("target", JStr target); ("when", JStr when)]);
         ("effect", JObj [("type", JStr type); ("reason", JStr why)]);
         ("enabled", JBool enabled) ].

Definition system_boot_allow : JsVal :=
  rule_literal "system-boot-allow" "Allow System Boot" 1000 "system"
               "system.boot" "*" "always" "allow" "System boot is always allowed" true.

Definition system_log_allow : JsVal :=
  rule_literal "system-log-allow" "Allow System Logging" 1000 "system"
               "system.log" "*" "always" "allow" "System logging is always allowed" true.

Definition system_debug_allow : JsVal :=
  rule_literal "system-debug-allow" "Allow Debugger" 1000 "system"
               "system.debug" "*" "always" "allow" "Debugger access is always allowed" true.

Definition system_dangerous_deny : JsVal :=
  rule_literal "system-dangerous-deny" "Deny Dangerous Actions" 50 "system"
               "*" "*" "always" "deny" "Action not explicitly allowed" false.

(** ** The engine proper *)

Section Engine.
Variable host : Host.

Definition seq_ (a b : JsVal) : bool := strict_eq (same_object host) a b.

(** *** Conversions *)

(** [ToString(v)] where the conversion is known to complete: the text of
    a primitive value, and the host's text of any other. *)
Definition to_string (v : JsVal) : string :=
  match v with
  | JStr s => s
  | JUndefined => "undefined"
  | JNull => "null"
  | JBool true => "true"
  | JBool false => "false"
  | _ => ToString host v
  end.

Definition is_function (v : JsVal) : bool := String.eqb (typeof v) "function".

(** The values that are not objects. *)
Definition is_primitive (v : JsVal) : bool :=
  match v with
  | JArr _ | JObj _ | JFun _ | JProto _ => false
  | _ => true
  end.

(** [f.call(o)] for a member [f] of a plain object [o]:
    [Object.prototype.toString] and [Object.prototype.valueOf] are
    computed, every other function is the host's. *)
Definition invoke (f o : JsVal) : Completion JsVal :=
  match f with
  | JProto name =>
      if String.eqb name "toString" then Ok (JStr "[object Object]")
      else if String.eqb name "valueOf" then Ok o
      else call host f o JUndefined
  | _ => call host f o JUndefined
  end.

(** One step of [OrdinaryToPrimitive]: the method [name] of [o], when it
    is callable and returns a primitive value. *)
Definition method_result (o : JsVal) (name : string) : Completion (option JsVal) :=
  if is_function (prop o name)
  then r <- invoke (prop o name) o ;; Ok (if is_primitive r then Some r else None)
  else Ok None.

(** [ToPrimitive(o, string)] for a plain object: [toString], then
    [valueOf], then a [TypeError]. *)
Definition to_primitive (o : JsVal) : Completion JsVal :=
  first <- method_result o "toString" ;;
  match first with
  | Some p => Ok p
  | None =>
      second <- method_result o "valueOf" ;;
      match second with
      | Some p => Ok p
      | None => Throw TypeError
      end
  end.

(** [ToString(v)], as a template literal, a computed property key and
    [regex.test] apply it.  A plain object is converted through its
    [toString] and [valueOf]; an array through [join], which converts its
    elements and takes [null] and [undefined] as the empty text. *)
Fixpoint to_text (v : JsVal) : Completion string :=
  match v with
  | JObj _ => p <- to_primitive v ;; Ok (to_string p)
  | JArr elems =>
      (fix join (l : list JsVal) : Completion string :=
         match l with
         | [] => Ok ""
         | x :: rest =>
             a <- (if nullish x then Ok "" else to_text x) ;;
             match rest with
             | [] => Ok a
             | _ :: _ => b <- join rest ;; Ok (a ++ "," ++ b)%string
             end
         end) elems
  | _ => Ok (to_string v)
  end.

(** [v.toString()] *)
Definition toString_call (v : JsVal) : Completion JsVal :=
  match v with
  | JUndefined | JNull => Throw TypeError
  | JObj _ =>
      if is_function (prop v "toString") then invoke (prop v "toString") v
      else Throw TypeError
  | JArr _ => s <- to_text v ;; Ok (JStr s)
  | _ => Ok (JStr (to_string v))
  end.

(** [v[key]] for a key the code computes.  [prop] answers for plain
    objects and for the indices and the [length] of arrays and strings;
    the host answers for what any other receiver inherits. *)
Definition lookup (v : JsVal) (key : string) : JsVal :=
  match v with
  | JObj _ => prop v key
  | JArr elems =>
      if String.eqb key "length" then prop v key
      else match at_index key elems with
           | Some x => x
           | None => member host v key
           end
  | JStr s =>
      if String.eqb key "length" then prop v key
      else match at_index key (list_ascii_of_string s) with
           | Some _ => prop v key
           | None => member host v key
           end
  | _ => member host v key
  end.

Definition read_any (v : JsVal) (key : string) : Completion JsVal :=
  if nullish v then Throw TypeError else Ok (lookup v key).

(** The value a [catch] clause binds. *)
Definition caught (e : Exn) : JsVal :=
  match e with
  | Thrown v => v
  | _ => error_object host e
  end.

(** [new RegExp(source).test(target)] *)
Definition RegExp_test (source : string) (target : JsVal) : Completion bool :=
  match RegExp.compile source with
  | RegExp.Parsed r => text <- to_text target ;; Ok (RegExp.test r text)
  | RegExp.SyntaxErr => Throw SyntaxError
  | RegExp.Outside =>
      match RegExp_host host source with
      | Some test => text <- to_text target ;; Ok (test text)
      | None => Throw SyntaxError
      end
  end.

(** *** _validateRule *)

(** [v < n] and [v > n] where [v] is known to be a number. *)
Definition lt_num (v : JsVal) (n : Z) : bool :=
  match v with JNum x => js_lt x (Fin (inject_Z n)) | _ => false end.
Definition gt_num (v : JsVal) (n : Z) : bool :=
  match v with JNum x => js_gt x (Fin (inject_Z n)) | _ => false end.

Definition _validateRule (rule : JsVal) : Completion bool :=
  id <- read rule "id" ;;
  Ok (
  if negb (truthy id) || negb (String.eqb (typeof id) "string")
  then false
  else if negb (truthy (prop rule "name")) || negb (String.eqb (typeof (prop rule "name")) "string")
  then false
  else if negb (String.eqb (typeof (prop rule "priority")) "number")
          || lt_num (prop rule "priority") 1 || gt_num (prop rule "priority") 1000
  then false
  else if negb (existsb (is_str (prop rule "level")) HIERARCHY)
  then false
  else if negb (truthy (prop rule "condition"))
          || negb (String.eqb (typeof (prop rule "condition")) "object")
  then false
  else if negb (truthy (prop (prop rule "condition") "action"))
          || negb (String.eqb (typeof (prop (prop rule "condition") "action")) "string")
  then false
  else if negb (truthy (prop rule "effect"))
          || negb (String.eqb (typeof (prop rule "effect")) "object")
  then false
  else if negb (existsb (is_str (prop (prop rule "effect") "type")) ["allow"; "deny"; "modify"])
  then false
  else if negb (String.eqb (typeof (prop rule "enabled")) "boolean")
  then false
  else true).

(** *** register *)

(** [b.priority - a.priority].  Every element of [_rules] has passed
    [_validateRule] (theorem [store_invariants]), so both operands are
    numbers; no coercion of other values is modelled. *)
Definition priority_of (r : JsVal) : JsNum :=
  match prop r "priority" with JNum n => n | _ => NaN end.

Definition by_priority (a b : JsVal) : JsNum := js_sub (priority_of b) (priority_of a).

Definition finite_priority (r : JsVal) : bool :=
  match priority_of r with Fin _ => true | _ => false end.

(** [this._rules.sort((a, b) => b.priority - a.priority)].  While every
    priority is finite the comparator is consistent.  A priority that is
    [NaN], which [_validateRule] lets through, makes the difference [NaN]
    against every rule: the comparator is then not consistent and the
    order is the one the host's implementation gives. *)
Definition sort_rules (rules : list JsVal) : list JsVal :=
  if forallb finite_priority rules then sort by_priority rules else sort_host host rules.

(** The guard has excluded [null] and [undefined], on which alone
    [_validateRule] throws. *)
Definition register (rule : JsVal) (st : Engine) : Engine * bool :=
  if negb (truthy rule) || negb (truthy (prop rule "id")) then (st, false)
  else
    match _validateRule rule with
    | Ok true =>
        let existingIndex :=
          findIndex (fun r => seq_ (prop r "id") (prop rule "id")) (_rules st) in
        let rules :=
          match existingIndex with
          | Some i => assign i rule (_rules st)
          | None => _rules st ++ [rule]
          end in
        (with_rules st (sort_rules rules), true)
    | _ => (st, false)
    end.

(** *** _loadSystemRules, init *)

Definition _loadSystemRules (st : Engine) : Engine :=
  let st := fst (register system_boot_allow st) in
  let st := fst (register system_log_allow st) in
  let st := fst (register system_debug_allow st) in
  fst (register system_dangerous_deny st).

Definition init (st : Engine) : Engine :=
  if _initialized st then st
  else
    let st := _loadSystemRules (with_rules st []) in
    {| _rules := _rules st; _initialized := true |}.

(** *** unregister *)

Definition unregister (ruleId : JsVal) (st : Engine) : Engine * bool :=
  match findIndex (fun r => seq_ (prop r "id") ruleId) (_rules st) with
  | Some index =>
      let rule := nth index (_rules st) JUndefined in
      if is_str (prop rule "level") "system" then (st, false)
      else (with_rules st (splice1 index (_rules st)), true)
  | None => (st, false)
  end.

(** *** _matchesTarget *)

Definition _matchesTarget (pattern target : JsVal) : Completion bool :=
  if is_str pattern "*" then Ok true
  else if seq_ pattern target then Ok true
  else
    match pattern with
    | JStr p =>
        if startsWith p "/" && endsWith p "/" then RegExp_test (slice_1_m1 p) target
        else if includes p "*"%char then RegExp_test ("^" ++ replace_stars p ++ "$") target
        else Ok false
    | _ => Throw TypeError
    end.

(** *** _matchesWhen *)

Definition _matchesWhen (when context : JsVal) : Completion bool :=
  if is_str when "always" then Ok true
  else
    match when with
    | JStr w =>
        if startsWith w "mode:" then
          let mode := JStr (substring_from 5 w) in
          m <- read context "mode" ;;
          if seq_ m mode then Ok true
          else am <- read context "activeMode" ;; Ok (seq_ am mode)
        else Ok false
    | _ => Throw TypeError
    end.

(** *** _getApplicableRules *)

(** The three tests [_getApplicableRules] and [_matchesCondition] share:
    action, target, when. *)
Definition matches_pattern (cond action target context : JsVal) : Completion bool :=
  if negb (is_str (prop cond "action") "*") && negb (seq_ (prop cond "action") action)
  then Ok false
  else
    t <- (if is_str (prop cond "target") "*" then Ok true
          else _matchesTarget (prop cond "target") target) ;;
    if negb t then Ok false
    else if truthy (prop cond "when") && negb (is_str (prop cond "when") "always")
    then _matchesWhen (prop cond "when") context
    else Ok true.

Definition applicable (action target context rule : JsVal) : Completion bool :=
  if negb (truthy (prop rule "enabled")) then Ok false
  else matches_pattern (prop rule "condition") action target context.

(** [l.filter(p)] for a predicate that may throw. *)
Fixpoint filterM (p : JsVal -> Completion bool) (l : list JsVal) : Completion (list JsVal) :=
  match l with
  | [] => Ok []
  | x :: rest =>
      keep <- p x ;;
      rest' <- filterM p rest ;;
      Ok (if keep then x :: rest' else rest')
  end.

Definition _getApplicableRules (action target context : JsVal) (rules : list JsVal)
  : Completion (list JsVal) :=
  filterM (applicable action target context) rules.

(** *** _matchesCondition *)

(** The loop over [condition.context]. *)
Fixpoint context_checks (expected context : JsVal) (ks : list string) : Completion bool :=
  match ks with
  | [] => Ok true
  | key :: rest =>
      v <- read_any context key ;;
      if negb (seq_ v (prop expected key)) then Ok false
      else context_checks expected context rest
  end.

Definition _matchesCondition (condition action target context : JsVal) : Completion bool :=
  m <- matches_pattern condition action target context ;;
  if negb m then Ok false
  else if truthy (prop condition "context")
  then context_checks (prop condition "context") context (keys (prop condition "context"))
  else Ok true.

(** *** _applyEffect *)

(** [error ? error.toString() : null], the first thing
    [Debugger.logError] does with the error it is handed. *)
Definition error_text (error : JsVal) : Completion JsVal :=
  if truthy error then toString_call error else Ok JNull.

(** The [catch] block reports to [window.Debugger], when there is one,
    before it returns the denial; [logError] converts the error first, and
    an exception of that conversion leaves [_applyEffect]. *)
Definition _applyEffect (effect request : JsVal) : Completion Decision :=
  if is_str (prop effect "type") "allow" then
    Ok {| allowed := true;
          reason := or_else (prop effect "reason") (JStr "Action allowed by rule");
          modifiedAction := None |}
  else if is_str (prop effect "type") "deny" then
    Ok {| allowed := false;
          reason := or_else (prop effect "reason") (JStr "Action denied by rule");
          modifiedAction := None |}
  else if is_str (prop effect "type") "modify" then
    if truthy (prop effect "transform") && is_function (prop effect "transform") then
      match call host (prop effect "transform") effect request with
      | Ok modified =>
          Ok {| allowed := true;
                reason := or_else (prop effect "reason") (JStr "Action modified by rule");
                modifiedAction := Some modified |}
      | Throw e =>
          _ <- (if Debugger_present host then error_text (caught e) else Ok JNull) ;;
          Ok {| allowed := false;
                reason := JStr "Rule transform failed";
                modifiedAction := None |}
      end
    else
      Ok {| allowed := true;
            reason := or_else (prop effect "reason") (JStr "Action modified by rule");
            modifiedAction := Some (or_else (prop effect "modifiedAction") request) |}
  else
    type <- to_text (prop effect "type") ;;
    Ok {| allowed := false;
          reason := JStr ("Unknown effect type: " ++ type);
          modifiedAction := None |}.

(** *** evaluate *)

Definition default_deny : Decision :=
  {| allowed := false; reason := JStr "No matching rule found"; modifiedAction := None |}.

(** A destructuring default: [x = d] takes [d] when the field is [undefined]. *)
Definition default_to (v d : JsVal) : JsVal :=
  match v with JUndefined => d | _ => v end.

(** The loop over the applicable rules. *)
Fixpoint first_match (request action target context : JsVal) (rules : list JsVal)
  : Completion Decision :=
  match rules with
  | [] => Ok default_deny
  | rule :: rest =>
      if negb (truthy (prop rule "enabled")) then first_match request action target context rest
      else
        m <- _matchesCondition (prop rule "condition") action target context ;;
        if negb m then first_match request action target context rest
        else _applyEffect (prop rule "effect") request
  end.

(** [this.ACTIONS[request.action]] converts the action to a property key,
    which can throw; the template literal of the reason converts the same
    value again. *)
Definition evaluate (request : JsVal) (st : Engine) : Engine * Completion Decision :=
  let st := if negb (_initialized st) then init st else st in
  if negb (truthy request) || negb (truthy (prop request "action")) then
    (st, Ok {| allowed := false;
               reason := JStr "Invalid request: missing action";
               modifiedAction := None |})
  else
    match to_text (prop request "action") with
    | Throw e => (st, Throw e)
    | Ok key =>
        if negb (truthy (prop ACTIONS key)) && negb (is_str (prop request "action") "*") then
          (st, Ok {| allowed := false;
                     reason := JStr ("Unknown action: " ++ key);
                     modifiedAction := None |})
        else
          let action := prop request "action" in
          let target := default_to (prop request "target") (JStr "*") in
          let context := default_to (prop request "context") (JObj []) in
          (st, applicableRules <- _getApplicableRules action target context (_rules st) ;;
               first_match request action target context applicableRules)
    end.

(** *** getAll, get, clear, loadProjectRules, isAllowed *)

(** [v !== undefined] *)
Definition is_defined (v : JsVal) : bool :=
  match v with JUndefined => false | _ => true end.

(** [getAll(filter = {})]: the copy of the store, narrowed by each
    criterion the filter object carries.  The rules of the store have
    passed [_validateRule], so the [condition] of each is an object. *)
Definition getAll (filter : JsVal) (st : Engine) : Completion (list JsVal) :=
  let filter := default_to filter (JObj []) in
  level <- read filter "level" ;;
  let rules := _rules st in
  let rules := if truthy level
               then List.filter (fun r => seq_ (prop r "level") level) rules
               else rules in
  let rules := if is_defined (prop filter "enabled")
               then List.filter (fun r => seq_ (prop r "enabled") (prop filter "enabled")) rules
               else rules in
  let rules := if truthy (prop filter "action")
               then List.filter (fun r => seq_ (prop (prop r "condition") "action")
                                               (prop filter "action")
                                          || is_str (prop (prop r "condition") "action") "*")
                                rules
               else rules in
  Ok rules.

(** [get(ruleId)]; [None] stands for [null]. *)
Definition get (ruleId : JsVal) (st : Engine) : option JsVal :=
  find (fun r => seq_ (prop r "id") ruleId) (_rules st).

Definition clear (st : Engine) : Engine :=
  with_rules st (filter (fun r => is_str (prop r "level") "system") (_rules st)).

(** The callback of [project.rules.forEach], entry after entry; an
    exception leaves the store as it is at that point. *)
Fixpoint forEach_register (entries : list JsVal) (st : Engine) : Engine * Completion unit :=
  match entries with
  | [] => (st, Ok tt)
  | rule :: rest =>
      match read rule "level" with
      | Throw e => (st, Throw e)
      | Ok level =>
          forEach_register rest (if is_str level "project" then fst (register rule st) else st)
      end
  end.

(** Only arrays have a [forEach] in the value model. *)
Definition loadProjectRules (project : JsVal) (st : Engine) : Engine * Completion unit :=
  if negb (truthy project) || negb (truthy (prop project "rules")) then (st, Ok tt)
  else
    let st := with_rules st (filter (fun r => negb (is_str (prop r "level") "project")) (_rules st)) in
    match prop project "rules" with
    | JArr entries => forEach_register entries st
    | _ => (st, Throw TypeError)
    end.

Definition isAllowed (action target context : JsVal) (st : Engine) : Engine * Completion bool :=
  let request := JObj [ ("action", action);
                        ("target", default_to target (JStr "*"));
                        ("context", default_to context (JObj [])) ] in
  let '(st, result) := evaluate request st in
  (st, r <- result ;; Ok (allowed r)).

End Engine.

(** The engine as the script leaves it before anything ran. *)
Definition fresh : Engine := {| _rules := []; _initialized := false |}.

(** A host for closed examples: no two object values are the same object,
    no regular expression outside the fragment compiles, every function
    call throws a [TypeError], and [window.Debugger] is present.  The
    examples reach the host only where they say so. *)
Definition bare : Host :=
  {| same_object := fun _ _ => false;
     ToString := fun _ => "[object Object]";
     RegExp_host := fun _ => None;
     call := fun _ _ _ => Throw TypeError;
     member := fun _ _ => JUndefined;
     error_object := fun _ => JObj [];
     sort_host := fun l => l;
     sort_host_perm := fun l => Permutation_refl l;
     Debugger_present := true |}.

(** The host [bare] with a function, of handle 7, that throws an object
    whose [toString] is [null]. *)
Definition hostile : Host :=
  {| same_object := fun _ _ => false;
     ToString := fun _ => "[object Object]";
     RegExp_host := fun _ => None;
     call := fun f _ _ =>
               match f with
               | JFun 7 => Throw (Thrown (JObj [("toString", JNull)]))
               | _ => Throw TypeError
               end;
     member := fun _ _ => JUndefined;
     error_object := fun _ => JObj [];
     sort_host := fun l => l;
     sort_host_perm := fun l => Permutation_refl l;
     Debugger_present := true |}.

End Rules.

Import Js Rules.
Unset Implicit Arguments.

(* ================================================================== *)
(** * The vocabulary of the properties *)

(** ** The order of the store *)

(** A rule is ranked when its priority is a finite number, as every
    priority in the range [_validateRule] checks is. *)
Definition ranked (r : JsVal) : Prop := exists q, priority_of r = Fin q.

(** [not_below a b]: the priority of [a] is at least that of [b]. *)
Definition not_below (a b : JsVal) : Prop :=
  exists x y, priority_of a = Fin x /\ priority_of b = Fin y /\ (y <= x)%Q.

(** [below a b]: the priority of [a] is strictly less than that of [b]. *)
Definition below (a b : JsVal) : Prop :=
  exists x y, priority_of a = Fin x /\ priority_of b = Fin y /\ (x < y)%Q.

(** Sorted by priority, highest first. *)
Definition descending (l : list JsVal) : Prop := StronglySorted not_below l.


(** ** Registration and evaluation *)

(** What [register] requires before it touches the store. *)
Definition accepts (rule : JsVal) : bool :=
  truthy rule && truthy (prop rule "id")
  && match _validateRule rule with Ok true => true | _ => false end.

Definition enabled (r : JsVal) : bool := truthy (prop r "enabled").

(** The three values [evaluate] destructures from a request. *)
Definition action_of (request : JsVal) : JsVal := prop request "action".
Definition target_of (request : JsVal) : JsVal := default_to (prop request "target") (JStr "*").
Definition context_of (request : JsVal) : JsVal := default_to (prop request "context") (JObj []).

(** Rules of the level [loadProjectRules] manages, and the others. *)
Definition project_level (r : JsVal) : bool := is_str (prop r "level") "project".

Definition other_level (r : JsVal) : bool := negb (project_level r).

(** The ids of the rules of a store, in store order. *)
Definition ids (rules : list JsVal) : list JsVal := map (fun r => prop r "id") rules.

Definition no_nullish (entries : list JsVal) : Prop :=
  Forall (fun e => nullish e = false) entries.

Section Vocabulary.
Variable host : Host.

(** [r] carries the id of [rule]. *)
Definition same_id (rule r : JsVal) : bool := seq_ host (prop r "id") (prop rule "id").

(** The store after the replace-or-push step of [register]. *)
Definition upsert (rule : JsVal) (rules : list JsVal) : list JsVal :=
  match findIndex (same_id rule) rules with
  | Some i => assign i rule rules
  | None => rules ++ [rule]
  end.

(** What the engine finds out about one rule on a request: disabled
    rules are skipped, enabled ones have their full condition tested. *)
Definition verdict (request r : JsVal) : Completion bool :=
  if negb (enabled r) then Ok false
  else _matchesCondition host (prop r "condition")
                         (action_of request) (target_of request) (context_of request).

(** The rule is enabled and its full condition matches the request. *)
Definition wins (request r : JsVal) : bool :=
  match verdict request r with
  | Ok true => true
  | _ => false
  end.

(** The rule's tests end without an exception. *)
Definition calm (request r : JsVal) : Prop := exists b, verdict request r = Ok b.

(** The result for the winning rule, if any. *)
Definition decision (request : JsVal) (winner : option JsVal) : Completion Decision :=
  match winner with
  | Some r => _applyEffect host (prop r "effect") request
  | None => Ok default_deny
  end.

(** The rule scan of [evaluate]. *)
Definition scan (request : JsVal) (rules : list JsVal) : Completion Decision :=
  bind (_getApplicableRules host (action_of request) (target_of request) (context_of request) rules)
       (first_match host request (action_of request) (target_of request) (context_of request)).

(** No accepted project-level entry carries the id of a rule of another
    level in the store. *)
Definition no_clash (entries rules : list JsVal) : Prop :=
  forall e r, In e entries -> project_level e = true -> accepts e = true ->
              In r rules -> other_level r = true -> same_id e r = false.

End Vocabulary.

(** ** The acceptance rule in the specification's words *)



(** ** Reachable engines *)

(** The engines the methods can produce from the fresh one, when every
    candidate [register] accepts satisfies [admitted]. *)
Section States.
Variable host : Host.
Variable admitted : JsVal -> Prop.

Inductive Reachable : Engine -> Prop :=
| reach_fresh : Reachable fresh
| reach_init st : Reachable st -> Reachable (init host st)
| reach_register st rule :
    Reachable st -> (accepts rule = true -> admitted rule) ->
    Reachable (fst (register host rule st))
| reach_unregister st ruleId : Reachable st -> Reachable (fst (unregister host ruleId st))
| reach_clear st : Reachable st -> Reachable (clear st)
| reach_load st project :
    Reachable st ->
    (forall entries, prop project "rules" = JArr entries ->
                     Forall (fun e => accepts e = true -> admitted e) entries) ->
    Reachable (fst (loadProjectRules host project st))
| reach_evaluate st request : Reachable st -> Reachable (fst (evaluate host request st))
| reach_isAllowed st action target context :
    Reachable st -> Reachable (fst (isAllowed host action target context st)).

End States.

(** ** Rules, requests and engines of the examples *)

Definition save_p1 : JsVal := JObj [("action", JStr "project.save"); ("target", JStr "p1")].
Definition boot : JsVal := JObj [("action", JStr "system.boot")].
Definition booted : Engine := init bare fresh.

(** A project rule that rewrites [project.save] requests through the
    function with handle 7. *)
Definition rewrite_save : JsVal :=
  JObj [ ("id", JStr "save-rewrite"); ("name", JStr "Rewrite saves"); ("priority", num 500);
         ("level", JStr "project");
         ("condition", JObj [("action", JStr "project.save"); ("target", JStr "*");
                             ("when", JStr "always")]);
         ("effect", JObj [("type", JStr "modify"); ("reason", JStr "rewritten");
                          ("transform", JFun 7)]);
         ("enabled", JBool true) ].

(** A rule for [project.save] whose [when] is the empty string. *)
Definition save_when_empty : JsVal :=
  rule_literal "save-open" "Saves, no predicate" 500 "project"
               "project.save" "*" "" "allow" "saving is fine" true.


(** A widget-level rule that denies [system.boot] under the id of the
    built-in rule that allows it. *)
Definition boot_hijack : JsVal :=
  rule_literal "system-boot-allow" "Deny boot" 1000 "widget"
               "system.boot" "*" "always" "deny" "boot is off" true.

(** A project-level rule that denies [system.boot] under the id of the
    built-in rule that allows it. *)
Definition boot_hijack_project : JsVal :=
  rule_literal "system-boot-allow" "Deny boot" 1000 "project"
               "system.boot" "*" "always" "deny" "boot is off" true.

(** Two project rules for [project.save] with the same priority and
    opposite effects. *)
Definition save_allow : JsVal :=
  rule_literal "save-allow" "Allow saving" 500 "project"
               "project.save" "*" "always" "allow" "saving allowed" true.
Definition save_deny : JsVal :=
  rule_literal "save-deny" "Deny saving" 500 "project"
               "project.save" "*" "always" "deny" "saving denied" true.


(* ================================================================== *)
(** * Object literals *)

(** Object literals with spread elements, as the debugger builds its
    events: a later property of the same name takes the value and keeps
    the place of the earlier one.  And the errors the callers of the
    engine throw. *)
Module Literal.
Import Js.

(** [o[key] = v] on a property list. *)
Fixpoint set (key : string) (v : JsVal) (props : list (string * JsVal)) : list (string * JsVal) :=
  match props with
  | [] => [(key, v)]
  | (k, x) :: rest =>
      if String.eqb k key then (k, v) :: rest else (k, x) :: set key v rest
  end.

(** The own enumerable properties a spread element copies: those of an
    object, the elements of an array, the characters of a string, none of
    any other value. *)
Definition own_props (v : JsVal) : list (string * JsVal) :=
  match v with
  | JObj props => map (fun k => (k, prop v k)) (keys v)
  | JArr _ | JStr _ => map (fun k => (k, prop v k)) (keys v)
  | _ => []
  end.

(** [{ props, ...src }] *)
Definition spread (src : JsVal) (props : list (string * JsVal)) : list (string * JsVal) :=
  fold_left (fun acc kv => set (fst kv) (snd kv) acc) (own_props src) props.

(** [new Error(message)], by its message. *)
Definition Error (message : string) : Exn := Thrown (JObj [("message", JStr message)]).

End Literal.

(* ================================================================== *)
(** * The debugger *)

(** The event log of [src/js/debugger.js] ([window.Debugger]), which the
    engine reports to.  Its state is the enabled flag, the buffer and the
    listeners; [asked] counts the questions put to the host so far, and the
    host answers the n-th question for an id ([Utils.uuid()] or the
    fallback [_generateId()]) or for the time ([Utils.now()] or
    [Date.now()]) through [uuid] and [now].  The calls of the listeners and
    the console output are left out: a listener is taken to return or throw
    without touching the debugger, and [capture] discards what it does.
    The buffer holds what [capture] pushed, which are objects, so the
    methods that read the events read their properties without a check. *)
Module Debugger.
Import Js Rules Literal.

Record Env : Type := {
  host : Host;
  uuid : nat -> string;
  now : nat -> Z;
  (** [ToNumber] of strings and objects *)
  ToNumber : JsVal -> JsNum;
  (** [a >= b] when an operand is not a number *)
  ge_host : JsVal -> JsVal -> bool
}.

Record State : Type := {
  _enabled : JsVal;
  _buffer : list JsVal;
  _listeners : list JsVal;
  asked : nat
}.

Definition _maxBufferSize : nat := 1000.

(** Event types *)
Definition RULE_DENIAL : string := "rule.denial".
Definition RULE_ALLOW : string := "rule.allow".
Definition RULE_MODIFY : string := "rule.modify".
Definition ERROR : string := "error".
Definition WARNING : string := "warning".
Definition ACTION : string := "action".
Definition STATE_CHANGE : string := "state.change".
Definition WIDGET_EVENT : string := "widget.event".
Definition DB_OP : string := "db.operation".

(** The debugger as the script leaves it before [init] ran. *)
Definition loaded : State :=
  {| _enabled := JBool true; _buffer := []; _listeners := []; asked := 0 |}.

Section Methods.
Variable env : Env.

Definition with_buffer (d : State) (buffer : list JsVal) : State :=
  {| _enabled := _enabled d; _buffer := buffer; _listeners := _listeners d; asked := asked d |}.

Definition with_listeners (d : State) (listeners : list JsVal) : State :=
  {| _enabled := _enabled d; _buffer := _buffer d; _listeners := listeners; asked := asked d |}.

Definition tick (d : State) : State :=
  {| _enabled := _enabled d; _buffer := _buffer d; _listeners := _listeners d;
     asked := S (asked d) |}.

(** [window.Utils ? window.Utils.now() : Date.now()] *)
Definition timestamp (d : State) : JsVal * State := (num (now env (asked d)), tick d).

(** [window.Utils ? window.Utils.uuid() : this._generateId()] *)
Definition fresh_id (d : State) : JsVal * State := (JStr (uuid env (asked d)), tick d).

(** *** setEnabled, isEnabled *)

Definition setEnabled (enabled : JsVal) (d : State) : State :=
  {| _enabled := enabled; _buffer := _buffer d; _listeners := _listeners d; asked := asked d |}.

Definition isEnabled (d : State) : JsVal := _enabled d.

(** *** capture *)

Definition capture (event : JsVal) (d : State) : State :=
  if negb (truthy (_enabled d)) then d
  else
    let '(id, d) := fresh_id d in
    let '(t, d) := timestamp d in
    let fullEvent := JObj (spread event [("id", id); ("timestamp", t)]) in
    let buffer := _buffer d ++ [fullEvent] in
    let buffer := if Nat.ltb _maxBufferSize (List.length buffer) then tl buffer else buffer in
    with_buffer d buffer.

(** *** logRule *)

Definition logRule (action target result context : JsVal) (d : State) : Completion State :=
  let context := default_to context (JObj []) in
  allowed <- read result "allowed" ;;
  let type := if truthy allowed then RULE_ALLOW else RULE_DENIAL in
  if truthy (prop result "modifiedAction") then
    let '(t, d) := timestamp d in
    Ok (capture (JObj [ ("type", JStr RULE_MODIFY); ("action", action); ("target", target);
                        ("originalAction", action);
                        ("modifiedAction", prop result "modifiedAction");
                        ("reason", prop result "reason"); ("context", context);
                        ("timestamp", t) ]) d)
  else
    let '(t, d) := timestamp d in
    Ok (capture (JObj [ ("type", JStr type); ("action", action); ("target", target);
                        ("allowed", prop result "allowed");
                        ("reason", prop result "reason"); ("context", context);
                        ("timestamp", t) ]) d).

(** *** logAction, logError, logWarning, logStateChange, logWidgetEvent,
    logDBOp, log *)

Definition logAction (action data : JsVal) (d : State) : State :=
  let data := default_to data (JObj []) in
  let '(t, d) := timestamp d in
  capture (JObj (set "timestamp" t
                   (spread data [("type", JStr ACTION); ("action", action)]))) d.

(** [error ? error.stack : null] *)
Definition error_stack (error : JsVal) : JsVal :=
  if truthy error then prop error "stack" else JNull.

(** [error.toString()] is called while the event is built: when it
    throws, nothing is captured and the exception leaves [logError]. *)
Definition logError (message error context : JsVal) (d : State) : Completion State :=
  let error := default_to error JNull in
  let context := default_to context (JObj []) in
  text <- error_text (host env) error ;;
  let '(t, d) := timestamp d in
  Ok (capture (JObj (set "timestamp" t
                       (spread context [ ("type", JStr ERROR); ("message", message);
                                         ("error", text);
                                         ("stack", error_stack error) ]))) d).

Definition logWarning (message context : JsVal) (d : State) : State :=
  let context := default_to context (JObj []) in
  let '(t, d) := timestamp d in
  capture (JObj (set "timestamp" t
                   (spread context [("type", JStr WARNING); ("message", message)]))) d.

Definition logStateChange (component property oldValue newValue : JsVal) (d : State) : State :=
  let '(t, d) := timestamp d in
  capture (JObj [ ("type", JStr STATE_CHANGE); ("component", component);
                  ("property", property); ("oldValue", oldValue); ("newValue", newValue);
                  ("timestamp", t) ]) d.

Definition logWidgetEvent (widgetId event data : JsVal) (d : State) : State :=
  let data := default_to data (JObj []) in
  let '(t, d) := timestamp d in
  capture (JObj (set "timestamp" t
                   (spread data [ ("type", JStr WIDGET_EVENT); ("widgetId", widgetId);
                                  ("event", event) ]))) d.

Definition logDBOp (operation store data : JsVal) (d : State) : State :=
  let data := default_to data (JObj []) in
  let '(t, d) := timestamp d in
  capture (JObj (set "timestamp" t
                   (spread data [ ("type", JStr DB_OP); ("operation", operation);
                                  ("store", store) ]))) d.

Definition log (category message data : JsVal) (d : State) : State :=
  let data := default_to data (JObj []) in
  let '(t, d) := timestamp d in
  capture (JObj (set "timestamp" t
                   (spread data [ ("type", JStr "log"); ("category", category);
                                  ("message", message) ]))) d.

(** *** init *)

(** The handlers [init] installs for uncaught errors and rejected
    promises run when the host reports one; they are not part of the
    model. *)
Definition init (d : State) : State :=
  log (JStr "debugger") (JStr "Debugger initialized") JUndefined
      {| _enabled := JBool true; _buffer := []; _listeners := []; asked := asked d |}.

(** *** getEvents, getEventsByType *)




(** *** getRecent *)

(** [ToNumber(v)] and [-n], as [-count] applies them *)
Definition to_number (v : JsVal) : JsNum :=
  match v with
  | JNum n => n
  | JUndefined => NaN
  | JNull => Fin 0
  | JBool true => Fin 1
  | JBool false => Fin 0
  | _ => ToNumber env v
  end.

Definition negate (n : JsNum) : JsNum :=
  match n with
  | NaN => NaN
  | PInf => NInf
  | NInf => PInf
  | Fin q => Fin (- q)
  end.

(** [l.slice(start)]: the start is truncated to an integer, counted from
    the end when negative, and clamped to the array. *)
Definition slice_from {A} (start : JsNum) (l : list A) : list A :=
  match start with
  | NaN => l
  | NInf => l
  | PInf => []
  | Fin q =>
      let k := Z.quot (Qnum q) (Zpos (Qden q)) in
      if Z.ltb k 0 then skipn (Z.to_nat (Z.max (Z.of_nat (List.length l) + k) 0)) l
      else skipn (Z.to_nat k) l
  end.

Definition getRecent (count : JsVal) (d : State) : list JsVal :=
  let count := default_to count (num 10) in
  slice_from (negate (to_number count)) (_buffer d).

(** *** clear, addListener, removeListener *)

Definition clear (d : State) : State := with_buffer d [].

Definition addListener (callback : JsVal) (d : State) : State :=
  if is_function callback then with_listeners d (_listeners d ++ [callback]) else d.

Definition removeListener (callback : JsVal) (d : State) : State :=
  match findIndex (fun l => seq_ (host env) l callback) (_listeners d) with
  | Some index => with_listeners d (splice1 index (_listeners d))
  | None => d
  end.

(** *** getStats *)





End Methods.

(** *** The logging methods as calls *)

(** A call of one of the logging methods with its arguments. *)
Inductive Call : Type :=
| LogRule (action target result context : JsVal)
| LogAction (action data : JsVal)
| LogError (message error context : JsVal)
| LogWarning (message context : JsVal)
| LogStateChange (component property oldValue newValue : JsVal)
| LogWidgetEvent (widgetId event data : JsVal)
| LogDBOp (operation store data : JsVal)
| Log (category message data : JsVal).

Section Calls.
Variable env : Env.

Definition perform (c : Call) (d : State) : Completion State :=
  match c with
  | LogRule action target result context => logRule env action target result context d
  | LogAction action data => Ok (logAction env action data d)
  | LogError message error context => logError env message error context d
  | LogWarning message context => Ok (logWarning env message context d)
  | LogStateChange component property oldValue newValue =>
      Ok (logStateChange env component property oldValue newValue d)
  | LogWidgetEvent widgetId event data => Ok (logWidgetEvent env widgetId event data d)
  | LogDBOp operation store data => Ok (logDBOp env operation store data d)
  | Log category message data => Ok (log env category message data d)
  end.

Fixpoint perform_all (calls : list Call) (d : State) : Completion State :=
  match calls with
  | [] => Ok d
  | c :: rest => d' <- perform c d ;; perform_all rest d'
  end.

End Calls.

End Debugger.

(* ================================================================== *)
(** * The engine with its reports *)

(** The engine on a page where [window.Debugger] is present: each
    method returns, besides its result, the calls it makes to the
    debugger, in order.  A call of [logError] whose conversion of the
    error throws is the last call of the method, which ends with that
    exception. *)
Module Logged.
Import Js Rules Literal.
Import Debugger (Call, Log, LogError, LogWarning, LogRule).

(** The object [evaluate] returns, as a value. *)
Definition result_object (d : Decision) : JsVal :=
  JObj (("allowed", JBool (allowed d)) :: ("reason", reason d)
        :: match modifiedAction d with
           | Some m => [("modifiedAction", m)]
           | None => []
           end).

Section Methods.
Variable host : Host.

(** The id in the message of a registration has passed [_validateRule]:
    it is a text. *)
Definition register (rule : JsVal) (st : Engine) : (Engine * bool) * list Call :=
  if negb (truthy rule) || negb (truthy (prop rule "id")) then
    ((st, false),
     [LogError (JStr "Rules.register: Invalid rule object") JNull (JObj [("rule", rule)])])
  else
    match _validateRule rule with
    | Ok true =>
        let existingIndex :=
          findIndex (fun r => seq_ host (prop r "id") (prop rule "id")) (_rules st) in
        let rules :=
          match existingIndex with
          | Some i => assign i rule (_rules st)
          | None => _rules st ++ [rule]
          end in
        ((with_rules st (sort_rules host rules), true),
         [Log (JStr "rules") (JStr ("Rule registered: " ++ to_string host (prop rule "id")))
              (JObj [("rule", rule)])])
    | _ => ((st, false), [])
    end.

Definition _loadSystemRules (st : Engine) : Engine * list Call :=
  let '((st, _), c1) := register system_boot_allow st in
  let '((st, _), c2) := register system_log_allow st in
  let '((st, _), c3) := register system_debug_allow st in
  let '((st, _), c4) := register system_dangerous_deny st in
  (st, c1 ++ c2 ++ c3 ++ c4).

Definition init (st : Engine) : Engine * list Call :=
  if _initialized st then (st, [])
  else
    let '(st, calls) := _loadSystemRules (with_rules st []) in
    ({| _rules := _rules st; _initialized := true |},
     calls ++ [Log (JStr "rules") (JStr "Rules engine initialized") JUndefined]).

Definition _applyEffect (effect request : JsVal) : Completion Decision * list Call :=
  if is_str (prop effect "type") "allow" then
    (Ok {| allowed := true;
           reason := or_else (prop effect "reason") (JStr "Action allowed by rule");
           modifiedAction := None |}, [])
  else if is_str (prop effect "type") "deny" then
    (Ok {| allowed := false;
           reason := or_else (prop effect "reason") (JStr "Action denied by rule");
           modifiedAction := None |}, [])
  else if is_str (prop effect "type") "modify" then
    if truthy (prop effect "transform") && is_function (prop effect "transform") then
      match call host (prop effect "transform") effect request with
      | Ok modified =>
          (Ok {| allowed := true;
                 reason := or_else (prop effect "reason") (JStr "Action modified by rule");
                 modifiedAction := Some modified |}, [])
      | Throw e =>
          (_ <- error_text host (caught host e) ;;
           Ok {| allowed := false;
                 reason := JStr "Rule transform failed";
                 modifiedAction := None |},
           [LogError (JStr "Rule transform error") (caught host e)
                     (JObj [("effect", effect); ("request", request)])])
      end
    else
      (Ok {| allowed := true;
             reason := or_else (prop effect "reason") (JStr "Action modified by rule");
             modifiedAction := Some (or_else (prop effect "modifiedAction") request) |}, [])
  else
    (type <- to_text host (prop effect "type") ;;
     Ok {| allowed := false;
           reason := JStr ("Unknown effect type: " ++ type);
           modifiedAction := None |}, []).

(** The loop over the applicable rules. *)
Fixpoint first_match (request action target context source : JsVal) (rules : list JsVal)
  : Completion Decision * list Call :=
  match rules with
  | [] =>
      (Ok default_deny,
       [LogRule action target (result_object default_deny)
                (JObj (spread context [("source", source)]))])
  | rule :: rest =>
      if negb (truthy (prop rule "enabled"))
      then first_match request action target context source rest
      else
        match _matchesCondition host (prop rule "condition") action target context with
        | Throw e => (Throw e, [])
        | Ok false => first_match request action target context source rest
        | Ok true =>
            match _applyEffect (prop rule "effect") request with
            | (Ok result, calls) =>
                (Ok result,
                 calls ++ [LogRule action target (result_object result)
                                   (JObj (spread context [ ("ruleId", prop rule "id");
                                                           ("ruleName", prop rule "name");
                                                           ("source", source) ]))])
            | (Throw e, calls) => (Throw e, calls)
            end
        end
  end.

Definition evaluate (request : JsVal) (st : Engine)
  : (Engine * Completion Decision) * list Call :=
  let '(st, calls) := if negb (_initialized st) then init st else (st, []) in
  if negb (truthy request) || negb (truthy (prop request "action")) then
    ((st, Ok {| allowed := false;
                reason := JStr "Invalid request: missing action";
                modifiedAction := None |}), calls)
  else
    match to_text host (prop request "action") with
    | Throw e => ((st, Throw e), calls)
    | Ok key =>
        if negb (truthy (prop ACTIONS key)) && negb (is_str (prop request "action") "*") then
          ((st, Ok {| allowed := false;
                      reason := JStr ("Unknown action: " ++ key);
                      modifiedAction := None |}),
           calls ++ [LogWarning (JStr ("Unknown action: " ++ key))
                                (JObj [("request", request)])])
        else
          let action := prop request "action" in
          let target := default_to (prop request "target") (JStr "*") in
          let context := default_to (prop request "context") (JObj []) in
          let source := default_to (prop request "source") (JStr "unknown") in
          match _getApplicableRules host action target context (_rules st) with
          | Throw e => ((st, Throw e), calls)
          | Ok applicableRules =>
              let '(result, calls') := first_match request action target context source
                                                   applicableRules in
              ((st, result), calls ++ calls')
          end
    end.

(** The callback of [project.rules.forEach]. *)
Fixpoint forEach_register (entries : list JsVal) (st : Engine)
  : (Engine * Completion unit) * list Call :=
  match entries with
  | [] => ((st, Ok tt), [])
  | rule :: rest =>
      match read rule "level" with
      | Throw e => ((st, Throw e), [])
      | Ok level =>
          if is_str level "project" then
            let '((st, _), calls) := register rule st in
            let '(r, calls') := forEach_register rest st in
            (r, calls ++ calls')
          else forEach_register rest st
      end
  end.

Definition loadProjectRules (project : JsVal) (st : Engine)
  : (Engine * Completion unit) * list Call :=
  if negb (truthy project) || negb (truthy (prop project "rules")) then ((st, Ok tt), [])
  else
    let st := with_rules st (filter (fun r => negb (is_str (prop r "level") "project"))
                                    (_rules st)) in
    match prop project "rules" with
    | JArr entries =>
        let '((st, r), calls) := forEach_register entries st in
        match r with
        | Ok _ =>
            ((st, r),
             calls ++ [Log (JStr "rules")
                           (JStr ("Loaded "
                                  ++ to_string host (prop (prop project "rules") "length")
                                  ++ " project rules")) JUndefined])
        | Throw _ => ((st, r), calls)
        end
    | _ => ((st, Throw TypeError), [])
    end.

End Methods.

End Logged.

(* ================================================================== *)
(** * The database gate *)

(** Callers of [evaluate]: [DB.op], the legacy entry to the apps store,
    with its wrapper [dbPut], [DB.getProject] and [DB.deleteProject] of
    [src/unnamed/part_000], and [Widgets.request] of [src/js/project.js].
    The functions are asynchronous: the result here is how the promise
    settles, [Ok] for fulfilled and [Throw] for rejected.  What IndexedDB
    does belongs to the backend: whether [DB.init] and the transaction
    succeed, and how each request on a store ends.  [window.Rules] is
    present; the calls to [window.Debugger], made after a request on a
    store has ended, are left out. *)
Module DB.
Import Js Rules Literal.

Record Backend : Type := {
  init : Completion unit;
  transaction : Completion unit;
  (** requests on the apps store *)
  put : JsVal -> Completion JsVal;
  get : JsVal -> Completion JsVal;
  getAll : Completion JsVal;
  delete : JsVal -> Completion JsVal;
  (** requests on the projects store; deleting a project deletes its files *)
  project_get : JsVal -> Completion JsVal;
  project_delete : JsVal -> Completion unit
}.

Section Gate.
Variable host : Host.
Variable backend : Backend.

Definition op (op val : JsVal) (st : Engine) : Engine * Completion JsVal :=
  match to_text host op with
  | Throw e => (st, Throw e)
  | Ok name =>
      let request :=
        JObj [ ("action", JStr ("db." ++ name));
               ("target", if truthy val
                          then if String.eqb (typeof val) "string" then val
                               else or_else (prop val "id") (JStr "*")
                          else JStr "*");
               ("context", JObj [("operation", op)]) ] in
      let '(st, result) := evaluate host request st in
      (st,
       result <- result ;;
       if negb (allowed result)
       then why <- to_text host (reason result) ;;
            Throw (Error ("DB operation denied: " ++ why))
       else
         _ <- init backend ;;
         _ <- transaction backend ;;
         if is_str op "put" then put backend val
         else if is_str op "get" then (if truthy val then get backend val else getAll backend)
         else if is_str op "delete" then delete backend val
         else Throw (Error ("Unknown DB operation: " ++ name)))
  end.

(** [window.dbPut] *)
Definition dbPut (app : JsVal) (st : Engine) : Engine * Completion JsVal :=
  op (JStr "put") app st.



End Gate.

End DB.

Module Widgets.
Import Js Rules Literal.

(** [request(action, target, context = {})]: the decision, or a rejection
    that carries its reason. *)
Definition request (host : Host) (action target context : JsVal) (st : Engine)
  : Engine * Completion Decision :=
  let context := default_to context (JObj []) in
  let request := JObj [ ("action", action); ("target", target); ("context", context);
                        ("source", JStr "widget") ] in
  let '(st, result) := evaluate host request st in
  (st,
   result <- result ;;
   if negb (allowed result)
   then why <- to_text host (reason result) ;;
        Throw (Error ("Action denied: " ++ why))
   else Ok result).

End Widgets.

(* ================================================================== *)
(** * The project validator *)

(** [Project.create] and [Project.validate] of [src/js/project.js] with
    its helpers; the workspace runs [validate] on a project before it
    hands the project's rules to [loadProjectRules].  Every property read is written as the code has
    it, on a receiver that may be [null] or [undefined]; the errors are
    listed in the order the code pushes them.  The read of [name] goes
    through [lookup], since a function has a name of its own. *)
Module Project.
Import Js Rules.

(** The object [validate] returns. *)
Record Validation : Type := {
  valid : bool;
  errors : list string
}.

(** [if (failed) errors.push(message)] *)
Definition check (failed : bool) (message : string) : list string :=
  if failed then [message] else [].

(** [!v || typeof v !== 'string'] *)
Definition no_text (v : JsVal) : bool :=
  negb (truthy v) || negb (String.eqb (typeof v) "string").

(** [!v || typeof v !== 'object'] *)
Definition no_object (v : JsVal) : bool :=
  negb (truthy v) || negb (String.eqb (typeof v) "object").

Definition isArray (v : JsVal) : bool :=
  match v with
  | JArr _ => true
  | _ => false
  end.

(** [typeof v !== 'number' || v <= 0] *)
Definition no_timestamp (v : JsVal) : bool :=
  match v with
  | JNum NaN | JNum PInf => false
  | JNum NInf => true
  | JNum (Fin q) => Qle_bool q 0
  | _ => true
  end.

(** [typeof v !== 'number' || v < 1 || v > 1000] *)
Definition no_priority (v : JsVal) : bool :=
  negb (String.eqb (typeof v) "number") || lt_num v 1 || gt_num v 1000.

Definition validLevels : list string := ["system"; "environment"; "project"; "mode"; "widget"].
Definition validEffects : list string := ["allow"; "deny"; "modify"].
Definition validTargets : list string := ["web"; "electron"].
Definition validModes : list string := ["edit"; "preview"; "export"].

(** [l.includes(v)] for a list of texts *)
Definition includes (l : list string) (v : JsVal) : bool := existsb (is_str v) l.

(** *** create *)

(** [Project.create(options = {})], where [now] and [id] are what the
    host's clock and its generator of ids return in this call. *)
Definition create (host : Host) (now : Z) (id : string) (options : JsVal)
  : Completion JsVal :=
  let options := default_to options (JObj []) in
  _ <- read options "id" ;;
  let opt (key : string) (d : JsVal) : JsVal := or_else (prop options key) d in
  let not_false (v : JsVal) : JsVal :=
    JBool (match v with JBool false => false | _ => true end) in
  Ok (JObj
        [ ("id", opt "id" (JStr id));
          ("meta", JObj [ ("name", or_else (lookup host options "name")
                                           (JStr "Untitled Project"));
                          ("version", opt "version" (JStr "1.0.0"));
                          ("created", opt "created" (num now));
                          ("modified", opt "modified" (num now));
                          ("author", opt "author" (JStr ""));
                          ("description", opt "description" (JStr "")) ]);
          ("environment", JObj [ ("target", opt "target" (JStr "web"));
                                 ("cdnAllowed", not_false (prop options "cdnAllowed"));
                                 ("cspEnabled", not_false (prop options "cspEnabled")) ]);
          ("rules", opt "rules" (JArr []));
          ("modes", JObj [ ("active", opt "activeMode" (JStr "edit"));
                           ("available",
                            opt "availableModes"
                                (JArr [JStr "edit"; JStr "preview"; JStr "export"])) ]);
          ("layout", JObj [ ("panels", opt "panels" (JArr []));
                            ("windows", opt "windows" (JArr []));
                            ("dock", opt "dock" (JArr [])) ]);
          ("widgets", JObj [ ("installed", opt "installedWidgets" (JArr []));
                             ("active", opt "activeWidgets" (JArr [])) ]);
          ("assets", JObj [ ("files", opt "files" (JObj []));
                            ("external", opt "external" (JArr [])) ]);
          ("pages", opt "pages" (JArr []));
          ("exports", JObj [ ("lastExport", JNull);
                             ("settings", opt "exportSettings" (JObj [])) ]);
          ("history", opt "history" (JArr [])) ]).

(** *** _validateRule *)

Definition _validateRule (rule : JsVal) (index : nat) : Completion (list string) :=
  let prefix := ("Rule[" ++ index_key index ++ "]")%string in
  if no_object rule then Ok [(prefix ++ ": Rule must be an object")%string]
  else
    id <- read rule "id" ;;
    name <- read rule "name" ;;
    priority <- read rule "priority" ;;
    level <- read rule "level" ;;
    condition <- read rule "condition" ;;
    condition_errors <-
      (if no_object condition then Ok [(prefix ++ ": Rule must have a condition object")%string]
       else
         action <- read condition "action" ;;
         Ok (check (no_text action) (prefix ++ ": Rule condition must have an action string"))) ;;
    effect <- read rule "effect" ;;
    effect_errors <-
      (if no_object effect then Ok [(prefix ++ ": Rule must have an effect object")%string]
       else
         type <- read effect "type" ;;
         Ok (check (negb (includes validEffects type))
                   (prefix ++ ": Rule effect.type must be one of: allow, deny, modify"))) ;;
    enabled <- read rule "enabled" ;;
    Ok (check (no_text id) (prefix ++ ": Rule must have a valid string ID")
        ++ check (no_text name) (prefix ++ ": Rule must have a valid name")
        ++ check (no_priority priority)
                 (prefix ++ ": Rule priority must be a number between 1 and 1000")
        ++ check (negb (includes validLevels level))
                 (prefix ++ ": Rule level must be one of: system, environment, project, mode, widget")
        ++ condition_errors
        ++ effect_errors
        ++ check (negb (String.eqb (typeof enabled) "boolean"))
                 (prefix ++ ": Rule enabled must be a boolean")).

(** *** _validatePage *)

Definition _validatePage (page : JsVal) (index : nat) : Completion (list string) :=
  let prefix := ("Page[" ++ index_key index ++ "]")%string in
  if no_object page then Ok [(prefix ++ ": Page must be an object")%string]
  else
    id <- read page "id" ;;
    name <- read page "name" ;;
    path <- read page "path" ;;
    Ok (check (no_text id) (prefix ++ ": Page must have a valid string ID")
        ++ check (no_text name) (prefix ++ ": Page must have a valid name")
        ++ check (no_text path) (prefix ++ ": Page must have a valid path")).

(** *** validate *)

(** [l.forEach((x, index) => errors.push(...f(x, index)))] *)
Fixpoint forEach_errors (f : JsVal -> nat -> Completion (list string)) (index : nat)
         (l : list JsVal) : Completion (list string) :=
  match l with
  | [] => Ok []
  | x :: rest =>
      e <- f x index ;;
      es <- forEach_errors f (S index) rest ;;
      Ok (e ++ es)
  end.

Section Validate.
Variable host : Host.

Definition id_errors (project : JsVal) : Completion (list string) :=
  id <- read project "id" ;;
  Ok (check (no_text id) "Project must have a valid string ID").

Definition meta_errors (project : JsVal) : Completion (list string) :=
  meta <- read project "meta" ;;
  if negb (truthy meta) then Ok ["Project must have meta object"]
  else
    name <- read_any host meta "name" ;;
    version <- read meta "version" ;;
    created <- read meta "created" ;;
    modified <- read meta "modified" ;;
    Ok (check (no_text name) "Project meta must have a valid name"
        ++ check (no_text version) "Project meta must have a valid version"
        ++ check (no_timestamp created) "Project meta must have a valid created timestamp"
        ++ check (no_timestamp modified) "Project meta must have a valid modified timestamp").

Definition environment_errors (project : JsVal) : Completion (list string) :=
  environment <- read project "environment" ;;
  if negb (truthy environment) then Ok ["Project must have environment object"]
  else
    target <- read environment "target" ;;
    cdnAllowed <- read environment "cdnAllowed" ;;
    cspEnabled <- read environment "cspEnabled" ;;
    Ok (check (negb (includes validTargets target))
              "Project environment.target must be one of: web, electron"
        ++ check (negb (String.eqb (typeof cdnAllowed) "boolean"))
                 "Project environment.cdnAllowed must be a boolean"
        ++ check (negb (String.eqb (typeof cspEnabled) "boolean"))
                 "Project environment.cspEnabled must be a boolean").

Definition rules_errors (project : JsVal) : Completion (list string) :=
  rules <- read project "rules" ;;
  match rules with
  | JArr l => forEach_errors _validateRule 0 l
  | _ => Ok ["Project rules must be an array"]
  end.

(** The callback of [project.modes.available.forEach]: the message for
    a mode that is not valid converts the mode to text, which can throw. *)
Fixpoint forEach_mode (l : list JsVal) : Completion (list string) :=
  match l with
  | [] => Ok []
  | mode :: rest =>
      e <- (if includes validModes mode then Ok []
            else text <- to_text host mode ;;
                 Ok [("Invalid mode in modes.available: " ++ text)%string]) ;;
      es <- forEach_mode rest ;;
      Ok (e ++ es)
  end.

Definition modes_errors (project : JsVal) : Completion (list string) :=
  modes <- read project "modes" ;;
  if negb (truthy modes) then Ok ["Project must have modes object"]
  else
    active <- read modes "active" ;;
    available <- read modes "available" ;;
    available_errors <- match available with
                        | JArr l => forEach_mode l
                        | _ => Ok ["Project modes.available must be an array"]
                        end ;;
    Ok (check (negb (includes validModes active))
              "Project modes.active must be one of: edit, preview, export"
        ++ available_errors).

Definition layout_errors (project : JsVal) : Completion (list string) :=
  layout <- read project "layout" ;;
  if negb (truthy layout) then Ok ["Project must have layout object"]
  else
    panels <- read layout "panels" ;;
    windows <- read layout "windows" ;;
    dock <- read layout "dock" ;;
    Ok (check (negb (isArray panels)) "Project layout.panels must be an array"
        ++ check (negb (isArray windows)) "Project layout.windows must be an array"
        ++ check (negb (isArray dock)) "Project layout.dock must be an array").

Definition widgets_errors (project : JsVal) : Completion (list string) :=
  widgets <- read project "widgets" ;;
  if negb (truthy widgets) then Ok ["Project must have widgets object"]
  else
    installed <- read widgets "installed" ;;
    active <- read widgets "active" ;;
    Ok (check (negb (isArray installed)) "Project widgets.installed must be an array"
        ++ check (negb (isArray active)) "Project widgets.active must be an array").

Definition assets_errors (project : JsVal) : Completion (list string) :=
  assets <- read project "assets" ;;
  if negb (truthy assets) then Ok ["Project must have assets object"]
  else
    files <- read assets "files" ;;
    external <- read assets "external" ;;
    Ok (check (negb (String.eqb (typeof files) "object") || isArray files)
              "Project assets.files must be an object"
        ++ check (negb (isArray external)) "Project assets.external must be an array").

Definition pages_errors (project : JsVal) : Completion (list string) :=
  pages <- read project "pages" ;;
  match pages with
  | JArr l => forEach_errors _validatePage 0 l
  | _ => Ok ["Project pages must be an array"]
  end.

Definition exports_errors (project : JsVal) : Completion (list string) :=
  exports <- read project "exports" ;;
  if negb (truthy exports) then Ok ["Project must have exports object"]
  else
    lastExport <- read exports "lastExport" ;;
    settings <- read exports "settings" ;;
    Ok (check (match lastExport with
               | JNull => false
               | v => negb (String.eqb (typeof v) "number")
               end)
              "Project exports.lastExport must be null or a number"
        ++ check (negb (String.eqb (typeof settings) "object") || isArray settings)
                 "Project exports.settings must be an object").

Definition history_errors (project : JsVal) : Completion (list string) :=
  history <- read project "history" ;;
  Ok (check (negb (isArray history)) "Project history must be an array").

Definition validate (project : JsVal) : Completion Validation :=
  if negb (truthy project)
  then Ok {| valid := false; errors := ["Project is null or undefined"] |}
  else
    e1 <- id_errors project ;;
    e2 <- meta_errors project ;;
    e3 <- environment_errors project ;;
    e4 <- rules_errors project ;;
    e5 <- modes_errors project ;;
    e6 <- layout_errors project ;;
    e7 <- widgets_errors project ;;
    e8 <- assets_errors project ;;
    e9 <- pages_errors project ;;
    e10 <- exports_errors project ;;
    e11 <- history_errors project ;;
    let errors := e1 ++ e2 ++ e3 ++ e4 ++ e5 ++ e6 ++ e7 ++ e8 ++ e9 ++ e10 ++ e11 in
    Ok {| valid := Nat.eqb (List.length errors) 0; errors := errors |}.

(** *** isValid *)

Definition isValid (project : JsVal) : Completion bool :=
  validation <- validate project ;;
  Ok (valid validation).

End Validate.

End Project.

(* ================================================================== *)
(** * The vocabulary of the further properties *)

(** The rules [_loadSystemRules] registers, in the order of the store, and
    the actions its allowances name. *)
Definition builtin : list JsVal :=
  [system_boot_allow; system_log_allow; system_debug_allow; system_dangerous_deny].


(** A rule passes the criteria a filter object carries. *)
Definition selected (host : Host) (f r : JsVal) : bool :=
  (negb (truthy (prop f "level")) || seq_ host (prop r "level") (prop f "level"))
  && (negb (is_defined (prop f "enabled")) || seq_ host (prop r "enabled") (prop f "enabled"))
  && (negb (truthy (prop f "action"))
      || seq_ host (prop (prop r "condition") "action") (prop f "action")
      || is_str (prop (prop r "condition") "action") "*").



(** The events a buffer keeps when one more arrives: all of them below
    the bound, all but the oldest at the bound. *)
Definition kept (buffer : list JsVal) : list JsVal :=
  if Nat.ltb (List.length buffer) Debugger._maxBufferSize then buffer else tl buffer.

(** Every event of the buffer can be asked for a property: none is
    [null] or [undefined]. *)
Definition events_readable (d : Debugger.State) : Prop :=
  Forall (fun e => nullish e = false) (Debugger._buffer d).









(** What [register] reports on a candidate, which does not depend on the
    store. *)
Definition registration_report (host : Host) (rule : JsVal) : list Debugger.Call :=
  snd (Logged.register host rule fresh).

(** The options [create] takes over when they are not falsy. *)
Definition create_options : list string :=
  [ "id"; "name"; "version"; "created"; "modified"; "author"; "description"; "target";
    "rules"; "activeMode"; "availableModes"; "panels"; "windows"; "dock";
    "installedWidgets"; "activeWidgets"; "files"; "external"; "pages"; "exportSettings";
    "history" ].

(** None of them is given. *)
Definition no_options (options : JsVal) : Prop :=
  Forall (fun key => truthy (prop options key) = false) create_options.

(** ** Examples *)


(** A host of the debugger whose clock stands at the number of the
    question and whose ids are that number. *)
Definition still : Debugger.Env :=
  {| Debugger.host := bare;
     Debugger.uuid := index_key;
     Debugger.now := Z.of_nat;
     Debugger.ToNumber := fun _ => NaN;
     Debugger.ge_host := fun _ _ => false |}.

(** The debugger after one call of [log]. *)
Definition logged_once : Debugger.State :=
  Debugger.log still (JStr "rules") (JStr "ready") JUndefined Debugger.loaded.

(** A project as [Project.create] makes it, with two rules. *)
Definition sample_project : JsVal :=
  JObj [ ("id", JStr "p1");
         ("meta", JObj [ ("name", JStr "Untitled Project"); ("version", JStr "1.0.0");
                         ("created", num 1); ("modified", num 1);
                         ("author", JStr ""); ("description", JStr "") ]);
         ("environment", JObj [ ("target", JStr "web"); ("cdnAllowed", JBool true);
                                ("cspEnabled", JBool true) ]);
         ("rules", JArr [save_allow; save_deny]);
         ("modes", JObj [ ("active", JStr "edit");
                          ("available", JArr [JStr "edit"; JStr "preview"; JStr "export"]) ]);
         ("layout", JObj [("panels", JArr []); ("windows", JArr []); ("dock", JArr [])]);
         ("widgets", JObj [("installed", JArr []); ("active", JArr [])]);
         ("assets", JObj [("files", JObj []); ("external", JArr [])]);
         ("pages", JArr []);
         ("exports", JObj [("lastExport", JNull); ("settings", JObj [])]);
         ("history", JArr []) ].

(* ================================================================== *)
(** * The store's order *)

Module Order.

Lemma precedes_iff y x qy qx :
  priority_of y = Fin qy -> priority_of x = Fin qx ->
  precedes by_priority y x = true <-> (qx < qy)%Q.
Proof.
  intros Hy Hx. unfold precedes, by_priority. rewrite Hy, Hx. simpl.
  destruct (Qcompare (qx - qy) 0) eqn:E.
  - apply Qeq_alt in E. split; [discriminate | intro; lra].
  - apply Qlt_alt in E. split; [intro; lra | reflexivity].
  - apply Qgt_alt in E. split; [discriminate | intro; lra].
Qed.

Lemma precedes_false y x :
  ranked x -> ranked y -> precedes by_priority y x = false <-> not_below x y.
Proof.
  intros [qx Hx] [qy Hy]. split.
  - intro H. exists qx, qy. repeat split; trivial.
    destruct (Qlt_le_dec qx qy) as [L|L]; trivial.
    apply (precedes_iff _ _ _ _ Hy Hx) in L. congruence.
  - intros (a & b & Ha & Hb & L). rewrite Ha in Hx. rewrite Hb in Hy.
    inversion Hx; inversion Hy; subst.
    destruct (precedes by_priority y x) eqn:E; trivial.
    apply (precedes_iff _ _ _ _ Hb Ha) in E. lra.
Qed.

Lemma precedes_true y x :
  ranked x -> ranked y -> precedes by_priority y x = true <-> below x y.
Proof.
  intros [qx Hx] [qy Hy]. split.
  - intro H. exists qx, qy. repeat split; trivial. now apply (precedes_iff _ _ _ _ Hy Hx).
  - intros (a & b & Ha & Hb & L). now apply (precedes_iff _ _ _ _ Hb Ha).
Qed.

Lemma not_below_trans a b c : not_below a b -> not_below b c -> not_below a c.
Proof.
  intros (x & y & Ha & Hb & L1) (y' & z & Hb' & Hc & L2).
  rewrite Hb in Hb'. inversion Hb'; subst.
  exists x, z. repeat split; trivial. lra.
Qed.


(** ** Insertion and sorting *)

Section Generic.
Variable A : Type.
Variable cmp : A -> A -> JsNum.

Lemma insert_perm x l : Permutation (insert cmp x l) (x :: l).
Proof.
  induction l as [|y l IH]; simpl; [reflexivity|].
  destruct (precedes cmp y x); [|reflexivity].
  rewrite IH. apply perm_swap.
Qed.

Lemma sort_perm l : Permutation (sort cmp l) l.
Proof.
  induction l as [|x l IH]; simpl; [reflexivity|].
  rewrite insert_perm. now constructor.
Qed.

Lemma sort_In x l : In x (sort cmp l) <-> In x l.
Proof.
  split; apply Permutation_in; [apply sort_perm | symmetry; apply sort_perm].
Qed.

Lemma filter_perm (f : A -> bool) l l' :
  Permutation l l' -> Permutation (filter f l) (filter f l').
Proof.
  induction 1; simpl.
  - constructor.
  - destruct (f x); [now constructor | assumption].
  - destruct (f x), (f y); try reflexivity. apply perm_swap.
  - etransitivity; eassumption.
Qed.
End Generic.

Lemma descending_cons_inv x l : descending (x :: l) -> descending l /\ Forall (not_below x) l.
Proof. intro H. inversion H; subst. now split. Qed.

Lemma insert_descending x l :
  ranked x -> Forall ranked l -> descending l -> descending (insert by_priority x l).
Proof.
  intros Hx Hl Hs. induction l as [|y l IH]; simpl.
  - repeat constructor.
  - inversion Hl as [|? ? Hy Hl']; subst.
    destruct (descending_cons_inv _ _ Hs) as [Hs' Hall].
    destruct (precedes by_priority y x) eqn:E.
    + constructor; [now apply IH|].
      apply (precedes_true _ _ Hx Hy) in E.
      eapply Permutation_Forall; [symmetry; apply insert_perm|].
      constructor; [|assumption].
      destruct E as (a & b & Ha & Hb & L). exists b, a. repeat split; trivial. lra.
    + apply (precedes_false _ _ Hx Hy) in E.
      constructor; [assumption|]. constructor; [assumption|].
      eapply Forall_impl; [|exact Hall]. intros z Hz. eapply not_below_trans; eassumption.
Qed.

Lemma sort_ranked l : Forall ranked l -> Forall ranked (sort by_priority l).
Proof. intro H. eapply Permutation_Forall; [symmetry; apply sort_perm | exact H]. Qed.

Lemma sort_descending l : Forall ranked l -> descending (sort by_priority l).
Proof.
  induction l as [|x l IH]; intro H; simpl; [constructor|].
  inversion H; subst. apply insert_descending; auto using sort_ranked.
Qed.

Lemma insert_front x l :
  Forall (not_below x) l -> ranked x -> Forall ranked l -> insert by_priority x l = x :: l.
Proof.
  intros H Hx Hl. destruct l as [|y l]; simpl; [reflexivity|].
  inversion H; subst. inversion Hl; subst.
  assert (E : precedes by_priority y x = false) by now apply precedes_false.
  now rewrite E.
Qed.

Lemma sort_id l : Forall ranked l -> descending l -> sort by_priority l = l.
Proof.
  induction l as [|x l IH]; intros Hl Hs; simpl; [reflexivity|].
  inversion Hl; subst. destruct (descending_cons_inv _ _ Hs) as [Hs' Hall].
  rewrite IH by assumption. now apply insert_front.
Qed.


(** ** Stability: sorting does not reorder rules of equal priority *)

Lemma Forall_filter (P : JsVal -> Prop) (f : JsVal -> bool) l :
  Forall P l -> Forall P (filter f l).
Proof.
  intro H. apply Forall_forall. intros z Hz. apply filter_In in Hz.
  rewrite Forall_forall in H. now apply H.
Qed.

Lemma filter_insert (f : JsVal -> bool) x l :
  ranked x -> Forall ranked l -> descending l ->
  filter f (insert by_priority x l)
  = if f x then insert by_priority x (filter f l) else filter f l.
Proof.
  intros Hx Hl Hs. induction l as [|y l IH]; simpl.
  - now destruct (f x).
  - inversion Hl as [|? ? Hy Hl']; subst.
    destruct (descending_cons_inv _ _ Hs) as [Hs' Hall].
    destruct (precedes by_priority y x) eqn:P; simpl.
    + rewrite (IH Hl' Hs'). destruct (f y), (f x); simpl; trivial. now rewrite P.
    + destruct (f x) eqn:Fx; trivial.
      apply (precedes_false _ _ Hx Hy) in P.
      assert (All : Forall (not_below x) (y :: l)).
      { constructor; trivial. eapply Forall_impl; [|exact Hall].
        intros z Hz. eapply not_below_trans; eassumption. }
      change (if f y then y :: filter f l else filter f l) with (filter f (y :: l)).
      symmetry. apply insert_front; trivial; now apply Forall_filter.
Qed.

Lemma filter_sort (f : JsVal -> bool) l :
  Forall ranked l -> filter f (sort by_priority l) = sort by_priority (filter f l).
Proof.
  induction l as [|x l IH]; intro Hl; simpl; [reflexivity|].
  inversion Hl; subst.
  rewrite filter_insert; auto using sort_ranked, sort_descending.
  rewrite IH by assumption. now destruct (f x).
Qed.



(** Removing a rule keeps the order of the rest. *)
Lemma descending_remove l1 x l2 : descending (l1 ++ x :: l2) -> descending (l1 ++ l2).
Proof.
  induction l1 as [|y l1 IH]; simpl; intro H.
  - now apply descending_cons_inv in H.
  - destruct (descending_cons_inv _ _ H) as [H' Hall].
    constructor; [now apply IH|].
    apply Forall_app in Hall. destruct Hall as [A1 A2]. inversion A2; subst.
    apply Forall_app. now split.
Qed.

Lemma descending_filter (f : JsVal -> bool) l : descending l -> descending (filter f l).
Proof.
  induction l as [|x l IH]; simpl; intro H; [constructor|].
  destruct (descending_cons_inv _ _ H) as [H' Hall].
  destruct (f x); [|now apply IH].
  constructor; [now apply IH | now apply Forall_filter].
Qed.


End Order.

(* ================================================================== *)
(** * Facts about the engine's functions *)

Module Facts.
Import Order.

(** ** Values *)

Lemma typeof_string v : String.eqb (typeof v) "string" = true -> exists s, v = JStr s.
Proof.
  destruct v; simpl; try discriminate; eauto.
  destruct (String.eqb name "__proto__"); discriminate.
Qed.

Lemma typeof_number v : String.eqb (typeof v) "number" = true -> exists n, v = JNum n.
Proof.
  destruct v; simpl; try discriminate; eauto.
  destruct (String.eqb name "__proto__"); discriminate.
Qed.

Lemma typeof_boolean v : String.eqb (typeof v) "boolean" = true -> exists b, v = JBool b.
Proof.
  destruct v; simpl; try discriminate; eauto.
  destruct (String.eqb name "__proto__"); discriminate.
Qed.

Lemma is_str_eq v s : is_str v s = true <-> v = JStr s.
Proof.
  destruct v; simpl; split; try discriminate; intro H.
  - apply String.eqb_eq in H. now subst.
  - inversion H. apply String.eqb_refl.
Qed.


Lemma truthy_str s : truthy (JStr s) = true <-> s <> "".
Proof.
  simpl. rewrite negb_true_iff. apply String.eqb_neq.
Qed.

(** ** Validation and registration *)

Ltac split_checks H :=
  repeat match type of H with
         | (if ?c then false else _) = true =>
             let E := fresh "E" in destruct c eqn:E; [discriminate H|]
         end.

Lemma Ok_inj {A} (a b : A) : Ok a = Ok b -> a = b.
Proof. congruence. Qed.

(** A candidate that passes [_validateRule] is not [null] or
    [undefined], and passes each check. *)
Ltac open_valid H :=
  unfold _validateRule, read in H;
  let N := fresh "N" in
  destruct (nullish _) eqn:N in H; [discriminate H|];
  unfold bind in H; cbv beta iota in H; apply Ok_inj in H; split_checks H.

(** [_validateRule] throws on [null] and [undefined] only, which the guard
    of [register] keeps away from it. *)
Lemma validate_completes rule :
  (nullish rule = true -> _validateRule rule = Throw TypeError)
  /\ (nullish rule = false -> exists b, _validateRule rule = Ok b)
  /\ (truthy rule = true -> exists b, _validateRule rule = Ok b).
Proof.
  assert (A : nullish rule = false -> exists b, _validateRule rule = Ok b).
  { intro N. unfold _validateRule, read. rewrite N. unfold bind. eauto. }
  split; [|split; trivial].
  - intro N. unfold _validateRule, read. now rewrite N.
  - intro T. apply A. now destruct rule.
Qed.

Lemma valid_id rule :
  _validateRule rule = Ok true -> exists s, prop rule "id" = JStr s /\ s <> "".
Proof.
  intro H. open_valid H.
  apply orb_false_elim in E. destruct E as [T S].
  apply negb_false_iff in T, S. destruct (typeof_string _ S) as [s Hs].
  exists s. split; trivial. rewrite Hs in T. now apply truthy_str.
Qed.

Lemma valid_priority rule :
  _validateRule rule = Ok true ->
  priority_of rule = NaN \/ exists q, priority_of rule = Fin q /\ (1 <= q <= 1000)%Q.
Proof.
  intro H. open_valid H.
  apply orb_false_elim in E1. destruct E1 as [E1 G].
  apply orb_false_elim in E1. destruct E1 as [T L].
  apply negb_false_iff in T. destruct (typeof_number _ T) as [n Hn].
  unfold priority_of. rewrite Hn in *. simpl in L, G. unfold js_gt in G.
  destruct n as [| | |q]; simpl in *; try discriminate; auto.
  right. exists q. split; trivial.
  change (inject_Z 1) with 1%Q in L. 
  destruct (Qcompare q 1) eqn:C1; try discriminate;
  destruct (Qcompare (inject_Z 1000) q) eqn:C2; try discriminate;
  try apply Qeq_alt in C1; try apply Qgt_alt in C1;
  try apply Qeq_alt in C2; try apply Qgt_alt in C2;
  change (inject_Z 1000) with 1000%Q in C2; lra.
Qed.

Lemma valid_ranked rule :
  _validateRule rule = Ok true -> priority_of rule <> NaN -> ranked rule.
Proof.
  intros H N. destruct (valid_priority _ H) as [E|(q & E & _)]; [contradiction|now exists q].
Qed.

Section WithHost.
Variable host : Host.

Lemma seq_str a s : seq_ host a (JStr s) = is_str a s.
Proof. destruct a; reflexivity. Qed.

(** The sort of [register] on a store whose priorities are all finite. *)
Lemma sort_rules_ranked l : Forall ranked l -> sort_rules host l = sort by_priority l.
Proof.
  intro H. unfold sort_rules.
  assert (F : forallb finite_priority l = true).
  { apply forallb_forall. rewrite Forall_forall in H. intros x Hx.
    destruct (H x Hx) as [q Hq]. unfold finite_priority. now rewrite Hq. }
  now rewrite F.
Qed.

(** The sort of [register] permutes the store, whatever the priorities. *)
Lemma sort_rules_perm l : Permutation (sort_rules host l) l.
Proof.
  unfold sort_rules. destruct (forallb finite_priority l);
    [apply sort_perm | apply sort_host_perm].
Qed.

Lemma sort_rules_In x l : In x (sort_rules host l) <-> In x l.
Proof.
  split; apply Permutation_in; [apply sort_rules_perm | symmetry; apply sort_rules_perm].
Qed.

Lemma register_eq rule st :
  register host rule st
  = if accepts rule
    then (with_rules st (sort_rules host (upsert host rule (_rules st))), true)
    else (st, false).
Proof.
  unfold register, accepts, upsert, same_id.
  destruct (truthy rule); simpl; trivial.
  destruct (truthy (prop rule "id")); simpl; trivial.
  destruct (_validateRule rule) as [[|]|]; reflexivity.
Qed.


Lemma accepts_valid rule : accepts rule = true -> _validateRule rule = Ok true.
Proof.
  unfold accepts. intro H. apply andb_true_iff in H. destruct H as [_ H].
  now destruct (_validateRule rule) as [[|]|].
Qed.

Lemma valid_accepts rule : _validateRule rule = Ok true -> accepts rule = true.
Proof.
  intro H. unfold accepts. rewrite H.
  destruct (valid_id _ H) as (s & Hs & Ne).
  assert (T : truthy (prop rule "id") = true) by (rewrite Hs; now apply truthy_str).
  rewrite T. destruct rule as [| | | | r | | | |]; simpl in *; try discriminate; reflexivity.
Qed.

(** *** findIndex, assign, splice *)

Lemma findIndex_from_spec (p : JsVal -> bool) l i :
  match findIndex_from p i l with
  | Some j => exists l1 x l2, l = l1 ++ x :: l2 /\ j = i + List.length l1
                              /\ p x = true /\ Forall (fun y => p y = false) l1
  | None => Forall (fun y => p y = false) l
  end.
Proof.
  revert i. induction l as [|x l IH]; intro i; simpl; [constructor|].
  destruct (p x) eqn:Px.
  - exists [], x, l. simpl. repeat split; trivial; lia.
  - specialize (IH (S i)). destruct (findIndex_from p (S i) l) as [j|].
    + destruct IH as (l1 & y & l2 & E & Ej & Py & All).
      exists (x :: l1), y, l2. simpl. subst. repeat split; trivial; try lia. now constructor.
    + now constructor.
Qed.

Lemma findIndex_spec (p : JsVal -> bool) l :
  match findIndex p l with
  | Some j => exists l1 x l2, l = l1 ++ x :: l2 /\ j = List.length l1
                              /\ p x = true /\ Forall (fun y => p y = false) l1
  | None => Forall (fun y => p y = false) l
  end.
Proof. exact (findIndex_from_spec p l 0). Qed.

Lemma assign_at {A} (l1 : list A) x y l2 :
  assign (List.length l1) y (l1 ++ x :: l2) = l1 ++ y :: l2.
Proof. induction l1; simpl; [reflexivity | now rewrite IHl1]. Qed.

Lemma splice1_at {A} (l1 : list A) x l2 :
  splice1 (List.length l1) (l1 ++ x :: l2) = l1 ++ l2.
Proof. induction l1; simpl; [reflexivity | now rewrite IHl1]. Qed.

Lemma nth_at (l1 : list JsVal) x l2 d : nth (List.length l1) (l1 ++ x :: l2) d = x.
Proof. induction l1; simpl; trivial. Qed.

(** The replace-or-push step, by cases. *)
Lemma upsert_cases rule rules :
  (Forall (fun y => same_id host rule y = false) rules /\ upsert host rule rules = rules ++ [rule])
  \/ (exists l1 x l2, rules = l1 ++ x :: l2 /\ same_id host rule x = true
                      /\ Forall (fun y => same_id host rule y = false) l1
                      /\ upsert host rule rules = l1 ++ rule :: l2).
Proof.
  unfold upsert. pose proof (findIndex_spec (same_id host rule) rules) as H.
  destruct (findIndex (same_id host rule) rules) as [j|].
  - right. destruct H as (l1 & x & l2 & E & Ej & Px & All).
    exists l1, x, l2. subst. repeat split; trivial. apply assign_at.
  - left. now split.
Qed.

(** *** evaluate *)

Lemma verdict_applicable request r b :
  verdict host request r = Ok b ->
  exists m, applicable host (action_of request) (target_of request) (context_of request) r = Ok m
            /\ (m = false -> b = false).
Proof.
  unfold verdict, applicable, enabled, _matchesCondition.
  destruct (truthy (prop r "enabled")); simpl.
  - destruct (matches_pattern host _ _ _ _) as [m|e]; simpl; [|discriminate].
    intro H. exists m. split; trivial. intros ->. simpl in H. congruence.
  - intro H. exists false. split; trivial. congruence.
Qed.

Lemma first_match_cons request r rest :
  first_match host request (action_of request) (target_of request) (context_of request) (r :: rest)
  = bind (verdict host request r) (fun m =>
      if m then _applyEffect host (prop r "effect") request
      else first_match host request (action_of request) (target_of request) (context_of request) rest).
Proof.
  simpl. unfold verdict, enabled. destruct (truthy (prop r "enabled")); simpl; trivial.
  destruct (_matchesCondition host _ _ _ _) as [[|]|e]; reflexivity.
Qed.

(** On a store whose rules are all calm for the request, the scan
    returns the effect of the first enabled rule, in store order, whose
    full condition matches, and the default when there is none. *)
Lemma scan_calm request rules :
  Forall (calm host request) rules ->
  scan host request rules = decision host request (find (wins host request) rules).
Proof.
  unfold scan, _getApplicableRules. intro H.
  assert (G : exists l,
             filterM (applicable host (action_of request) (target_of request) (context_of request)) rules = Ok l
             /\ first_match host request (action_of request) (target_of request) (context_of request) l
                = decision host request (find (wins host request) rules)).
  { induction H as [|r rest [b Hb] Hrest IH].
    - exists []. now split.
    - destruct IH as (l & El & Fl).
      destruct (verdict_applicable _ _ _ Hb) as (m & Em & Hm).
      simpl filterM. rewrite Em, El. simpl.
      exists (if m then r :: l else l). split; trivial.
      unfold find; fold (find (wins host request) rest). unfold wins at 1. rewrite Hb.
      destruct m.
      + rewrite first_match_cons, Hb. simpl. now destruct b.
      + rewrite (Hm eq_refl). exact Fl. }
  destruct G as (l & El & Fl). rewrite El. exact Fl.
Qed.

Lemma taxonomy_known a : In a taxonomy -> truthy (prop ACTIONS a) = true /\ a <> "".
Proof.
  unfold taxonomy. intro H.
  repeat (destruct H as [<-|H]; [split; [reflexivity | discriminate]|]).
  destruct H.
Qed.

Lemma action_truthy request a : prop request "action" = JStr a -> a <> "" -> truthy request = true.
Proof.
  intros H Ne. destruct request as [| | | | r | | | |]; simpl in *; try discriminate; trivial.
Qed.

(** [evaluate] on an initialized engine and a request whose action is in
    the taxonomy is the rule scan; the engine is left as it was. *)
Lemma evaluate_scan request a st :
  _initialized st = true -> prop request "action" = JStr a -> In a taxonomy ->
  evaluate host request st = (st, scan host request (_rules st)).
Proof.
  intros Hi Ha Ht. destruct (taxonomy_known _ Ht) as [K Ne].
  assert (E1 : negb (_initialized st) = false) by now rewrite Hi.
  assert (E2 : negb (truthy request) || negb (truthy (prop request "action")) = false).
  { rewrite (action_truthy _ _ Ha Ne), Ha.
    assert (T : truthy (JStr a) = true) by now apply truthy_str.
    now rewrite T. }
  assert (E3 : negb (truthy (prop ACTIONS a)) && negb (is_str (JStr a) "*") = false).
  { now rewrite K. }
  unfold evaluate. rewrite E1. cbv zeta iota. rewrite E2, Ha. cbn [to_text to_string].
  rewrite E3. unfold scan, action_of, target_of, context_of. rewrite Ha. reflexivity.
Qed.

End WithHost.

End Facts.

Import Order Facts.

(* ================================================================== *)
(** * The specification's claims *)

(** ** Default deny *)




(** ** Malformed requests *)

(** C5 at the failing input: ["constructor"] is not an action of the
    taxonomy, yet [ACTIONS["constructor"]] resolves to the member every
    object literal inherits, so the taxonomy check lets the request
    through.  With the built-in rules the answer is the default denial,
    whose reason does not name the action; with a wildcard allow rule
    registered the unknown action is allowed. *)
Theorem C5_inherited_name_passes_taxonomy_check (host : Host) :
  let request := JObj [("action", JStr "constructor"); ("target", JStr "*")] in
  let allow_all := rule_literal "env-allow-all" "Allow everything" 10 "environment"
                                "*" "*" "always" "allow" "open house" true in
  mem "constructor" taxonomy = false
  /\ snd (evaluate host request fresh)
     = Ok {| allowed := false; reason := JStr "No matching rule found"; modifiedAction := None |}
  /\ snd (register host allow_all (init host fresh)) = true
  /\ snd (evaluate host request (fst (register host allow_all (init host fresh))))
     = Ok {| allowed := true; reason := JStr "open house"; modifiedAction := None |}.
Proof. repeat split; reflexivity. Qed.

(** ** Glob patterns *)

(** C6 at the failing inputs: the glob is handed to [RegExp] with only its
    stars rewritten, so the other characters keep their meaning as regular
    expression syntax.  The two examples of the specification hold; but
    the dot of ["widget.*"] also matches the [X] of ["widgetXclock"], the
    plus of ["a+b*"] repeats the [a] instead of standing for itself, and
    the parenthesis of ["f(*"] makes the constructor throw. *)
Theorem C6_glob_metacharacters_not_escaped (host : Host) :
  _matchesTarget host (JStr "widget.*") (JStr "widget.clock") = Ok true
  /\ _matchesTarget host (JStr "widget.*") (JStr "app.clock") = Ok false
  /\ _matchesTarget host (JStr "widget.*") (JStr "widgetXclock") = Ok true
  /\ _matchesTarget host (JStr "a+b*") (JStr "aab") = Ok true
  /\ _matchesTarget host (JStr "a+b*") (JStr "a+b") = Ok false
  /\ _matchesTarget host (JStr "f(*") (JStr "f(x") = Throw SyntaxError.
Proof. repeat split; reflexivity. Qed.

(** ** Transforms *)

(** C4, as the specification words it, against the code: when the
    transform of the matched rule throws (every call does in the host
    [bare]), the denial carries the reason ["Rule transform failed"], which
    is not the text ["rule transform failed"] of the claim. *)
Lemma C4_reason_text_differs :
  call bare (JFun 7) (prop rewrite_save "effect") save_p1 = Throw TypeError
  /\ snd (evaluate bare save_p1 (fst (register bare rewrite_save booted)))
     = Ok {| allowed := false; reason := JStr "Rule transform failed"; modifiedAction := None |}
  /\ String.eqb "Rule transform failed" "rule transform failed" = false.
Proof. repeat split; reflexivity. Qed.

(** The part of C4 the code keeps: a [modify] effect whose attached
    transform function throws on the request yields [{allowed: false,
    reason: "Rule transform failed"}], from [_applyEffect] and from
    [evaluate] whenever the rule that carries it is the first matching rule
    of a store whose rules are calm for the request, provided the report of
    the failure completes: there is no [window.Debugger], or the text of
    the thrown value can be taken.  When no transform function is attached
    the effect yields [allowed: true] with [effect.modifiedAction], or the
    request itself when that is missing, as [modifiedAction]. *)
Lemma transform_failure_is_denial (host : Host) :
  (forall effect request e,
      prop effect "type" = JStr "modify" ->
      truthy (prop effect "transform") = true ->
      typeof (prop effect "transform") = "function" ->
      call host (prop effect "transform") effect request = Throw e ->
      Debugger_present host = false
      \/ (exists text, error_text host (caught host e) = Ok text) ->
      _applyEffect host effect request
      = Ok {| allowed := false; reason := JStr "Rule transform failed";
              modifiedAction := None |})
  /\ (forall st request a r e,
         _initialized st = true ->
         prop request "action" = JStr a -> In a taxonomy ->
         Forall (calm host request) (_rules st) ->
         find (wins host request) (_rules st) = Some r ->
         prop (prop r "effect") "type" = JStr "modify" ->
         truthy (prop (prop r "effect") "transform") = true ->
         typeof (prop (prop r "effect") "transform") = "function" ->
         call host (prop (prop r "effect") "transform") (prop r "effect") request = Throw e ->
         Debugger_present host = false
         \/ (exists text, error_text host (caught host e) = Ok text) ->
         evaluate host request st
         = (st, Ok {| allowed := false; reason := JStr "Rule transform failed";
                      modifiedAction := None |}))
  /\ (forall effect request,
         prop effect "type" = JStr "modify" ->
         truthy (prop effect "transform") = false
         \/ typeof (prop effect "transform") <> "function" ->
         _applyEffect host effect request
         = Ok {| allowed := true;
                 reason := or_else (prop effect "reason") (JStr "Action modified by rule");
                 modifiedAction := Some (or_else (prop effect "modifiedAction") request) |}).
Proof.
  assert (A : forall effect request e,
             prop effect "type" = JStr "modify" ->
             truthy (prop effect "transform") = true ->
             typeof (prop effect "transform") = "function" ->
             call host (prop effect "transform") effect request = Throw e ->
             Debugger_present host = false
             \/ (exists text, error_text host (caught host e) = Ok text) ->
             _applyEffect host effect request
             = Ok {| allowed := false; reason := JStr "Rule transform failed";
                     modifiedAction := None |}).
  { intros effect request e Ht Htr Hf Hc Hr. unfold _applyEffect, is_function.
    rewrite Ht, Htr, Hf, Hc. simpl.
    destruct Hr as [Hd|[text Hd]]; rewrite Hd; [|destruct (Debugger_present host)];
      reflexivity. }
  split; [exact A|]. split.
  - intros st request a r e Hi Ha Hin Hcalm Hfind Ht Htr Hf Hc Hr.
    rewrite (evaluate_scan host request a st Hi Ha Hin). f_equal.
    rewrite scan_calm by assumption. rewrite Hfind. simpl.
    now apply (A _ _ e).
  - intros effect request Ht Hno. unfold _applyEffect, is_function. rewrite Ht. simpl.
    destruct Hno as [Hno|Hno].
    + now rewrite Hno.
    + apply String.eqb_neq in Hno. rewrite Hno. now rewrite andb_false_r.
Qed.

Lemma transform_failure_is_denial_witness :
  evaluate bare save_p1 (fst (register bare rewrite_save booted))
  = (fst (register bare rewrite_save booted),
     Ok {| allowed := false; reason := JStr "Rule transform failed"; modifiedAction := None |}).
Proof.
  apply (proj1 (proj2 (transform_failure_is_denial bare))
               (fst (register bare rewrite_save booted)) save_p1 "project.save"
               rewrite_save TypeError).
  - reflexivity.
  - reflexivity.
  - unfold taxonomy. simpl. tauto.
  - repeat constructor; eexists; reflexivity.
  - reflexivity.
  - reflexivity.
  - reflexivity.
  - reflexivity.
  - reflexivity.
  - right. eexists. reflexivity.
Defined.

(** C4 at the failing input.  The [catch] block of [_applyEffect] hands
    the value it caught to [window.Debugger.logError] before it returns the
    denial, and [logError] begins with [error ? error.toString() : null].
    When the transform throws a truthy value on which the call of
    [toString] throws (an object whose [toString] is not callable, or one
    whose [toString] throws itself), that exception is raised inside the
    [catch] block: it leaves [_applyEffect], and it leaves [evaluate] when
    the rule is the first matching rule of the store.  No denial is
    returned. *)
Theorem C4_transform_failure_escapes (host : Host) :
  (forall effect request v e,
      Debugger_present host = true ->
      prop effect "type" = JStr "modify" ->
      truthy (prop effect "transform") = true ->
      typeof (prop effect "transform") = "function" ->
      call host (prop effect "transform") effect request = Throw (Thrown v) ->
      truthy v = true ->
      toString_call host v = Throw e ->
      _applyEffect host effect request = Throw e)
  /\ (forall st request a r v e,
         Debugger_present host = true ->
         _initialized st = true ->
         prop request "action" = JStr a -> In a taxonomy ->
         Forall (calm host request) (_rules st) ->
         find (wins host request) (_rules st) = Some r ->
         prop (prop r "effect") "type" = JStr "modify" ->
         truthy (prop (prop r "effect") "transform") = true ->
         typeof (prop (prop r "effect") "transform") = "function" ->
         call host (prop (prop r "effect") "transform") (prop r "effect") request
         = Throw (Thrown v) ->
         truthy v = true ->
         toString_call host v = Throw e ->
         evaluate host request st = (st, Throw e)).
Proof.
  assert (A : forall effect request v e,
             Debugger_present host = true ->
             prop effect "type" = JStr "modify" ->
             truthy (prop effect "transform") = true ->
             typeof (prop effect "transform") = "function" ->
             call host (prop effect "transform") effect request = Throw (Thrown v) ->
             truthy v = true ->
             toString_call host v = Throw e ->
             _applyEffect host effect request = Throw e).
  { intros effect request v e Hd Ht Htr Hf Hc Hv He. unfold _applyEffect, is_function.
    rewrite Ht, Htr, Hf, Hc, Hd. simpl. unfold error_text. rewrite Hv, He. reflexivity. }
  split; [exact A|].
  intros st request a r v e Hd Hi Ha Hin Hcalm Hfind Ht Htr Hf Hc Hv He.
  rewrite (evaluate_scan host request a st Hi Ha Hin). f_equal.
  rewrite scan_calm by assumption. rewrite Hfind. simpl.
  now apply (A _ _ v).
Qed.

(** On a page with the Debugger, a registered rule whose transform throws
    [{toString: null}] makes [evaluate] end in a [TypeError]. *)
Lemma C4_transform_failure_escapes_witness :
  call hostile (JFun 7) (prop rewrite_save "effect") save_p1
  = Throw (Thrown (JObj [("toString", JNull)]))
  /\ snd (register hostile rewrite_save (init hostile fresh)) = true
  /\ evaluate hostile save_p1 (fst (register hostile rewrite_save (init hostile fresh)))
     = (fst (register hostile rewrite_save (init hostile fresh)), Throw TypeError).
Proof.
  split; [reflexivity|]. split; [reflexivity|].
  apply (proj2 (C4_transform_failure_escapes hostile)
               (fst (register hostile rewrite_save (init hostile fresh))) save_p1
               "project.save" rewrite_save (JObj [("toString", JNull)]) TypeError).
  - reflexivity.
  - reflexivity.
  - reflexivity.
  - unfold taxonomy. simpl. tauto.
  - repeat constructor; eexists; reflexivity.
  - reflexivity.
  - reflexivity.
  - reflexivity.
  - reflexivity.
  - reflexivity.
  - reflexivity.
  - reflexivity.
Defined.

(** ** When-predicates *)

Lemma substring_all s : String.substring 0 (String.length s) s = s.
Proof. induction s; simpl; [reflexivity | now rewrite IHs]. Qed.

Lemma find_skip (f : JsVal -> bool) l1 r l2 :
  f r = false -> find f (l1 ++ r :: l2) = find f (l1 ++ l2).
Proof.
  intro H. induction l1 as [|x l1 IH]; simpl; [now rewrite H|].
  destruct (f x); trivial.
Qed.

Lemma mode_prefix value : startsWith ("mode:" ++ value) "mode:" = true.
Proof. unfold startsWith. simpl. now destruct value. Qed.

Lemma mode_value value : substring_from 5 ("mode:" ++ value) = value.
Proof.
  unfold substring_from. simpl. rewrite Nat.sub_0_r. apply substring_all.
Qed.

(** C7, as the specification words it, against the code: the empty string
    is a predicate string other than ["always"] and ["mode:..."], and
    [_matchesWhen] does answer [false] for it, but [evaluate] never asks: a
    rule whose [when] is empty applies as if it said ["always"]. *)
Lemma C7_empty_predicate_is_permissive :
  _matchesWhen bare (JStr "") (context_of save_p1) = Ok false
  /\ snd (register bare save_when_empty booted) = true
  /\ snd (evaluate bare save_p1 (fst (register bare save_when_empty booted)))
     = Ok {| allowed := true; reason := JStr "saving is fine"; modifiedAction := None |}.
Proof. repeat split; reflexivity. Qed.

(** C7 (amended): for every context, ["always"] matches; ["mode:<value>"]
    matches if and only if the context's [mode] or [activeMode] field is
    <value>; every other predicate string does not match and never throws.
    A rule whose [when] is a non-empty string that does not match is
    skipped: [evaluate] answers as if the rule were not in the store, that
    is with the next matching rule or the default denial.  (An empty [when]
    is not a predicate for [evaluate]: such a rule applies.) *)
Theorem C7_when_predicates (host : Host) :
  (forall context, _matchesWhen host (JStr "always") context = Ok true)
  /\ (forall value context,
         _matchesWhen host (JStr ("mode:" ++ value)) context = Ok true
         <-> read context "mode" = Ok (JStr value)
             \/ read context "activeMode" = Ok (JStr value))
  /\ (forall when context,
         when <> "always" -> startsWith when "mode:" = false ->
         _matchesWhen host (JStr when) context = Ok false)
  /\ (forall st request a l1 r l2 when,
         _initialized st = true ->
         prop request "action" = JStr a -> In a taxonomy ->
         prop (prop r "condition") "when" = JStr when -> when <> "" ->
         _matchesWhen host (JStr when) (context_of request) = Ok false ->
         (exists b, _matchesTarget host (prop (prop r "condition") "target")
                                   (target_of request) = Ok b) ->
         Forall (calm host request) (l1 ++ l2) ->
         snd (evaluate host request (with_rules st (l1 ++ r :: l2)))
         = snd (evaluate host request (with_rules st (l1 ++ l2)))).
Proof.
  repeat split.
  - (* mode: only if *)
    unfold _matchesWhen. rewrite mode_prefix, mode_value. simpl is_str. unfold read.
    destruct (nullish context); simpl; [discriminate|].
    rewrite !seq_str.
    destruct (is_str (prop context "mode") value) eqn:M.
    + intros _. apply is_str_eq in M. left. now rewrite M.
    + intro H. injection H as A. apply is_str_eq in A. right. now rewrite A.
  - (* mode: if *)
    unfold _matchesWhen. rewrite mode_prefix, mode_value. simpl is_str. unfold read.
    destruct (nullish context); simpl; [intros [H|H]; discriminate|].
    rewrite !seq_str.
    intros [H|H]; injection H as A.
    + rewrite A. simpl. now rewrite String.eqb_refl.
    + rewrite A. destruct (is_str (prop context "mode") value); trivial.
      simpl. now rewrite String.eqb_refl.
  - (* other predicate strings *)
    intros when context Hn Hm. unfold _matchesWhen. simpl is_str.
    apply String.eqb_neq in Hn. rewrite Hn, Hm. reflexivity.
  - (* the engine skips the rule *)
    intros st request a l1 r l2 when Hi Ha Hin Hw Hne Hfail [b Hb] Hcalm.
    assert (V : verdict host request r = Ok false).
    { unfold verdict. destruct (negb (enabled r)); trivial.
      unfold _matchesCondition, matches_pattern.
      destruct (negb (is_str (prop (prop r "condition") "action") "*")
                && negb (seq_ host (prop (prop r "condition") "action") (action_of request)));
        trivial.
      assert (T : (if is_str (prop (prop r "condition") "target") "*" then Ok true
                   else _matchesTarget host (prop (prop r "condition") "target") (target_of request))
                  = Ok (if is_str (prop (prop r "condition") "target") "*" then true else b)).
      { destruct (is_str (prop (prop r "condition") "target") "*"); trivial. }
      rewrite T. simpl bind.
      destruct (if is_str (prop (prop r "condition") "target") "*" then true else b);
        simpl; trivial.
      rewrite Hw.
      assert (Tw : truthy (JStr when) = true) by now apply truthy_str.
      rewrite Tw.
      destruct (is_str (JStr when) "always") eqn:A.
      - apply is_str_eq in A. injection A as ->. discriminate Hfail.
      - cbn [negb andb]. rewrite Hfail. reflexivity. }
    assert (I : _initialized (with_rules st (l1 ++ r :: l2)) = true) by exact Hi.
    assert (I' : _initialized (with_rules st (l1 ++ l2)) = true) by exact Hi.
    rewrite (evaluate_scan host request a _ I Ha Hin).
    rewrite (evaluate_scan host request a _ I' Ha Hin). simpl.
    rewrite !scan_calm; trivial.
    + rewrite find_skip; trivial. unfold wins. now rewrite V.
    + apply Forall_app in Hcalm. destruct Hcalm as [C1 C2].
      apply Forall_app. split; trivial. constructor; trivial. now exists false.
Qed.

Lemma C7_when_predicates_witness :
  snd (evaluate bare (JObj [("action", JStr "project.save");
                            ("context", JObj [("mode", JStr "runner")])])
                (with_rules booted
                   ([system_boot_allow]
                    ++ rule_literal "save-in-edit" "Saves while editing" 900 "mode"
                                    "project.save" "*" "mode:edit" "allow" "editing" true
                    :: [system_dangerous_deny])))
  = snd (evaluate bare (JObj [("action", JStr "project.save");
                              ("context", JObj [("mode", JStr "runner")])])
                  (with_rules booted ([system_boot_allow] ++ [system_dangerous_deny]))).
Proof.
  apply (proj2 (proj2 (proj2 (C7_when_predicates bare)))
               booted _ "project.save" [system_boot_allow] _ [system_dangerous_deny] "mode:edit").
  - reflexivity.
  - reflexivity.
  - unfold taxonomy. simpl. tauto.
  - reflexivity.
  - discriminate.
  - reflexivity.
  - exists true. reflexivity.
  - repeat constructor; eexists; reflexivity.
Defined.

(** ** Validation *)








(** ** Protection of system rules *)

Lemma find_findIndex (p : JsVal -> bool) l r i :
  find p l = Some r ->
  exists l1 l2, l = l1 ++ r :: l2 /\ findIndex_from p i l = Some (i + List.length l1).
Proof.
  revert i. induction l as [|x l IH]; intros i H; simpl in *; [discriminate|].
  destruct (p x).
  - injection H as ->. exists [], l. simpl. split; trivial. f_equal. lia.
  - destruct (IH (S i) H) as (l1 & l2 & E & F).
    exists (x :: l1), l2. subst. simpl. split; trivial. rewrite F. f_equal. lia.
Qed.

Lemma first_hit_unique (p : JsVal -> bool) l1 x l2 m1 y m2 :
  l1 ++ x :: l2 = m1 ++ y :: m2 ->
  p x = true -> p y = true ->
  Forall (fun z => p z = false) l1 -> Forall (fun z => p z = false) m1 ->
  l1 = m1 /\ x = y /\ l2 = m2.
Proof.
  intros E Hx Hy. revert m1 E.
  induction l1 as [|a l1 IH]; intros [|b m1] E H1 H2; simpl in E.
  - injection E as -> ->. auto.
  - injection E as -> _. inversion H2; subst. congruence.
  - injection E as -> _. inversion H1; subst. congruence.
  - injection E as -> E. inversion H1; subst. inversion H2; subst.
    destruct (IH m1 E) as (-> & -> & ->); auto.
Qed.

(** C3 at the failing input.  [unregister] and [clear] test
    [level === 'system'] before they remove a rule; the "update existing
    rule" branch of [register] assigns the candidate to the index of the
    rule that carries its id and tests nothing.  A valid candidate with the
    id of the built-in rule ["system-boot-allow"] is therefore not refused:
    [register] returns [true], the candidate, of level widget, stands in
    the store where the system rule stood, [system.boot] is denied from
    then on, and [unregister] now removes the rule under that id. *)
Theorem C3_register_replaces_system_rule (host : Host) :
  let before := init host fresh in
  let after := fst (register host boot_hijack before) in
  get host (JStr "system-boot-allow") before = Some system_boot_allow
  /\ prop system_boot_allow "level" = JStr "system"
  /\ snd (register host boot_hijack before) = true
  /\ get host (JStr "system-boot-allow") after = Some boot_hijack
  /\ prop boot_hijack "level" = JStr "widget"
  /\ snd (evaluate host boot before)
     = Ok {| allowed := true; reason := JStr "System boot is always allowed";
             modifiedAction := None |}
  /\ snd (evaluate host boot after)
     = Ok {| allowed := false; reason := JStr "boot is off"; modifiedAction := None |}
  /\ snd (unregister host (JStr "system-boot-allow") before) = false
  /\ snd (unregister host (JStr "system-boot-allow") after) = true
  /\ get host (JStr "system-boot-allow")
         (fst (unregister host (JStr "system-boot-allow") after)) = None.
Proof. repeat split; reflexivity. Qed.

(** The part of C3 the code keeps: system-level rules are protected from
    removal.  [unregister] of a system rule returns [false] and leaves the
    engine as it was; [clear] keeps every system rule; after
    [unregister("system-boot-allow")], on a fresh engine or an initialized
    one, [evaluate({action: "system.boot"})] still returns
    [allowed: true]. *)
Lemma system_rules_survive_removal (host : Host) :
  (forall st ruleId r,
      get host ruleId st = Some r -> prop r "level" = JStr "system" ->
      unregister host ruleId st = (st, false))
  /\ (forall st r,
         In r (_rules st) -> prop r "level" = JStr "system" -> In r (_rules (clear st)))
  /\ (forall st,
         st = fresh \/ st = init host fresh ->
         unregister host (JStr "system-boot-allow") st = (st, false)
         /\ snd (evaluate host boot (fst (unregister host (JStr "system-boot-allow") st)))
            = Ok {| allowed := true; reason := JStr "System boot is always allowed";
                    modifiedAction := None |}).
Proof.
  repeat split.
  - intros st ruleId r Hg Hl. unfold get in Hg. unfold unregister, findIndex.
    destruct (find_findIndex _ _ _ 0 Hg) as (l1 & l2 & E & F).
    rewrite F, E. simpl Nat.add. rewrite nth_at, Hl. reflexivity.
  - intros st r Hin Hl. unfold clear. simpl. apply filter_In. split; trivial.
    now rewrite Hl.
  - destruct H as [-> | ->]; reflexivity.
  - destruct H as [-> | ->]; reflexivity.
Qed.

Lemma system_rules_survive_removal_witness :
  unregister bare (JStr "system-log-allow") booted = (booted, false).
Proof.
  apply (proj1 (system_rules_survive_removal bare) booted (JStr "system-log-allow")
               system_log_allow).
  - reflexivity.
  - reflexivity.
Defined.

(** What [register] does with a valid candidate that carries the id of a
    rule of the store, whatever the level of that rule: the candidate
    takes the place of the first rule with its id, the store is sorted
    again, and [register] returns [true]. *)
Lemma register_replaces_in_place (host : Host) st rule l1 x l2 :
  accepts rule = true ->
  _rules st = l1 ++ x :: l2 ->
  same_id host rule x = true -> Forall (fun y => same_id host rule y = false) l1 ->
  register host rule st = (with_rules st (sort_rules host (l1 ++ rule :: l2)), true).
Proof.
  intros Ha Hs Hx Hl1. rewrite register_eq, Ha. do 2 f_equal.
  destruct (upsert_cases host rule (_rules st)) as [[All _]|(m1 & y & m2 & E & Hy & Hm1 & U)].
  - rewrite Hs in All. apply Forall_app in All. destruct All as [_ All].
    inversion All; subst. congruence.
  - rewrite U. rewrite Hs in E.
    destruct (first_hit_unique _ _ _ _ _ _ _ E Hx Hy Hl1 Hm1) as (-> & _ & ->).
    reflexivity.
Qed.

(** ** Loading project rules *)

Lemma register_In host rule st x :
  In x (_rules (fst (register host rule st))) -> x = rule \/ In x (_rules st).
Proof.
  rewrite register_eq. destruct (accepts rule); simpl; [|now right].
  rewrite sort_rules_In.
  destruct (upsert_cases host rule (_rules st)) as [[_ U]|(l1 & y & l2 & E & _ & _ & U)];
    rewrite U.
  - intro H. apply in_app_or in H. destruct H as [H|[H|[]]]; auto.
  - intro H. rewrite E. apply in_app_or in H. destruct H as [H|[H|H]]; auto.
    + right. apply in_or_app. now left.
    + right. apply in_or_app. right. now right.
Qed.




(** ** The order of the store and the first-registered rule *)


Lemma register_initialized host rule st :
  _initialized (fst (register host rule st)) = _initialized st.
Proof. rewrite register_eq. now destruct (accepts rule). Qed.

Lemma wins_verdict host request r : wins host request r = true -> verdict host request r = Ok true.
Proof. unfold wins. now destruct (verdict host request r) as [[|]|]. Qed.

Lemma find_all_false (f : JsVal -> bool) l :
  (forall x, In x l -> f x = false) -> find f l = None.
Proof.
  induction l as [|x l IH]; intro H; simpl; trivial.
  rewrite (H x) by now left. apply IH. intros y Hy. apply H. now right.
Qed.

Lemma unregister_cases host ruleId st :
  unregister host ruleId st = (st, false)
  \/ exists l1 r l2, _rules st = l1 ++ r :: l2
                     /\ unregister host ruleId st = (with_rules st (l1 ++ l2), true).
Proof.
  unfold unregister.
  pose proof (findIndex_spec (fun r => seq_ host (prop r "id") ruleId) (_rules st)) as H.
  destruct (findIndex _ (_rules st)) as [j|]; [|now left].
  destruct H as (l1 & x & l2 & E & -> & _ & _).
  rewrite E, nth_at. destruct (is_str (prop x "level") "system"); [now left|].
  right. exists l1, x, l2. rewrite splice1_at. rewrite <- E. auto.
Qed.

Lemma upsert_ranked host rule rules :
  ranked rule -> Forall ranked rules -> Forall ranked (upsert host rule rules).
Proof.
  intros Hk Hr.
  destruct (upsert_cases host rule rules) as [[_ U]|(l1 & y & l2 & E & _ & _ & U)];
    rewrite U.
  - apply Forall_app. split; trivial. now constructor.
  - rewrite E in Hr. apply Forall_app in Hr. destruct Hr as [R1 R2]. inversion R2; subst.
    apply Forall_app. split; trivial. now constructor.
Qed.

(** [register] keeps a ranked store ranked and leaves it sorted. *)
Lemma register_keeps_order host rule st :
  (accepts rule = true -> ranked rule) ->
  Forall ranked (_rules st) -> descending (_rules st) ->
  Forall ranked (_rules (fst (register host rule st)))
  /\ descending (_rules (fst (register host rule st))).
Proof.
  intros Hk Hr Hd. rewrite register_eq. destruct (accepts rule); [|now split].
  specialize (Hk eq_refl). simpl.
  rewrite sort_rules_ranked by now apply upsert_ranked.
  split.
  - apply sort_ranked. now apply upsert_ranked.
  - apply sort_descending. now apply upsert_ranked.
Qed.




(** Why the engine is taken to be initialized: the first [evaluate] on an
    engine that is not runs [init], which empties the store before it loads
    the built-in rules, so a rule registered earlier is gone. *)
Lemma init_discards_earlier_rules :
  _rules (fst (register bare save_allow fresh)) = [save_allow]
  /\ snd (evaluate bare save_p1 (fst (register bare save_allow fresh))) = Ok default_deny
  /\ _rules (fst (evaluate bare save_p1 (fst (register bare save_allow fresh))))
     = [system_boot_allow; system_log_allow; system_debug_allow; system_dangerous_deny].
Proof. repeat split; reflexivity. Qed.



(** ** Reloading project rules *)

Section Reload.
Variable host : Host.

Lemma register_In_accepted rule st x :
  In x (_rules (fst (register host rule st))) ->
  (x = rule /\ accepts rule = true) \/ In x (_rules st).
Proof.
  intro H. destruct (accepts rule) eqn:A.
  - destruct (register_In _ _ _ _ H); auto.
  - rewrite register_eq, A in H. now right.
Qed.

Lemma register_In_new rule st :
  accepts rule = true -> In rule (_rules (fst (register host rule st))).
Proof.
  intro A. rewrite register_eq, A. simpl. rewrite sort_rules_In.
  destruct (upsert_cases host rule (_rules st)) as [[_ U]|(l1 & y & l2 & _ & _ & _ & U)];
    rewrite U; apply in_or_app; right; now left.
Qed.

Lemma register_In_old rule st x :
  In x (_rules st) -> same_id host rule x = false ->
  In x (_rules (fst (register host rule st))).
Proof.
  intros H D. rewrite register_eq. destruct (accepts rule); trivial.
  simpl. rewrite sort_rules_In.
  destruct (upsert_cases host rule (_rules st)) as [[_ U]|(l1 & y & l2 & E & Hy & _ & U)];
    rewrite U.
  - apply in_or_app. now left.
  - rewrite E in H. apply in_app_or in H. apply in_or_app.
    destruct H as [H|[<-|H]]; [now left | congruence | right; now right].
Qed.

(** Registering a project-level rule whose id is not that of a rule of
    another level leaves the rules of the other levels as they are. *)
Lemma register_project_frame rule st :
  project_level rule = true ->
  (accepts rule = true ->
   forall r, In r (_rules st) -> other_level r = true -> same_id host rule r = false) ->
  Permutation (filter other_level (_rules (fst (register host rule st))))
              (filter other_level (_rules st)).
Proof.
  intros P C. rewrite register_eq. destruct (accepts rule); [|reflexivity].
  specialize (C eq_refl). simpl.
  etransitivity; [apply filter_perm, sort_rules_perm|].
  assert (O : other_level rule = false) by (unfold other_level; now rewrite P).
  destruct (upsert_cases host rule (_rules st)) as [[_ U]|(l1 & y & l2 & E & Hy & _ & U)];
    rewrite U.
  - rewrite filter_app. simpl. rewrite O, app_nil_r. reflexivity.
  - rewrite E, !filter_app. simpl. rewrite O.
    destruct (other_level y) eqn:Oy; [|reflexivity].
    rewrite C in Hy; [discriminate| |assumption].
    rewrite E. apply in_or_app. right. now left.
Qed.

Lemma forEach_step e entries st :
  nullish e = false ->
  forEach_register host (e :: entries) st
  = forEach_register host entries
      (if project_level e then fst (register host e st) else st).
Proof. intro N. simpl. unfold read. now rewrite N. Qed.

Lemma forEach_ok entries st :
  no_nullish entries -> snd (forEach_register host entries st) = Ok tt.
Proof.
  intro N. revert st. induction N as [|e entries Ne _ IH]; intro st; trivial.
  rewrite forEach_step by assumption. apply IH.
Qed.

Lemma forEach_frame entries st :
  no_nullish entries -> no_clash host entries (_rules st) ->
  Permutation (filter other_level (_rules (fst (forEach_register host entries st))))
              (filter other_level (_rules st)).
Proof.
  intro N. revert st. induction N as [|e entries Ne _ IH]; intros st C; [reflexivity|].
  rewrite forEach_step by assumption.
  assert (S : Permutation
                (filter other_level
                   (_rules (if project_level e then fst (register host e st) else st)))
                (filter other_level (_rules st))).
  { destruct (project_level e) eqn:P; [|reflexivity].
    apply register_project_frame; trivial.
    intros A r Hr Or. apply (C e r); trivial. now left. }
  etransitivity; [apply IH | exact S].
  intros e' r He' P' A' Hr Or.
  apply (C e' r); trivial; [now right|].
  assert (I : In r (filter other_level (_rules st))).
  { eapply Permutation_in; [exact S|]. apply filter_In. now split. }
  now apply filter_In in I.
Qed.

Lemma forEach_keeps entries st x :
  In x (_rules st) ->
  (forall e, In e entries -> project_level e = true -> accepts e = true ->
             same_id host e x = false) ->
  In x (_rules (fst (forEach_register host entries st))).
Proof.
  revert st. induction entries as [|e entries IH]; intros st H D; trivial.
  simpl. unfold read. destruct (nullish e); trivial. fold (project_level e).
  apply IH; [|intros e' He'; apply D; now right].
  destruct (project_level e) eqn:P; trivial.
  destruct (accepts e) eqn:A.
  - apply register_In_old; trivial. apply D; trivial. now left.
  - now rewrite register_eq, A.
Qed.

Lemma forEach_last pre r post st :
  no_nullish (pre ++ r :: post) ->
  project_level r = true -> accepts r = true ->
  (forall e, In e post -> project_level e = true -> accepts e = true ->
             same_id host e r = false) ->
  In r (_rules (fst (forEach_register host (pre ++ r :: post) st))).
Proof.
  intros N P A D. revert st. induction pre as [|e pre IH]; intro st.
  - simpl app. inversion N; subst. rewrite forEach_step by assumption. rewrite P.
    apply forEach_keeps; trivial. now apply register_In_new.
  - simpl app. inversion N; subst. rewrite forEach_step by assumption. now apply IH.
Qed.

Lemma forEach_from entries st x :
  In x (_rules (fst (forEach_register host entries st))) ->
  In x (_rules st) \/ (In x entries /\ project_level x = true /\ accepts x = true).
Proof.
  revert st. induction entries as [|e entries IH]; intros st H; [now left|].
  simpl in H. unfold read in H. destruct (nullish e); [now left|].
  fold (project_level e) in H.
  destruct (IH _ H) as [H1|(H1 & H2 & H3)]; [|right; split; [now right | auto]].
  destruct (project_level e) eqn:P; [|now left].
  destruct (register_In_accepted _ _ _ H1) as [[-> A]|H3]; [|now left].
  right. split; [now left | auto].
Qed.

(** One call of [loadProjectRules] on a project that carries an array. *)
Lemma loadProjectRules_array project entries st :
  truthy project = true -> prop project "rules" = JArr entries ->
  loadProjectRules host project st
  = forEach_register host entries (with_rules st (filter other_level (_rules st))).
Proof.
  intros T E. unfold loadProjectRules. rewrite T, E. reflexivity.
Qed.

End Reload.

(** C9 at the failing input.  [loadProjectRules] inserts through
    [register], whose "update existing rule" branch replaces the rule that
    carries the id of the candidate whatever its level.  A project-level
    entry of [setB] with the id of the built-in rule ["system-boot-allow"]
    replaces that system rule: after the two loads the rules of the other
    levels are not the ones that were there before, and [system.boot],
    allowed before, is denied. *)
Theorem C9_project_entry_replaces_system_rule (host : Host) :
  let setA := JObj [("rules", JArr [save_allow])] in
  let setB := JObj [("rules", JArr [boot_hijack_project])] in
  let before := init host fresh in
  let after := fst (loadProjectRules host setB (fst (loadProjectRules host setA before))) in
  get host (JStr "system-boot-allow") before = Some system_boot_allow
  /\ prop system_boot_allow "level" = JStr "system"
  /\ prop boot_hijack_project "level" = JStr "project"
  /\ get host (JStr "system-boot-allow") after = Some boot_hijack_project
  /\ filter other_level (_rules before)
     = [system_boot_allow; system_log_allow; system_debug_allow; system_dangerous_deny]
  /\ filter other_level (_rules after)
     = [system_log_allow; system_debug_allow; system_dangerous_deny]
  /\ snd (evaluate host boot before)
     = Ok {| allowed := true; reason := JStr "System boot is always allowed";
             modifiedAction := None |}
  /\ snd (evaluate host boot after)
     = Ok {| allowed := false; reason := JStr "boot is off"; modifiedAction := None |}.
Proof. repeat split; reflexivity. Qed.

(** The part of C9 the code keeps.  Let [setA] and [setB] carry [rules]
    arrays without [null] or [undefined] entries, none of whose accepted
    project-level entries carries the id of a rule of another level in the
    store.  Then [loadProjectRules(setA)] followed by
    [loadProjectRules(setB)] completes and leaves, at level project, only
    accepted project-level entries of [setB], among them for each id the
    last such entry: those of [setA] and those registered before are
    evicted.  The rules of the other levels are the ones that were there
    before. *)
Lemma reload_replaces_project_rules (host : Host) (st : Engine) (setA setB : JsVal)
        (la lb : list JsVal) :
  truthy setA = true -> prop setA "rules" = JArr la ->
  truthy setB = true -> prop setB "rules" = JArr lb ->
  no_nullish (la ++ lb) -> no_clash host (la ++ lb) (_rules st) ->
  snd (loadProjectRules host setA st) = Ok tt
  /\ snd (loadProjectRules host setB (fst (loadProjectRules host setA st))) = Ok tt
  /\ (forall r,
         In r (_rules (fst (loadProjectRules host setB (fst (loadProjectRules host setA st))))) ->
         project_level r = true -> In r lb /\ accepts r = true)
  /\ (forall pre r post,
         lb = pre ++ r :: post -> project_level r = true -> accepts r = true ->
         (forall e, In e post -> project_level e = true -> accepts e = true ->
                    same_id host e r = false) ->
         In r (_rules (fst (loadProjectRules host setB (fst (loadProjectRules host setA st))))))
  /\ Permutation
       (filter other_level
          (_rules (fst (loadProjectRules host setB (fst (loadProjectRules host setA st))))))
       (filter other_level (_rules st)).
Proof.
  intros Ta Ea Tb Eb N C.
  apply Forall_app in N. destruct N as [Na Nb].
  rewrite (loadProjectRules_array host setA la st Ta Ea).
  set (st0 := with_rules st (filter other_level (_rules st))).
  set (st1 := fst (forEach_register host la st0)).
  rewrite (loadProjectRules_array host setB lb st1 Tb Eb).
  set (st1' := with_rules st1 (filter other_level (_rules st1))).
  assert (F0 : filter other_level (_rules st0) = filter other_level (_rules st)).
  { unfold st0. simpl. clear. induction (_rules st) as [|x l IH]; simpl; trivial.
    destruct (other_level x) eqn:O; simpl; [rewrite O|]; now rewrite IH. }
  assert (C0 : no_clash host la (_rules st0)).
  { intros e r He P A Hr Or. apply (C e r); trivial.
    - apply in_or_app. now left.
    - unfold st0 in Hr. simpl in Hr. now apply filter_In in Hr. }
  assert (P1 : Permutation (filter other_level (_rules st1)) (filter other_level (_rules st))).
  { unfold st1. rewrite <- F0. now apply forEach_frame. }
  assert (F1 : filter other_level (_rules st1') = filter other_level (_rules st1)).
  { unfold st1'. simpl. clear. induction (_rules st1) as [|x l IH]; simpl; trivial.
    destruct (other_level x) eqn:O; simpl; [rewrite O|]; now rewrite IH. }
  assert (C1 : no_clash host lb (_rules st1')).
  { intros e r He P A Hr Or. apply (C e r); trivial.
    - apply in_or_app. now right.
    - assert (I : In r (filter other_level (_rules st))).
      { eapply Permutation_in; [exact P1|]. rewrite <- F1. apply filter_In. now split. }
      now apply filter_In in I. }
  split; [now apply forEach_ok|]. split; [now apply forEach_ok|]. split; [|split].
  - intros r Hin P.
    destruct (forEach_from host lb st1' r Hin) as [I|(I & _ & A)]; [|now split].
    unfold st1' in I. simpl in I. apply filter_In in I. destruct I as [_ O].
    unfold other_level in O. rewrite P in O. discriminate.
  - intros pre r post E P A D. rewrite E. apply forEach_last; trivial. now rewrite <- E.
  - etransitivity; [apply forEach_frame; trivial|]. now rewrite F1.
Qed.

Lemma reload_replaces_project_rules_witness :
  snd (loadProjectRules bare (JObj [("rules", JArr [save_allow])]) booted) = Ok tt
  /\ _rules (fst (loadProjectRules bare (JObj [("rules", JArr [save_deny])])
                    (fst (loadProjectRules bare (JObj [("rules", JArr [save_allow])]) booted))))
     = [system_boot_allow; system_log_allow; system_debug_allow; save_deny;
        system_dangerous_deny].
Proof.
  assert (N : no_nullish ([save_allow] ++ [save_deny])) by (repeat constructor).
  assert (C : no_clash bare ([save_allow] ++ [save_deny]) (_rules booted)).
  { intros e r He _ _ Hr _. vm_compute in Hr. simpl in He.
    destruct He as [<-|[<-|[]]];
      destruct Hr as [<-|[<-|[<-|[<-|[]]]]]; reflexivity. }
  split.
  - exact (proj1 (reload_replaces_project_rules
                    bare booted (JObj [("rules", JArr [save_allow])])
                    (JObj [("rules", JArr [save_deny])]) [save_allow] [save_deny]
                    eq_refl eq_refl eq_refl eq_refl N C)).
  - reflexivity.
Defined.

(* ================================================================== *)
(** * Further properties of the store and of the request checks *)

(** ** Rule ids stay unique *)

(** The ids of the store stay distinct under [register]. *)
Lemma register_nodup (host : Host) (rule : JsVal) (st : Engine) :
  NoDup (ids (_rules st)) -> NoDup (ids (_rules (fst (register host rule st)))).
Proof.
  intro N. rewrite register_eq. destruct (accepts rule) eqn:A; [|assumption].
  destruct (valid_id rule (accepts_valid rule A)) as (s & Es & _).
  assert (Same : forall y, same_id host rule y = true <-> prop y "id" = JStr s).
  { intro y. unfold same_id. rewrite Es, seq_str. apply is_str_eq. }
  simpl. apply (Permutation_NoDup (l := ids (upsert host rule (_rules st)))).
  { unfold ids. apply Permutation_map. symmetry. apply sort_rules_perm. }
  destruct (upsert_cases host rule (_rules st)) as [[All U]|(l1 & y & l2 & E & Hy & _ & U)];
    rewrite U; unfold ids in *.
  - rewrite map_app. simpl.
    apply (Permutation_NoDup (l := prop rule "id" :: map (fun r => prop r "id") (_rules st))).
    { apply Permutation_cons_append. }
    constructor; trivial. rewrite Es. intro Hin. apply in_map_iff in Hin.
    destruct Hin as (y & Ey & Hy). rewrite Forall_forall in All.
    apply Same in Ey. rewrite (All y Hy) in Ey. discriminate.
  - rewrite E in N. rewrite map_app in *. simpl in *.
    apply Same in Hy. now rewrite Es, <- Hy.
Qed.


(** ** Requests without a known action *)

Lemma own_absent (l : list string) (v : JsVal) key :
  mem key l = false -> own (map (fun a => (a, v)) l) key = None.
Proof.
  unfold mem. induction l as [|a l IH]; simpl; trivial.
  intro H. apply orb_false_elim in H. destruct H as [H1 H2].
  rewrite String.eqb_sym, H1. now apply IH.
Qed.

(** [evaluate] never throws on a request without an action or with an
    action that is neither in the taxonomy nor a member every object
    inherits: it answers with a denial, whose reason names the action in
    the second case. *)
Theorem evaluate_rejects_malformed (host : Host) (request : JsVal) (st : Engine) :
  (truthy request = false \/ truthy (prop request "action") = false ->
   snd (evaluate host request st)
   = Ok {| allowed := false; reason := JStr "Invalid request: missing action";
           modifiedAction := None |})
  /\ (forall a,
         prop request "action" = JStr a -> a <> "" -> a <> "*" ->
         mem a taxonomy = false -> mem a object_prototype = false ->
         snd (evaluate host request st)
         = Ok {| allowed := false; reason := JStr ("Unknown action: " ++ a);
                 modifiedAction := None |}).
Proof.
  split.
  - intro H. unfold evaluate.
    assert (E : negb (truthy request) || negb (truthy (prop request "action")) = true).
    { destruct H as [-> | ->]; trivial. apply orb_true_r. }
    cbv zeta. now rewrite E.
  - intros a Ha Ne Nw Nt Np. unfold evaluate. cbv zeta.
    assert (E2 : negb (truthy request) || negb (truthy (prop request "action")) = false).
    { rewrite (action_truthy _ _ Ha Ne), Ha.
      assert (T : truthy (JStr a) = true) by now apply truthy_str.
      now rewrite T. }
    assert (E3 : negb (truthy (prop ACTIONS a)) && negb (is_str (JStr a) "*") = true).
    { unfold ACTIONS, prop. rewrite (own_absent _ _ _ Nt), Np.
      simpl. apply String.eqb_neq in Nw. now rewrite Nw. }
    rewrite E2, Ha. cbn [to_text to_string]. rewrite E3. reflexivity.
Qed.

Lemma evaluate_rejects_malformed_witness :
  snd (evaluate bare (JObj [("action", JStr "totally.unknown"); ("target", JStr "*")]) fresh)
  = Ok {| allowed := false; reason := JStr "Unknown action: totally.unknown";
          modifiedAction := None |}.
Proof.
  apply (proj2 (evaluate_rejects_malformed
                  bare (JObj [("action", JStr "totally.unknown"); ("target", JStr "*")]) fresh)
               "totally.unknown").
  - reflexivity.
  - discriminate.
  - discriminate.
  - reflexivity.
  - reflexivity.
Defined.

(** ** Priorities that are not numbers of the range *)

(** [NaN] is a number and neither below 1 nor above 1000: the range test
    of [_validateRule] lets it through. *)
Lemma nan_priority_accepted :
  snd (register bare
         (JObj [ ("id", JStr "n"); ("name", JStr "N"); ("priority", JNum NaN);
                 ("level", JStr "widget");
                 ("condition", JObj [("action", JStr "ui.notify")]);
                 ("effect", JObj [("type", JStr "allow")]);
                 ("enabled", JBool true) ])
         fresh)
  = true.
Proof. reflexivity. Qed.


(** ** The plain patterns and the context map *)

(** The star matches every target, a pattern matches the target equal to
    it, and a pattern that is neither delimited by slashes nor contains a
    star matches no other target. *)
Theorem plain_target_patterns (host : Host) :
  (forall target, _matchesTarget host (JStr "*") target = Ok true)
  /\ (forall pattern, _matchesTarget host (JStr pattern) (JStr pattern) = Ok true)
  /\ (forall pattern target,
         startsWith pattern "/" && endsWith pattern "/" = false ->
         includes pattern "*"%char = false ->
         _matchesTarget host (JStr pattern) (JStr target) = Ok (String.eqb pattern target)).
Proof.
  repeat split.
  - intro pattern. unfold _matchesTarget, seq_. simpl. rewrite String.eqb_refl.
    now destruct (String.eqb pattern "*").
  - intros pattern target Hd Hs. unfold _matchesTarget, seq_. simpl. rewrite Hd, Hs.
    destruct (String.eqb pattern "*") eqn:E.
    + apply String.eqb_eq in E. subst. discriminate Hs.
    + now destruct (String.eqb pattern target).
Qed.

(** The loop over the context map, on a context that is not [null] or
    [undefined]: every key is read and compared. *)
Lemma context_checks_all (host : Host) (expected context : JsVal) (ks : list string) :
  nullish context = false ->
  context_checks host expected context ks
  = Ok (forallb (fun key => seq_ host (lookup host context key) (prop expected key)) ks).
Proof.
  intro N. induction ks as [|key ks IH]; simpl; trivial.
  unfold read_any. rewrite N. simpl.
  destruct (seq_ host (lookup host context key) (prop expected key)); simpl; trivial.
Qed.

(** On [null] and [undefined] the first read throws. *)
Lemma context_checks_nullish (host : Host) (expected context : JsVal) key ks :
  nullish context = true ->
  context_checks host expected context (key :: ks) = Throw TypeError.
Proof. intro N. simpl. unfold read_any. now rewrite N. Qed.

(** A condition with a context map matches only when the request's
    context carries every key of the map with a strictly equal value:
    [_matchesCondition] answers with the three pattern tests and, when
    they pass, with the comparison of every key; so when it answers
    [true], the context is an object or another value with members and
    each of its values under a key of the map is the expected one. *)
Theorem context_map_requires_equality (host : Host) (condition action target context : JsVal) :
  truthy (prop condition "context") = true ->
  (nullish context = false ->
   _matchesCondition host condition action target context
   = m <- matches_pattern host condition action target context ;;
     Ok (m && forallb (fun key => seq_ host (lookup host context key)
                                      (prop (prop condition "context") key))
                      (keys (prop condition "context"))))
  /\ (_matchesCondition host condition action target context = Ok true ->
      forall key, In key (keys (prop condition "context")) ->
                  nullish context = false
                  /\ seq_ host (lookup host context key) (prop (prop condition "context") key)
                     = true).
Proof.
  intro T. split.
  - intro N. unfold _matchesCondition. rewrite T.
    destruct (matches_pattern host condition action target context) as [[|]|]; simpl; trivial.
    now apply context_checks_all.
  - unfold _matchesCondition. rewrite T.
    destruct (matches_pattern host condition action target context) as [[|]|]; simpl;
      try discriminate.
    intros H key Hin.
    destruct (nullish context) eqn:N.
    + destruct (keys (prop condition "context")) as [|k ks]; [destruct Hin|].
      rewrite (context_checks_nullish host _ _ k ks N) in H. discriminate.
    + split; trivial. rewrite (context_checks_all host _ _ _ N) in H.
      apply Ok_inj in H. rewrite forallb_forall in H. now apply H.
Qed.

Lemma context_map_requires_equality_witness :
  _matchesCondition bare
    (JObj [("action", JStr "*"); ("target", JStr "*"); ("context", JObj [("role", JStr "admin")])])
    (JStr "ui.notify") (JStr "*") (JObj [("role", JStr "guest")])
  = Ok false.
Proof.
  exact (proj1 (context_map_requires_equality bare
                  (JObj [("action", JStr "*"); ("target", JStr "*");
                         ("context", JObj [("role", JStr "admin")])])
                  (JStr "ui.notify") (JStr "*") (JObj [("role", JStr "guest")]) eq_refl)
               eq_refl).
Defined.

(* ================================================================== *)
(** * Invariants of the store *)

(** [isAllowed] leaves the engine as [evaluate] on its request does. *)
Lemma isAllowed_state (host : Host) (action target context : JsVal) (st : Engine) :
  fst (isAllowed host action target context st)
  = fst (evaluate host (JObj [ ("action", action);
                               ("target", default_to target (JStr "*"));
                               ("context", default_to context (JObj [])) ]) st).
Proof. unfold isAllowed. now destruct (evaluate host _ st). Qed.

(** Induction over the reachable engines. *)
Section Reachability.
Variable host : Host.
Variable admitted : JsVal -> Prop.

(** A property of stores that the empty store has and that registering an
    admitted or built-in rule, removing a rule and filtering keep. *)
Variable Inv : list JsVal -> Prop.
Hypothesis Inv_nil : Inv [].
Hypothesis Inv_register :
  forall rule st, (accepts rule = true -> admitted rule \/ In rule
                     [system_boot_allow; system_log_allow; system_debug_allow;
                      system_dangerous_deny]) ->
                  Inv (_rules st) -> Inv (_rules (fst (register host rule st))).
Hypothesis Inv_remove : forall l1 r l2, Inv (l1 ++ r :: l2) -> Inv (l1 ++ l2).
Hypothesis Inv_filter : forall (f : JsVal -> bool) l, Inv l -> Inv (filter f l).

Lemma init_inv st : Inv (_rules st) -> Inv (_rules (init host st)).
Proof.
  intro H. unfold init. destruct (_initialized st); trivial.
  change (Inv (_rules (_loadSystemRules host (with_rules st [])))).
  unfold _loadSystemRules. cbv zeta.
  do 4 (apply Inv_register; [intros _; right; simpl; tauto|]).
  exact Inv_nil.
Qed.

Lemma evaluate_state request st :
  fst (evaluate host request st) = st \/ fst (evaluate host request st) = init host st.
Proof.
  unfold evaluate. cbv zeta.
  destruct (negb (_initialized st));
    destruct (negb (truthy request) || negb (truthy (prop request "action"))); auto;
    (destruct (to_text host (prop request "action")) as [key|]; auto);
    destruct (negb (truthy (prop ACTIONS key))
              && negb (is_str (prop request "action") "*")); auto.
Qed.

Lemma forEach_inv entries st :
  Forall (fun e => accepts e = true -> admitted e) entries ->
  Inv (_rules st) -> Inv (_rules (fst (forEach_register host entries st))).
Proof.
  intro He. revert st. induction He as [|e entries Hk _ IH]; intros st H; trivial.
  simpl. destruct (read e "level") as [level|]; trivial.
  destruct (is_str level "project"); [|now apply IH].
  apply IH. apply Inv_register; auto.
Qed.

Theorem reachable_inv st : Reachable host admitted st -> Inv (_rules st).
Proof.
  induction 1 as [|st _ IH|st rule _ IH Ha|st ruleId _ IH|st _ IH|st project _ IH He
                  |st request _ IH|st action target context _ IH].
  - exact Inv_nil.
  - now apply init_inv.
  - apply Inv_register; auto.
  - destruct (unregister_cases host ruleId st) as [U|(l1 & r & l2 & E & U)]; rewrite U; trivial.
    simpl. apply (Inv_remove l1 r l2). now rewrite <- E.
  - unfold clear. simpl. now apply Inv_filter.
  - unfold loadProjectRules.
    destruct (negb (truthy project) || negb (truthy (prop project "rules"))); trivial.
    destruct (prop project "rules") as [| | | | | entries | | |] eqn:E;
      try (simpl; now apply Inv_filter).
    apply forEach_inv; [now apply He | simpl; now apply Inv_filter].
  - destruct (evaluate_state request st) as [-> | ->]; trivial. now apply init_inv.
  - rewrite isAllowed_state.
    destruct (evaluate_state
                (JObj [ ("action", action); ("target", default_to target (JStr "*"));
                        ("context", default_to context (JObj [])) ]) st) as [-> | ->];
      trivial. now apply init_inv.
Qed.

End Reachability.

Lemma builtin_ranked rule :
  In rule [system_boot_allow; system_log_allow; system_debug_allow; system_dangerous_deny] ->
  ranked rule.
Proof. intro H. simpl in H. intuition (subst; eexists; reflexivity). Qed.

Lemma NoDup_ids_remove l1 r l2 : NoDup (ids (l1 ++ r :: l2)) -> NoDup (ids (l1 ++ l2)).
Proof.
  unfold ids. rewrite !map_app. simpl. apply NoDup_remove_1.
Qed.

Lemma NoDup_ids_filter (f : JsVal -> bool) l : NoDup (ids l) -> NoDup (ids (filter f l)).
Proof.
  unfold ids. induction l as [|x l IH]; simpl; intro H; trivial.
  inversion H as [|? ? Hn Hl]; subst. destruct (f x); [|now apply IH].
  simpl. constructor; [|now apply IH].
  intro Hin. apply Hn. apply in_map_iff in Hin. destruct Hin as (y & Ey & Hy).
  apply in_map_iff. exists y. split; trivial. now apply filter_In in Hy.
Qed.

Lemma register_valid host rule st :
  Forall (fun r => _validateRule r = Ok true) (_rules st) ->
  Forall (fun r => _validateRule r = Ok true) (_rules (fst (register host rule st))).
Proof.
  intro H. rewrite register_eq. destruct (accepts rule) eqn:A; trivial. simpl.
  eapply Permutation_Forall; [symmetry; apply sort_rules_perm|].
  apply accepts_valid in A.
  destruct (upsert_cases host rule (_rules st)) as [[_ U]|(l1 & y & l2 & E & _ & _ & U)];
    rewrite U.
  - apply Forall_app. split; trivial. now constructor.
  - rewrite E in H. apply Forall_app in H. destruct H as [H1 H2]. inversion H2; subst.
    apply Forall_app. split; trivial. now constructor.
Qed.

(** The invariants of the data model, for every engine the methods can
    produce: each rule of the store has passed [_validateRule], no two
    rules of the store have the same id, and, when every accepted
    candidate had a finite priority, the store is sorted by descending
    priority. *)
Theorem store_invariants (host : Host) (st : Engine) :
  (Reachable host (fun _ => True) st ->
   Forall (fun r => _validateRule r = Ok true) (_rules st) /\ NoDup (ids (_rules st)))
  /\ (Reachable host ranked st -> Forall ranked (_rules st) /\ descending (_rules st)).
Proof.
  split; intro R.
  - split.
    + apply (reachable_inv host (fun _ => True)
                           (Forall (fun r => _validateRule r = Ok true))); [| | | |exact R].
      * constructor.
      * intros rule s _. apply register_valid.
      * intros l1 r l2 H. apply Forall_app in H. destruct H as [H1 H2].
        inversion H2; subst. apply Forall_app. now split.
      * intros f l. apply Forall_filter.
    + apply (reachable_inv host (fun _ => True) (fun l => NoDup (ids l))); [| | | |exact R].
      * constructor.
      * intros rule s _ H. now apply register_nodup.
      * apply NoDup_ids_remove.
      * apply NoDup_ids_filter.
  - apply (reachable_inv host ranked (fun l => Forall ranked l /\ descending l));
      [| | | |exact R].
    + split; constructor.
    + intros rule s Ha [H1 H2]. apply register_keeps_order; trivial.
      intro A. destruct (Ha A) as [K|K]; trivial. now apply builtin_ranked.
    + intros l1 r l2 [H1 H2]. split; [|now apply descending_remove in H2].
      apply Forall_app in H1. destruct H1 as [A1 A2]. inversion A2; subst.
      apply Forall_app. now split.
    + intros f l [H1 H2]. split; [now apply Forall_filter | now apply descending_filter].
Qed.

Lemma store_invariants_witness :
  Forall ranked (_rules (fst (register bare save_deny (fst (register bare save_allow booted)))))
  /\ descending (_rules (fst (register bare save_deny (fst (register bare save_allow booted))))).
Proof.
  apply (proj2 (store_invariants
                  bare (fst (register bare save_deny (fst (register bare save_allow booted)))))).
  apply reach_register; [|intros _; eexists; reflexivity].
  apply reach_register; [|intros _; eexists; reflexivity].
  apply reach_init. apply reach_fresh.
Defined.

(* ================================================================== *)
(** * Further properties of the engine *)

(** ** The built-in rules *)

(** [init] on a fresh engine leaves the four system rules. *)
Lemma builtin_store host st :
  _initialized st = false ->
  init host st = {| _rules := builtin; _initialized := true |}.
Proof. intro H. unfold init. rewrite H. reflexivity. Qed.





(** ** Lookup after insertion and removal *)

Lemma find_unique (p : JsVal -> bool) l x :
  In x l -> p x = true -> (forall y, In y l -> p y = true -> y = x) -> find p l = Some x.
Proof.
  induction l as [|z l IH]; intros Hin Px U; [destruct Hin|].
  simpl. destruct (p z) eqn:Pz.
  - f_equal. apply U; trivial. now left.
  - destruct Hin as [->|Hin]; [congruence|].
    apply IH; trivial. intros y Hy. apply U. now right.
Qed.

Lemma NoDup_ids_inj l y z :
  NoDup (ids l) -> In y l -> In z l -> prop y "id" = prop z "id" -> y = z.
Proof.
  unfold ids. induction l as [|x l IH]; intros N Hy Hz E; [destruct Hy|].
  simpl in N. inversion N as [|? ? Hn Hl]; subst.
  destruct Hy as [->|Hy], Hz as [->|Hz]; trivial.
  - exfalso. apply Hn. rewrite E. exact (in_map (fun r => prop r "id") l z Hz).
  - exfalso. apply Hn. rewrite <- E. exact (in_map (fun r => prop r "id") l y Hy).
  - now apply IH.
Qed.

Lemma get_str host s st :
  get host (JStr s) st = find (fun r => is_str (prop r "id") s) (_rules st).
Proof.
  unfold get. induction (_rules st) as [|r l IH]; [reflexivity|].
  cbn [find]. now rewrite seq_str, IH.
Qed.

(** The rules of the store after [register] accepted a candidate: the
    candidate, and the rules that were there under another id. *)
Lemma register_members host rule st s0 y :
  accepts rule = true -> prop rule "id" = JStr s0 -> NoDup (ids (_rules st)) ->
  In y (_rules (fst (register host rule st)))
  <-> y = rule \/ (In y (_rules st) /\ prop y "id" <> JStr s0).
Proof.
  intros A Es N. rewrite register_eq, A. simpl. rewrite sort_rules_In.
  assert (Same : forall r, same_id host rule r = true <-> prop r "id" = JStr s0).
  { intro r. unfold same_id. rewrite Es, seq_str. apply is_str_eq. }
  destruct (upsert_cases host rule (_rules st)) as [[All U]|(l1 & x & l2 & E & Hx & All & U)];
    rewrite U.
  - rewrite Forall_forall in All. rewrite in_app_iff. simpl. split.
    + intros [H|[H|[]]]; [right|now left]. split; trivial.
      intro K. apply Same in K. rewrite (All y H) in K. discriminate.
    + intros [->|[H _]]; auto.
  - rewrite E in *. rewrite Forall_forall in All. rewrite !in_app_iff. simpl.
    apply Same in Hx. split.
    + intros [H|[H|H]]; [right|now left|right].
      * split; auto. intro K. apply Same in K. rewrite (All y H) in K. discriminate.
      * split; auto. intro K.
        assert (y = x); [|subst y].
        { apply (NoDup_ids_inj (l1 ++ x :: l2)); trivial.
          - apply in_or_app. right. now right.
          - apply in_or_app. right. now left.
          - congruence. }
        clear - N H. unfold ids in N. rewrite map_app in N. simpl in N.
        apply NoDup_remove_2 in N. apply N. apply in_or_app. right.
        exact (in_map (fun r => prop r "id") l2 x H).
    + intros [->|[[H|[H|H]] K]]; auto. subst. contradiction.
Qed.

(** Insert and look up: after an accepted rule has been registered, [get]
    with its id returns that rule, and [get] with any other id returns
    what it returned before. *)
Theorem register_then_get (host : Host) (rule : JsVal) (st : Engine) :
  accepts rule = true -> NoDup (ids (_rules st)) ->
  get host (prop rule "id") (fst (register host rule st)) = Some rule
  /\ (forall s, prop rule "id" <> JStr s ->
                get host (JStr s) (fst (register host rule st)) = get host (JStr s) st).
Proof.
  intros A N. destruct (valid_id rule (accepts_valid rule A)) as (s0 & Es & _).
  pose proof (register_members host rule st s0) as M.
  split.
  - rewrite Es, get_str. apply find_unique.
    + apply M; auto.
    + rewrite Es. simpl. apply String.eqb_refl.
    + intros y Hy Py. apply M in Hy; trivial. destruct Hy as [->|[_ K]]; trivial.
      apply is_str_eq in Py. contradiction.
  - intros s Ne. rewrite !get_str.
    destruct (find (fun r => is_str (prop r "id") s) (_rules st)) as [y|] eqn:F.
    + pose proof (find_some _ _ F) as [Hy Py]. apply is_str_eq in Py.
      apply find_unique.
      * apply M; trivial. right. split; trivial. rewrite Py. intro K. apply Ne.
        rewrite Es. congruence.
      * now apply is_str_eq.
      * intros z Hz Pz. apply is_str_eq in Pz. apply M in Hz; trivial.
        destruct Hz as [->|[Hz _]]; [congruence|].
        apply (NoDup_ids_inj (_rules st)); trivial. congruence.
    + apply find_all_false. intros z Hz. apply M in Hz; trivial.
      destruct Hz as [->|[Hz _]].
      * destruct (is_str (prop rule "id") s) eqn:K; trivial.
        apply is_str_eq in K. contradiction.
      * exact (find_none _ _ F z Hz).
Qed.

Lemma register_then_get_witness :
  get bare (prop save_allow "id") (fst (register bare save_allow booted)) = Some save_allow
  /\ (forall s, prop save_allow "id" <> JStr s ->
                get bare (JStr s) (fst (register bare save_allow booted)) = get bare (JStr s) booted).
Proof.
  apply (register_then_get bare save_allow booted).
  - reflexivity.
  - repeat constructor; simpl; intuition discriminate.
Defined.

Lemma find_first (p : JsVal -> bool) l1 x l2 :
  Forall (fun y => p y = false) l1 -> p x = true -> find p (l1 ++ x :: l2) = Some x.
Proof.
  intros All Px. induction All as [|y l1 Py _ IH]; simpl; [now rewrite Px|].
  now rewrite Py.
Qed.

(** Remove and look up: [unregister] answers [true] exactly when the id
    names a rule that is not of level [system]; then [get] no longer finds
    the id and finds every other id as before; when it answers [false] the
    store is unchanged. *)
Theorem unregister_then_get (host : Host) (s : string) (st : Engine) :
  NoDup (ids (_rules st)) ->
  (snd (unregister host (JStr s) st) = true
   <-> exists r, get host (JStr s) st = Some r /\ is_str (prop r "level") "system" = false)
  /\ (snd (unregister host (JStr s) st) = true ->
      get host (JStr s) (fst (unregister host (JStr s) st)) = None
      /\ forall s', s' <> s ->
           get host (JStr s') (fst (unregister host (JStr s) st)) = get host (JStr s') st)
  /\ (snd (unregister host (JStr s) st) = false -> fst (unregister host (JStr s) st) = st).
Proof.
  intro N. unfold unregister.
  pose proof (findIndex_spec (fun r => seq_ host (prop r "id") (JStr s)) (_rules st)) as H.
  destruct (findIndex _ (_rules st)) as [j|].
  - destruct H as (l1 & x & l2 & E & -> & Px & All).
    assert (G : get host (JStr s) st = Some x).
    { unfold get. rewrite E. now apply find_first. }
    rewrite E, nth_at. rewrite <- E.
    destruct (is_str (prop x "level") "system") eqn:L; simpl.
    + split; [|split; [discriminate | trivial]].
      split; [discriminate|]. intros (r & Gr & Lr). congruence.
    + split; [|split; [|discriminate]].
      * split; trivial. intros _. now exists x.
      * intros _. rewrite E, splice1_at. rewrite seq_str in Px. apply is_str_eq in Px.
        split.
        -- rewrite get_str. simpl. apply find_all_false. intros y Hy.
           destruct (is_str (prop y "id") s) eqn:K; trivial. exfalso.
           apply is_str_eq in K.
           assert (In y (_rules st)).
           { rewrite E. apply in_app_or in Hy. apply in_or_app.
             destruct Hy; [now left | right; now right]. }
           assert (y = x); [|subst y].
           { apply (NoDup_ids_inj (_rules st)); trivial; [|congruence].
             rewrite E. apply in_or_app. right. now left. }
           rewrite E in N. unfold ids in N. rewrite map_app in N. simpl in N.
           apply NoDup_remove_2 in N. apply N. rewrite <- map_app.
           exact (in_map (fun r => prop r "id") (l1 ++ l2) x Hy).
        -- intros s' Ne. rewrite !get_str. simpl. rewrite E. symmetry. apply find_skip.
           rewrite Px. simpl. apply String.eqb_neq. congruence.
  - simpl. split; [|split; [discriminate | trivial]].
    split; [discriminate|]. intros (r & Gr & _). unfold get in Gr.
    apply find_some in Gr. destruct Gr as [Hin Pr].
    rewrite Forall_forall in H. rewrite (H r Hin) in Pr. discriminate.
Qed.

Lemma unregister_then_get_witness :
  (snd (unregister bare (JStr "save-allow") (fst (register bare save_allow booted))) = true
   <-> exists r, get bare (JStr "save-allow") (fst (register bare save_allow booted)) = Some r
                 /\ is_str (prop r "level") "system" = false)
  /\ (snd (unregister bare (JStr "save-allow") (fst (register bare save_allow booted))) = true ->
      get bare (JStr "save-allow")
          (fst (unregister bare (JStr "save-allow") (fst (register bare save_allow booted)))) = None
      /\ forall s', s' <> "save-allow" ->
           get bare (JStr s')
               (fst (unregister bare (JStr "save-allow") (fst (register bare save_allow booted))))
           = get bare (JStr s') (fst (register bare save_allow booted)))
  /\ (snd (unregister bare (JStr "save-allow") (fst (register bare save_allow booted))) = false ->
      fst (unregister bare (JStr "save-allow") (fst (register bare save_allow booted)))
      = fst (register bare save_allow booted)).
Proof.
  apply (unregister_then_get bare "save-allow" (fst (register bare save_allow booted))).
  repeat constructor; simpl; intuition discriminate.
Defined.

(** ** Listing the store *)

Lemma filter_if (c : bool) (p : JsVal -> bool) l :
  (if c then filter p l else l) = filter (fun r => negb c || p r) l.
Proof.
  destruct c; simpl; trivial. induction l as [|x l IH]; simpl; trivial. now f_equal.
Qed.

Lemma filter_filter (p q : JsVal -> bool) l :
  filter q (filter p l) = filter (fun r => p r && q r) l.
Proof.
  induction l as [|x l IH]; simpl; trivial.
  destruct (p x); simpl; [destruct (q x)|]; now rewrite IH.
Qed.

(** [getAll] returns, in the order of the store, the rules that pass
    every criterion of its filter; without an argument it returns the
    whole store; with [null] it throws a [TypeError].  What it returns is
    part of the store and keeps the store's descending order. *)
Theorem getAll_selects (host : Host) (filter_ : JsVal) (st : Engine) :
  (nullish (default_to filter_ (JObj [])) = false ->
   getAll host filter_ st
   = Ok (filter (selected host (default_to filter_ (JObj []))) (_rules st)))
  /\ (nullish (default_to filter_ (JObj [])) = true -> getAll host filter_ st = Throw TypeError)
  /\ getAll host JUndefined st = Ok (_rules st)
  /\ (forall l, getAll host filter_ st = Ok l ->
                (forall r, In r l -> In r (_rules st))
                /\ (descending (_rules st) -> descending l)).
Proof.
  assert (F : nullish (default_to filter_ (JObj [])) = false ->
              getAll host filter_ st
              = Ok (filter (selected host (default_to filter_ (JObj []))) (_rules st))).
  { intro N. unfold getAll, read. cbv zeta. rewrite N. cbn [bind].
    rewrite !filter_if, !filter_filter. f_equal.
    apply filter_ext. intro r. unfold selected.
    now rewrite <- ?andb_assoc, <- ?orb_assoc. }
  split; [exact F|]. split; [|split].
  - intro N. unfold getAll, read. cbv zeta. now rewrite N.
  - unfold getAll. simpl. reflexivity.
  - intros l H. destruct (nullish (default_to filter_ (JObj []))) eqn:N.
    + unfold getAll, read in H. cbv zeta in H. rewrite N in H. discriminate.
    + rewrite (F eq_refl) in H. injection H as <-. split.
      * intros r Hr. now apply filter_In in Hr.
      * apply descending_filter.
Qed.

(** ** The rule that decides *)




(** A rule of the store that matches a request is among the rules
    [getAll] lists for the request's action with [enabled: true]. *)
Theorem deciding_rule_is_listed (host : Host) (request : JsVal) (a : string) (st : Engine)
        (r : JsVal) :
  prop request "action" = JStr a -> a <> "" ->
  In r (_rules st) -> _validateRule r = Ok true -> wins host request r = true ->
  exists l, getAll host (JObj [("enabled", JBool true); ("action", JStr a)]) st = Ok l
            /\ In r l.
Proof.
  intros Ha Ne Hin V W.
  destruct (getAll_selects host (JObj [("enabled", JBool true); ("action", JStr a)]) st)
    as [F _].
  rewrite (F eq_refl). eexists. split; [reflexivity|]. apply filter_In. split; trivial.
  unfold selected. cbn [default_to prop own String.eqb Ascii.eqb Bool.eqb mem existsb
                        object_prototype truthy is_defined negb orb andb].
  apply wins_verdict in W. unfold verdict, enabled in W.
  assert (B : exists b, prop r "enabled" = JBool b).
  { open_valid V. apply negb_false_iff in E7. now apply typeof_boolean. }
  destruct B as [b Eb]. rewrite Eb in *. simpl in W. destruct b; [|discriminate]. simpl in W.
  unfold _matchesCondition, matches_pattern, action_of in W. rewrite Ha in W.
  apply String.eqb_neq in Ne. rewrite Ne. simpl.
  destruct (is_str (prop (prop r "condition") "action") "*"); [now rewrite orb_true_r|].
  destruct (seq_ host (prop (prop r "condition") "action") (JStr a)); trivial.
  simpl in W. discriminate.
Qed.

Lemma deciding_rule_is_listed_witness :
  exists l, getAll bare (JObj [("enabled", JBool true); ("action", JStr "project.save")])
                   (fst (register bare save_allow booted)) = Ok l
            /\ In save_allow l.
Proof.
  assert (Hin : In save_allow (_rules (fst (register bare save_allow booted)))).
  { vm_compute. tauto. }
  exact (deciding_rule_is_listed bare save_p1 "project.save"
           (fst (register bare save_allow booted)) save_allow
           eq_refl ltac:(discriminate) Hin eq_refl eq_refl).
Defined.

(** ** Initialization *)

(** [init] on an engine that has not been initialized replaces the store
    by the four system rules, whatever it held; on an initialized engine it
    does nothing, so [init] twice is [init] once.  [evaluate] leaves the
    engine as [init] does, and decides as it would after [init]. *)
Theorem init_resets_store (host : Host) (st : Engine) :
  (_initialized st = false ->
   init host st = {| _rules := builtin; _initialized := true |})
  /\ (_initialized st = true -> init host st = st)
  /\ init host (init host st) = init host st
  /\ (forall request, fst (evaluate host request st) = init host st)
  /\ (forall request, evaluate host request (init host st)
                      = (init host st, snd (evaluate host request st))).
Proof.
  assert (A : _initialized st = false ->
              init host st = {| _rules := builtin; _initialized := true |}).
  { apply builtin_store. }
  assert (B : _initialized st = true -> init host st = st).
  { intro H. unfold init. now rewrite H. }
  assert (C : _initialized (init host st) = true).
  { destruct (_initialized st) eqn:I; [now rewrite B | now rewrite A]. }
  assert (D : init host (init host st) = init host st).
  { unfold init at 1. now rewrite C. }
  assert (E : forall request st', _initialized st' = true ->
                evaluate host request st' = (st', snd (evaluate host request st'))).
  { intros request st' H. rewrite (surjective_pairing (evaluate host request st')) at 1.
    f_equal. assert (E0 : negb (_initialized st') = false) by now rewrite H.
    unfold evaluate. rewrite E0. cbv zeta iota.
    destruct (negb (truthy request) || negb (truthy (prop request "action"))); trivial.
    destruct (to_text host (prop request "action")) as [key|]; trivial.
    now destruct (negb (truthy (prop ACTIONS key))
                  && negb (is_str (prop request "action") "*")). }
  assert (F : forall request, snd (evaluate host request (init host st))
                              = snd (evaluate host request st)).
  { intro request. unfold evaluate at 2. cbv zeta.
    destruct (_initialized st) eqn:I.
    - rewrite B by trivial. unfold evaluate. rewrite I. reflexivity.
    - cbn [negb]. unfold evaluate. rewrite C. reflexivity. }
  repeat split; trivial.
  - intro request. destruct (_initialized st) eqn:I.
    + rewrite B by trivial. rewrite (E request st I). reflexivity.
    + unfold evaluate. rewrite I. cbv zeta. cbn [negb].
      destruct (negb (truthy request) || negb (truthy (prop request "action"))); trivial.
      destruct (to_text host (prop request "action")) as [key|]; trivial.
      now destruct (negb (truthy (prop ACTIONS key))
                    && negb (is_str (prop request "action") "*")).
  - intro request. rewrite (E request (init host st) C). now rewrite F.
Qed.

(** ** Loading the same project again *)

Lemma filter_idem (f : JsVal -> bool) l : filter f (filter f l) = filter f l.
Proof.
  induction l as [|x l IH]; simpl; trivial.
  destruct (f x) eqn:Fx; simpl; [rewrite Fx|]; now rewrite IH.
Qed.

Lemma upsert_frame host rule rules :
  other_level rule = false ->
  (forall r, In r rules -> other_level r = true -> same_id host rule r = false) ->
  filter other_level (upsert host rule rules) = filter other_level rules.
Proof.
  intros O C.
  destruct (upsert_cases host rule rules) as [[_ U]|(l1 & y & l2 & E & Hy & _ & U)];
    rewrite U.
  - rewrite filter_app. simpl. rewrite O. apply app_nil_r.
  - rewrite E, !filter_app. simpl. rewrite O.
    destruct (other_level y) eqn:Oy; trivial.
    rewrite C in Hy; [discriminate| |assumption].
    rewrite E. apply in_or_app. right. now left.
Qed.

Lemma register_frame host rule st :
  project_level rule = true ->
  (accepts rule = true -> ranked rule) ->
  (accepts rule = true ->
   forall r, In r (_rules st) -> other_level r = true -> same_id host rule r = false) ->
  Forall ranked (_rules st) -> descending (_rules st) ->
  filter other_level (_rules (fst (register host rule st))) = filter other_level (_rules st).
Proof.
  intros P K C Hr Hd. rewrite register_eq. destruct (accepts rule); trivial.
  simpl. rewrite sort_rules_ranked by now apply upsert_ranked; auto.
  rewrite filter_sort by now apply upsert_ranked; auto.
  rewrite upsert_frame; auto.
  - apply sort_id; [now apply Forall_filter | now apply descending_filter].
  - unfold other_level. now rewrite P.
Qed.

Lemma forEach_initialized host entries st :
  _initialized (fst (forEach_register host entries st)) = _initialized st.
Proof.
  revert st. induction entries as [|e entries IH]; intro st; trivial.
  simpl. destruct (read e "level") as [level|]; trivial.
  rewrite IH. destruct (is_str level "project"); trivial. apply register_initialized.
Qed.

Lemma forEach_frame_eq host entries st :
  no_nullish entries -> no_clash host entries (_rules st) ->
  Forall (fun e => accepts e = true -> ranked e) entries ->
  Forall ranked (_rules st) -> descending (_rules st) ->
  filter other_level (_rules (fst (forEach_register host entries st)))
  = filter other_level (_rules st).
Proof.
  intro N. revert st. induction N as [|e entries Ne _ IH]; intros st C K Hr Hd; trivial.
  inversion K as [|? ? Ke Kl]; subst.
  rewrite forEach_step by assumption.
  destruct (project_level e) eqn:P.
  - assert (S : filter other_level (_rules (fst (register host e st)))
                = filter other_level (_rules st)).
    { apply register_frame; trivial. intros A r Hin O. apply (C e r); trivial. now left. }
    destruct (register_keeps_order host e st Ke Hr Hd) as [Hr' Hd'].
    rewrite IH; trivial.
    intros e' r He' P' A' Hin O. apply (C e' r); trivial; [now right|].
    assert (I : In r (filter other_level (_rules st))).
    { rewrite <- S. apply filter_In. now split. }
    now apply filter_In in I.
  - apply IH; trivial. intros e' r He'. apply C. now right.
Qed.

(** Loading the same project twice leaves the engine as loading it once
    does and returns the same, when the project's candidates do not clash
    with rules of the store under the same id and all priorities are
    finite. *)
Theorem loadProjectRules_idempotent (host : Host) (project : JsVal) (entries : list JsVal)
        (st : Engine) :
  truthy project = true -> prop project "rules" = JArr entries ->
  no_nullish entries -> no_clash host entries (_rules st) ->
  Forall (fun e => accepts e = true -> ranked e) entries ->
  Forall ranked (_rules st) -> descending (_rules st) ->
  loadProjectRules host project (fst (loadProjectRules host project st))
  = loadProjectRules host project st.
Proof.
  intros T E N C K Hr Hd.
  rewrite (loadProjectRules_array host project entries st T E).
  set (st0 := with_rules st (filter other_level (_rules st))).
  rewrite (loadProjectRules_array host project entries _ T E).
  f_equal. 
  assert (F : filter other_level (_rules (fst (forEach_register host entries st0)))
              = filter other_level (_rules st0)).
  { apply forEach_frame_eq; trivial.
    - intros e r He P A Hin O. apply (C e r); trivial. unfold st0 in Hin. simpl in Hin.
      now apply filter_In in Hin.
    - unfold st0. simpl. now apply Forall_filter.
    - unfold st0. simpl. now apply descending_filter. }
  unfold with_rules. rewrite F, forEach_initialized. unfold st0. simpl.
  now rewrite filter_idem.
Qed.

Lemma loadProjectRules_idempotent_witness :
  loadProjectRules bare (JObj [("rules", JArr [save_allow; save_deny])])
    (fst (loadProjectRules bare (JObj [("rules", JArr [save_allow; save_deny])]) booted))
  = loadProjectRules bare (JObj [("rules", JArr [save_allow; save_deny])]) booted.
Proof.
  assert (C : no_clash bare [save_allow; save_deny] (_rules booted)).
  { intros e r He _ _ Hr _. vm_compute in Hr. simpl in He.
    destruct He as [<-|[<-|[]]];
      destruct Hr as [<-|[<-|[<-|[<-|[]]]]]; reflexivity. }
  assert (K : Forall (fun e => accepts e = true -> ranked e) [save_allow; save_deny]).
  { repeat constructor; intros _; eexists; reflexivity. }
  assert (N : no_nullish [save_allow; save_deny]) by (repeat constructor).
  assert (Hr : Forall ranked (_rules booted)).
  { repeat constructor; eexists; reflexivity. }
  assert (Hd : descending (_rules booted)).
  { unfold descending.
    repeat first
      [ apply SSorted_nil | apply SSorted_cons | apply Forall_nil | apply Forall_cons
      | unfold not_below; do 2 eexists;
        split; [reflexivity | split; [reflexivity | unfold Qle; simpl; lia]] ]. }
  exact (loadProjectRules_idempotent bare (JObj [("rules", JArr [save_allow; save_deny])])
           [save_allow; save_deny] booted eq_refl eq_refl N C K Hr Hd).
Defined.

(** ** What a decision looks like *)

Lemma or_else_truthy a s : s <> "" -> truthy (or_else a (JStr s)) = true.
Proof.
  intro Ne. unfold or_else. destruct (truthy a) eqn:T; trivial. now apply truthy_str.
Qed.

Lemma applyEffect_wellformed host effect request d :
  _applyEffect host effect request = Ok d ->
  truthy (reason d) = true
  /\ (allowed d = false -> modifiedAction d = None)
  /\ (forall m, modifiedAction d = Some m -> is_str (prop effect "type") "modify" = true).
Proof.
  unfold _applyEffect.
  destruct (is_str (prop effect "type") "allow"); [|destruct (is_str (prop effect "type") "deny")];
    [| |destruct (is_str (prop effect "type") "modify")].
  - intro H. apply Ok_inj in H. subst d. cbn [reason allowed modifiedAction].
    repeat split; try discriminate. now apply or_else_truthy.
  - intro H. apply Ok_inj in H. subst d. cbn [reason allowed modifiedAction].
    repeat split; try discriminate. now apply or_else_truthy.
  - destruct (truthy (prop effect "transform") && is_function (prop effect "transform")).
    + destruct (call host _ _ _).
      * intro H. apply Ok_inj in H. subst d. cbn [reason allowed modifiedAction].
        repeat split; try discriminate; trivial. now apply or_else_truthy.
      * destruct (if Debugger_present host then error_text host (caught host e) else Ok JNull);
          simpl; [|discriminate].
        intro H. apply Ok_inj in H. subst d. cbn [reason allowed modifiedAction].
        repeat split; try discriminate; trivial.
    + intro H. apply Ok_inj in H. subst d. cbn [reason allowed modifiedAction].
      repeat split; try discriminate; trivial. now apply or_else_truthy.
  - destruct (to_text host (prop effect "type")) as [type|]; simpl; [|discriminate].
    intro H. apply Ok_inj in H. subst d. cbn [reason allowed modifiedAction].
    repeat split; try discriminate.
Qed.

Lemma filterM_In (p : JsVal -> Completion bool) l l' :
  filterM p l = Ok l' -> forall x, In x l' -> In x l.
Proof.
  revert l'. induction l as [|y l IH]; intros l' H x Hx; simpl in H.
  - injection H as <-. exact Hx.
  - destruct (p y) as [keep|]; simpl in H; [|discriminate].
    destruct (filterM p l) as [rest|]; simpl in H; [|discriminate].
    injection H as <-. destruct keep.
    + destruct Hx as [->|Hx]; [now left | right; now apply (IH rest)].
    + right. now apply (IH rest).
Qed.

Lemma first_match_from host request action target context rules d :
  first_match host request action target context rules = Ok d ->
  d = default_deny
  \/ exists r, In r rules /\ enabled r = true
               /\ _applyEffect host (prop r "effect") request = Ok d.
Proof.
  induction rules as [|r rules IH]; simpl.
  - intro H. injection H as <-. now left.
  - destruct (truthy (prop r "enabled")) eqn:E; simpl.
    + destruct (_matchesCondition host _ _ _ _) as [[|]|]; simpl; try discriminate.
      * intro H. right. exists r. repeat split; trivial. now left.
      * intro H. destruct (IH H) as [->|(r' & Hin & En & Hd)]; [now left|].
        right. exists r'. repeat split; trivial. now right.
    + intro H. destruct (IH H) as [->|(r' & Hin & En & Hd)]; [now left|].
      right. exists r'. repeat split; trivial. now right.
Qed.

(** Every decision [evaluate] returns carries a reason that is not falsy;
    a denial never carries a modified action; and a decision that carries
    one is the effect of an enabled rule of the store whose effect is of
    type [modify]. *)
Theorem decisions_are_wellformed (host : Host) (request : JsVal) (st : Engine) (d : Decision) :
  snd (evaluate host request st) = Ok d ->
  truthy (reason d) = true
  /\ (allowed d = false -> modifiedAction d = None)
  /\ (forall m, modifiedAction d = Some m ->
                exists r, In r (_rules (fst (evaluate host request st)))
                          /\ enabled r = true
                          /\ is_str (prop (prop r "effect") "type") "modify" = true
                          /\ _applyEffect host (prop r "effect") request = Ok d).
Proof.
  unfold evaluate. cbv zeta.
  set (st' := if negb (_initialized st) then init host st else st).
  destruct (negb (truthy request) || negb (truthy (prop request "action"))).
  { simpl. intro H. injection H as <-. simpl. repeat split; trivial. discriminate. }
  destruct (to_text host (prop request "action")) as [key|]; [|discriminate].
  destruct (negb (truthy (prop ACTIONS key)) && negb (is_str (prop request "action") "*")).
  { simpl. intro H. injection H as <-. simpl. repeat split; trivial. discriminate. }
  cbn [fst snd].
  destruct (_getApplicableRules host _ _ _ (_rules st')) as [l|] eqn:A; simpl; [|discriminate].
  intro H. destruct (first_match_from _ _ _ _ _ _ _ H) as [->|(r & Hin & En & Hd)].
  - simpl. repeat split; trivial. discriminate.
  - destruct (applyEffect_wellformed host (prop r "effect") request d Hd) as (R & D & M).
    repeat split; trivial.
    intros m Hm. exists r. repeat split; trivial.
    + exact (filterM_In _ _ _ A r Hin).
    + now apply (M m).
Qed.

Lemma decisions_are_wellformed_witness :
  truthy (JStr "saving allowed") = true.
Proof.
  exact (proj1 (decisions_are_wellformed bare save_p1 (fst (register bare save_allow booted))
                  {| allowed := true; reason := JStr "saving allowed"; modifiedAction := None |}
                  eq_refl)).
Defined.

(* ================================================================== *)
(** * The reports of the engine *)

(** [Logged] and [Rules] are the same engine: on a page with the
    Debugger each method of [Logged] returns and leaves what the method of
    [Rules] does. *)
Section Reports.
Variable host : Host.

Lemma register_erase rule st :
  fst (Logged.register host rule st) = register host rule st.
Proof.
  unfold Logged.register, register.
  destruct (negb (truthy rule) || negb (truthy (prop rule "id"))); trivial.
  destruct (_validateRule rule) as [[|]|]; trivial.
Qed.

Lemma init_erase st : fst (Logged.init host st) = init host st.
Proof.
  unfold Logged.init, init. destruct (_initialized st); trivial.
Qed.

Lemma forEach_erase entries st :
  fst (Logged.forEach_register host entries st) = forEach_register host entries st.
Proof.
  revert st. induction entries as [|e entries IH]; intro st; simpl; trivial.
  destruct (read e "level") as [level|]; trivial.
  destruct (is_str level "project"); [|apply IH].
  pose proof (register_erase e st) as H.
  destruct (Logged.register host e st) as [[st' b] calls]. simpl in H. rewrite <- H. simpl.
  specialize (IH st').
  destruct (Logged.forEach_register host entries st') as [r calls']. simpl in *. exact IH.
Qed.

Hypothesis present : Debugger_present host = true.

Lemma applyEffect_erase effect request :
  fst (Logged._applyEffect host effect request) = _applyEffect host effect request.
Proof.
  unfold Logged._applyEffect, _applyEffect. rewrite present.
  destruct (is_str (prop effect "type") "allow"); trivial.
  destruct (is_str (prop effect "type") "deny"); trivial.
  destruct (is_str (prop effect "type") "modify"); trivial.
  destruct (truthy (prop effect "transform") && is_function (prop effect "transform")); trivial.
  now destruct (call host _ _ _).
Qed.

Lemma first_match_erase request action target context source rules :
  fst (Logged.first_match host request action target context source rules)
  = first_match host request action target context rules.
Proof.
  induction rules as [|rule rest IH]; simpl; trivial.
  destruct (negb (truthy (prop rule "enabled"))); trivial.
  destruct (_matchesCondition host _ action target context) as [[|]|e]; simpl; trivial.
  pose proof (applyEffect_erase (prop rule "effect") request) as H.
  destruct (Logged._applyEffect host (prop rule "effect") request) as [[d|e] calls];
    simpl in *; now rewrite H.
Qed.

Lemma evaluate_erase request st :
  fst (Logged.evaluate host request st) = evaluate host request st.
Proof.
  unfold Logged.evaluate, evaluate.
  assert (E : fst (if negb (_initialized st) then Logged.init host st else (st, []))
              = if negb (_initialized st) then init host st else st).
  { destruct (negb (_initialized st)); trivial. apply init_erase. }
  destruct (if negb (_initialized st) then Logged.init host st else (st, [])) as [st' calls].
  simpl in E. rewrite <- E. cbv zeta.
  destruct (negb (truthy request) || negb (truthy (prop request "action"))); trivial.
  destruct (to_text host (prop request "action")) as [key|]; trivial.
  destruct (negb (truthy (prop ACTIONS key)) && negb (is_str (prop request "action") "*"));
    trivial.
  destruct (_getApplicableRules host _ _ _ (_rules st')) as [l|e]; trivial.
  match goal with
  | |- context [Logged.first_match host ?r ?a ?t ?c ?s ?l] =>
      pose proof (first_match_erase r a t c s l) as H;
      destruct (Logged.first_match host r a t c s l)
  end.
  simpl in *. now rewrite H.
Qed.

End Reports.

(** ** The engine with and without the Debugger *)

Section Presence.
Variable host : Host.




End Presence.



(** ** What [evaluate] reports *)

Section Audit.
Variable host : Host.



End Audit.



(* ================================================================== *)
(** * The debugger's buffer *)

Section Buffer.
Variable env : Debugger.Env.

Lemma capture_disabled event d :
  truthy (Debugger._enabled d) = false -> Debugger.capture env event d = d.
Proof. intro H. unfold Debugger.capture. now rewrite H. Qed.

Lemma capture_enabled event d :
  truthy (Debugger._enabled d) = true ->
  Debugger.capture env event d
  = {| Debugger._enabled := Debugger._enabled d;
       Debugger._buffer :=
         kept (Debugger._buffer d)
         ++ [JObj (Literal.spread event
                     [ ("id", JStr (Debugger.uuid env (Debugger.asked d)));
                       ("timestamp", num (Debugger.now env (S (Debugger.asked d)))) ])];
       Debugger._listeners := Debugger._listeners d;
       Debugger.asked := S (S (Debugger.asked d)) |}.
Proof.
  intro H. unfold Debugger.capture. rewrite H. simpl.
  unfold Debugger.with_buffer. simpl. f_equal.
  unfold kept. rewrite length_app. simpl.
  destruct (Debugger._buffer d) as [|x l]; [reflexivity|]. simpl List.length.
  destruct (Nat.ltb Debugger._maxBufferSize (S (List.length l) + 1)) eqn:A;
    destruct (Nat.ltb (S (List.length l)) Debugger._maxBufferSize) eqn:B; trivial.
  - apply Nat.ltb_lt in A, B. unfold Debugger._maxBufferSize in *. lia.
  - apply Nat.ltb_ge in A, B. unfold Debugger._maxBufferSize in *. lia.
Qed.

(** What every logging method does to the debugger, through [capture]. *)
Lemma capture_cases event d :
  Debugger._enabled (Debugger.capture env event d) = Debugger._enabled d
  /\ Debugger._listeners (Debugger.capture env event d) = Debugger._listeners d
  /\ (truthy (Debugger._enabled d) = false ->
      Debugger._buffer (Debugger.capture env event d) = Debugger._buffer d)
  /\ (truthy (Debugger._enabled d) = true ->
      exists e, Debugger._buffer (Debugger.capture env event d)
                = kept (Debugger._buffer d) ++ [e]).
Proof.
  destruct (truthy (Debugger._enabled d)) eqn:E.
  - rewrite capture_enabled by trivial. simpl. repeat split; trivial; [discriminate|].
    intros _. eexists. reflexivity.
  - rewrite capture_disabled by trivial. repeat split; trivial. discriminate.
Qed.

Lemma kept_bounded buffer e :
  List.length buffer <= Debugger._maxBufferSize ->
  List.length (kept buffer ++ [e]) <= Debugger._maxBufferSize.
Proof.
  intro H. unfold kept. rewrite length_app. simpl.
  destruct (Nat.ltb (List.length buffer) Debugger._maxBufferSize) eqn:B.
  - apply Nat.ltb_lt in B. lia.
  - apply Nat.ltb_ge in B. destruct buffer; simpl in *; [|lia].
    unfold Debugger._maxBufferSize in B. lia.
Qed.

Lemma perform_capture c d d' :
  Debugger.perform env c d = Ok d' ->
  exists event, d' = Debugger.capture env event (Debugger.tick d).
Proof.
  destruct c; simpl; unfold Debugger.logRule, Debugger.logAction, Debugger.logError,
    Debugger.logWarning, Debugger.logStateChange, Debugger.logWidgetEvent,
    Debugger.logDBOp, Debugger.log, Debugger.timestamp; cbv zeta;
    try (intro H; injection H as <-; eexists; reflexivity).
  - destruct (read result "allowed") as [a|]; simpl; [|discriminate].
    destruct (truthy (prop result "modifiedAction"));
      intro H; injection H as <-; eexists; reflexivity.
  - destruct (error_text (Debugger.host env) (default_to error JNull)) as [text|]; simpl;
      [|discriminate].
    intro H; injection H as <-; eexists; reflexivity.
Qed.

End Buffer.

Lemma buffer_step (env : Debugger.Env) (c : Debugger.Call) (d d' : Debugger.State) :
  Debugger.perform env c d = Ok d' ->
  (List.length (Debugger._buffer d) <= Debugger._maxBufferSize ->
   List.length (Debugger._buffer d') <= Debugger._maxBufferSize)
  /\ (truthy (Debugger._enabled d) = false -> Debugger._buffer d' = Debugger._buffer d)
  /\ (truthy (Debugger._enabled d) = true ->
      exists e, Debugger._buffer d' = kept (Debugger._buffer d) ++ [e])
  /\ Debugger._enabled d' = Debugger._enabled d
  /\ Debugger._listeners d' = Debugger._listeners d.
Proof.
  intro H. destruct (perform_capture env c d d' H) as [event ->].
  destruct (capture_cases env event (Debugger.tick d)) as (E & L & Off & On).
  simpl in *. repeat split; trivial.
  intro B. destruct (truthy (Debugger._enabled d)).
  - destruct (On eq_refl) as [e ->]. now apply kept_bounded.
  - now rewrite Off.
Qed.

(** The events a logging method records are objects. *)
Lemma perform_readable (env : Debugger.Env) (c : Debugger.Call) (d d' : Debugger.State) :
  Debugger.perform env c d = Ok d' -> events_readable d -> events_readable d'.
Proof.
  intros H R. destruct (perform_capture env c d d' H) as [event ->].
  unfold events_readable in *.
  destruct (truthy (Debugger._enabled (Debugger.tick d))) eqn:E.
  - rewrite capture_enabled by exact E. simpl. apply Forall_app. split.
    + unfold kept. destruct (Nat.ltb _ _); [exact R|].
      destruct (Debugger._buffer d); [constructor | now inversion R].
    + repeat constructor.
  - rewrite capture_disabled by exact E. exact R.
Qed.

(** Every logging method leaves the buffer within its bound of a thousand
    events: a disabled debugger records nothing; an enabled one records
    one event, the newest, and at the bound gives up the oldest.  So does
    every sequence of them.  What they record are objects, and they touch
    neither the enabled flag nor the listeners. *)
Theorem buffer_is_bounded (env : Debugger.Env) (calls : list Debugger.Call)
        (d d' : Debugger.State) :
  Debugger.perform_all env calls d = Ok d' ->
  (List.length (Debugger._buffer d) <= Debugger._maxBufferSize ->
   List.length (Debugger._buffer d') <= Debugger._maxBufferSize)
  /\ (truthy (Debugger._enabled d) = false -> Debugger._buffer d' = Debugger._buffer d)
  /\ (forall c, calls = [c] -> truthy (Debugger._enabled d) = true ->
                exists e, Debugger._buffer d' = kept (Debugger._buffer d) ++ [e])
  /\ Debugger._enabled d' = Debugger._enabled d
  /\ Debugger._listeners d' = Debugger._listeners d
  /\ (events_readable d -> events_readable d').
Proof.
  revert d. induction calls as [|c calls IH]; intros d H; simpl in H.
  - injection H as <-. repeat split; trivial. discriminate.
  - destruct (Debugger.perform env c d) as [d1|] eqn:P; [|discriminate]. simpl in H.
    destruct (buffer_step env c d d1 P) as (B1 & Off1 & On1 & E1 & L1).
    destruct (IH d1 H) as (B2 & Off2 & _ & E2 & L2 & R2).
    repeat split.
    + auto.
    + intro Off. rewrite Off2, Off1; trivial. now rewrite E1.
    + intros c' Ec On. injection Ec as -> ->. simpl in H. injection H as <-. auto.
    + now rewrite E2.
    + now rewrite L2.
    + intro R. apply R2. now apply (perform_readable env c d d1 P).
Qed.

Lemma buffer_is_bounded_witness :
  List.length (Debugger._buffer logged_once) <= Debugger._maxBufferSize.
Proof.
  apply (proj1 (buffer_is_bounded still [Debugger.Log (JStr "rules") (JStr "ready") JUndefined]
                  Debugger.loaded logged_once eq_refl)).
  apply Nat.le_0_l.
Defined.

(** ** Decisions in the buffer *)

Section Recorded.
Variable env : Debugger.Env.


End Recorded.





(** ** Statistics *)


Section Stats.
Variable env : Debugger.Env.






End Stats.



(** ** The newest events *)

Lemma slice_from_integer (k : Z) (l : list JsVal) :
  Debugger.slice_from (Fin (inject_Z k)) l
  = if Z.ltb k 0 then skipn (Z.to_nat (Z.max (Z.of_nat (List.length l) + k) 0)) l
    else skipn (Z.to_nat k) l.
Proof.
  unfold Debugger.slice_from, inject_Z. simpl Qnum. simpl Qden. now rewrite Z.quot_1_r.
Qed.

(** [getRecent(n)] for a whole number [n]: the [n] newest events when [n]
    is positive (all of them when there are fewer); every event when [n]
    is zero; the events after the first [-n] when [n] is negative.  Without
    an argument, the ten newest. *)
Theorem getRecent_counts (env : Debugger.Env) (d : Debugger.State) (n : Z) :
  ((0 < n)%Z ->
   Debugger.getRecent env (num n) d
   = skipn (List.length (Debugger._buffer d) - Z.to_nat n) (Debugger._buffer d)
   /\ List.length (Debugger.getRecent env (num n) d)
      = Nat.min (Z.to_nat n) (List.length (Debugger._buffer d)))
  /\ Debugger.getRecent env (num 0) d = Debugger._buffer d
  /\ ((n < 0)%Z ->
      Debugger.getRecent env (num n) d = skipn (Z.to_nat (- n)) (Debugger._buffer d))
  /\ Debugger.getRecent env JUndefined d
     = skipn (List.length (Debugger._buffer d) - 10) (Debugger._buffer d).
Proof.
  assert (G : forall k, Debugger.getRecent env (num k) d
                        = Debugger.slice_from (Fin (inject_Z (- k))) (Debugger._buffer d)).
  { intro k. unfold Debugger.getRecent, num. simpl. reflexivity. }
  assert (P : forall k, (0 < k)%Z ->
                Debugger.getRecent env (num k) d
                = skipn (List.length (Debugger._buffer d) - Z.to_nat k) (Debugger._buffer d)).
  { intros k H. rewrite G, slice_from_integer.
    assert (L : Z.ltb (- k) 0 = true) by (apply Z.ltb_lt; lia). rewrite L.
    f_equal. lia. }
  split; [intro H; split | split; [|split]].
  - now apply P.
  - rewrite (P n H), length_skipn. lia.
  - rewrite G, slice_from_integer. reflexivity.
  - intro H. rewrite G, slice_from_integer.
    assert (L : Z.ltb (- n) 0 = false) by (apply Z.ltb_ge; lia). now rewrite L.
  - change (Debugger.getRecent env JUndefined d) with (Debugger.getRecent env (num 10) d).
    rewrite P by lia. reflexivity.
Qed.

(** ** Selecting events *)



(** ** Listeners *)

(** [addListener] registers functions and nothing else; [removeListener]
    takes out one registration of the callback, the earliest, and leaves
    the debugger as it is when there is none; removing a callback right
    after adding it restores the listeners when it was not registered
    before. *)
Theorem listeners_add_remove (env : Debugger.Env) (callback : JsVal) (d : Debugger.State) :
  (is_function callback = false -> Debugger.addListener callback d = d)
  /\ (is_function callback = true ->
      Debugger._listeners (Debugger.addListener callback d)
      = Debugger._listeners d ++ [callback])
  /\ (forall l1 l2,
         Debugger._listeners d = l1 ++ callback :: l2 ->
         seq_ (Debugger.host env) callback callback = true ->
         Forall (fun l => seq_ (Debugger.host env) l callback = false) l1 ->
         Debugger._listeners (Debugger.removeListener env callback d) = l1 ++ l2)
  /\ (Forall (fun l => seq_ (Debugger.host env) l callback = false) (Debugger._listeners d) ->
      Debugger.removeListener env callback d = d
      /\ (is_function callback = true ->
          Debugger._listeners
            (Debugger.removeListener env callback (Debugger.addListener callback d))
          = Debugger._listeners d)).
Proof.
  split; [|split; [|split]].
  - intro H. unfold Debugger.addListener. now rewrite H.
  - intro H. unfold Debugger.addListener. now rewrite H.
  - intros l1 l2 E Sc All. unfold Debugger.removeListener.
    pose proof (findIndex_spec (fun l => seq_ (Debugger.host env) l callback)
                               (Debugger._listeners d)) as H.
    destruct (findIndex _ (Debugger._listeners d)) as [j|].
    + destruct H as (m1 & x & m2 & E' & -> & Px & All').
      simpl. rewrite E', splice1_at.
      rewrite E in E'.
      destruct (first_hit_unique (fun l => seq_ (Debugger.host env) l callback)
                  l1 callback l2 m1 x m2 E' Sc Px All All') as (-> & _ & ->).
      reflexivity.
    + rewrite E in H. apply Forall_app in H. destruct H as [_ H]. inversion H; subst.
      congruence.
  - intro All. assert (N : Debugger.removeListener env callback d = d).
    { unfold Debugger.removeListener.
      pose proof (findIndex_spec (fun l => seq_ (Debugger.host env) l callback)
                                 (Debugger._listeners d)) as H.
      destruct (findIndex _ (Debugger._listeners d)) as [j|]; trivial.
      destruct H as (m1 & x & m2 & E' & _ & Px & _). rewrite E' in All.
      apply Forall_app in All. destruct All as [_ All]. inversion All; subst. congruence. }
    split; trivial. intro Fn.
    assert (Sc : seq_ (Debugger.host env) callback callback = true).
    { destruct callback; simpl in Fn; try discriminate.
      - simpl. apply Nat.eqb_refl.
      - simpl. apply String.eqb_refl. }
    unfold Debugger.addListener. rewrite Fn. unfold Debugger.removeListener. simpl.
    pose proof (findIndex_spec (fun l => seq_ (Debugger.host env) l callback)
                               (Debugger._listeners d ++ [callback])) as H.
    destruct (findIndex _ (Debugger._listeners d ++ [callback])) as [j|].
    + destruct H as (m1 & x & m2 & E' & -> & Px & All'). simpl.
      rewrite E', splice1_at.
      destruct (first_hit_unique (fun l => seq_ (Debugger.host env) l callback)
                  (Debugger._listeners d) callback [] m1 x m2 E' Sc Px All All')
        as (-> & _ & <-).
      now rewrite app_nil_r.
    + apply Forall_app in H. destruct H as [_ H]. inversion H; subst. congruence.
Qed.

(** ** What loading a project reports *)

Lemma register_report host rule st :
  snd (Logged.register host rule st) = registration_report host rule.
Proof.
  unfold registration_report, Logged.register.
  destruct (negb (truthy rule) || negb (truthy (prop rule "id"))); trivial.
  now destruct (_validateRule rule) as [[|]|].
Qed.

Lemma forEach_reports host entries st :
  no_nullish entries ->
  snd (Logged.forEach_register host entries st)
  = flat_map (registration_report host) (filter project_level entries).
Proof.
  intro N. revert st. induction N as [|e entries Ne _ IH]; intro st; [reflexivity|].
  simpl. unfold read. rewrite Ne. fold (project_level e).
  destruct (project_level e).
  - pose proof (register_report host e st) as R.
    destruct (Logged.register host e st) as [[st' b] calls]. simpl in R.
    specialize (IH st').
    destruct (Logged.forEach_register host entries st') as [r calls']. simpl in *.
    now rewrite R, IH.
  - apply IH.
Qed.

(** [loadProjectRules] on an array without [null] or [undefined] entries
    reports what [register] reports on each entry of level project, in
    order, and then the number of entries of the array, whatever their
    level and whether or not they were accepted. *)
Theorem loadProjectRules_reports (host : Host) (project : JsVal) (entries : list JsVal)
        (st : Engine) :
  truthy project = true -> prop project "rules" = JArr entries -> no_nullish entries ->
  snd (Logged.loadProjectRules host project st)
  = flat_map (registration_report host) (filter project_level entries)
    ++ [Debugger.Log (JStr "rules")
          (JStr ("Loaded " ++ to_string host (num (Z.of_nat (List.length entries)))
                 ++ " project rules"))
          JUndefined]
  /\ (forall e, In e entries -> project_level e = true ->
                registration_report host e
                = if accepts e
                  then [Debugger.Log (JStr "rules")
                          (JStr ("Rule registered: " ++ to_string host (prop e "id")))
                          (JObj [("rule", e)])]
                  else if truthy (prop e "id") then []
                  else [Debugger.LogError (JStr "Rules.register: Invalid rule object") JNull
                          (JObj [("rule", e)])]).
Proof.
  intros T E N. split.
  - unfold Logged.loadProjectRules. rewrite T, E. cbv zeta. simpl negb. cbn [orb].
    pose proof (forEach_reports host entries
                  (with_rules st (filter (fun r => negb (is_str (prop r "level") "project"))
                                         (_rules st))) N) as R.
    pose proof (forEach_ok host entries
                  (with_rules st (filter (fun r => negb (is_str (prop r "level") "project"))
                                         (_rules st))) N) as K.
    rewrite <- forEach_erase in K.
    destruct (Logged.forEach_register host entries _) as [[st' r] calls].
    simpl in *. subst r. now rewrite R.
  - intros e _ P. unfold registration_report, Logged.register, accepts.
    assert (Te : truthy e = true).
    { unfold project_level in P. destruct e; simpl in P; try discriminate; reflexivity. }
    rewrite Te. simpl. destruct (truthy (prop e "id")); simpl; trivial.
    now destruct (_validateRule e) as [[|]|].
Qed.

Lemma loadProjectRules_reports_witness :
  snd (Logged.loadProjectRules bare (JObj [("rules", JArr [save_allow; boot])]) booted)
  = [ Debugger.Log (JStr "rules") (JStr "Rule registered: save-allow")
                   (JObj [("rule", save_allow)]);
      Debugger.Log (JStr "rules")
                   (JStr ("Loaded " ++ to_string bare (num 2) ++ " project rules")) JUndefined ].
Proof.
  assert (N : no_nullish [save_allow; boot]) by (repeat constructor).
  exact (proj1 (loadProjectRules_reports bare (JObj [("rules", JArr [save_allow; boot])])
                  [save_allow; boot] booted eq_refl eq_refl N)).
Defined.

(* ================================================================== *)
(** * The database gate and the taxonomy *)

Lemma evaluate_unknown host request a st :
  prop request "action" = JStr a -> a <> "" -> a <> "*" ->
  mem a taxonomy = false -> mem a object_prototype = false ->
  snd (evaluate host request st)
  = Ok {| allowed := false; reason := JStr ("Unknown action: " ++ a); modifiedAction := None |}.
Proof.
  intros Ha Ne Nw Nt Np. unfold evaluate. cbv zeta.
  assert (E2 : negb (truthy request) || negb (truthy (prop request "action")) = false).
  { rewrite (action_truthy _ _ Ha Ne), Ha.
    assert (T : truthy (JStr a) = true) by now apply truthy_str.
    now rewrite T. }
  assert (E3 : negb (truthy (prop ACTIONS a)) && negb (is_str (JStr a) "*") = true).
  { unfold ACTIONS, prop. rewrite (own_absent _ _ _ Nt), Np.
    simpl. apply String.eqb_neq in Nw. now rewrite Nw. }
  rewrite E2, Ha. cbn [to_text to_string]. rewrite E3. reflexivity.
Qed.

(** [DB.op] asks the engine for the action [db.] followed by the name of
    the operation.  The operations it implements are [put], [get] and
    [delete]; the taxonomy knows [db.read], [db.write], [db.delete],
    [db.export] and [db.import].  So [put] and [get] are rejected as
    unknown actions whatever the rules are, before the database is
    touched, and the promise of [DB.op] can only be fulfilled for
    [delete]. *)
Theorem legacy_db_operations (host : Host) (backend : DB.Backend) (val : JsVal) (st : Engine) :
  snd (DB.op host backend (JStr "put") val st)
  = Throw (Literal.Error "DB operation denied: Unknown action: db.put")
  /\ snd (DB.op host backend (JStr "get") val st)
     = Throw (Literal.Error "DB operation denied: Unknown action: db.get")
  /\ snd (DB.dbPut host backend val st)
     = Throw (Literal.Error "DB operation denied: Unknown action: db.put")
  /\ (forall o v, snd (DB.op host backend o val st) = Ok v -> o = JStr "delete").
Proof.
  assert (P : forall o, o = "put" \/ o = "get" ->
              snd (DB.op host backend (JStr o) val st)
              = Throw (Literal.Error ("DB operation denied: Unknown action: db." ++ o))).
  { intros o Ho. unfold DB.op. cbn [to_text to_string]. cbv zeta.
    match goal with
    | |- context [evaluate host ?r st] =>
        pose proof (evaluate_unknown host r ("db." ++ o) st) as E;
        destruct (evaluate host r st) as [st' result]
    end.
    simpl in E. rewrite E; [reflexivity|..];
      destruct Ho as [-> | ->]; try reflexivity; discriminate. }
  split; [apply (P "put"); now left|].
  split; [apply (P "get"); now right|].
  split; [apply (P "put"); now left|].
  intros o v H.
  destruct (is_str o "put") eqn:Op.
  { apply is_str_eq in Op. subst o. rewrite (P "put") in H by now left. discriminate. }
  destruct (is_str o "get") eqn:Og.
  { apply is_str_eq in Og. subst o. rewrite (P "get") in H by now right. discriminate. }
  destruct (is_str o "delete") eqn:Od; [now apply is_str_eq|].
  exfalso. unfold DB.op in H. cbv zeta in H. rewrite Op, Og, Od in H.
  destruct (to_text host o) as [name|]; [|discriminate].
  destruct (evaluate host _ st) as [st' [d|e]]; simpl in H; [|discriminate].
  destruct (negb (allowed d));
    [destruct (to_text host (reason d)); discriminate|].
  destruct (DB.init backend); simpl in H; [|discriminate].
  destruct (DB.transaction backend); simpl in H; discriminate.
Qed.

(* ================================================================== *)
(** * The project validator and the engine *)

Lemma read_ok v key : nullish v = false -> read v key = Ok (prop v key).
Proof. intro H. unfold read. now rewrite H. Qed.

Lemma truthy_not_nullish v : truthy v = true -> nullish v = false.
Proof. now destruct v. Qed.

Lemma object_not_nullish v : Project.no_object v = false -> nullish v = false.
Proof.
  unfold Project.no_object. intro H. apply orb_false_elim in H. destruct H as [T _].
  apply negb_false_iff in T. now apply truthy_not_nullish.
Qed.

Lemma check_nil failed message : Project.check failed message = [] <-> failed = false.
Proof. destruct failed; simpl; split; congruence. Qed.

(** What [Project._validateRule] returns on a candidate that is an
    object. *)
Lemma project_validateRule_eq rule index :
  Project.no_object rule = false ->
  Project._validateRule rule index
  = Ok (Project.check (Project.no_text (prop rule "id"))
          (("Rule[" ++ index_key index ++ "]") ++ ": Rule must have a valid string ID")
        ++ Project.check (Project.no_text (prop rule "name"))
             (("Rule[" ++ index_key index ++ "]") ++ ": Rule must have a valid name")
        ++ Project.check (Project.no_priority (prop rule "priority"))
             (("Rule[" ++ index_key index ++ "]")
              ++ ": Rule priority must be a number between 1 and 1000")
        ++ Project.check (negb (Project.includes Project.validLevels (prop rule "level")))
             (("Rule[" ++ index_key index ++ "]")
              ++ ": Rule level must be one of: system, environment, project, mode, widget")
        ++ (if Project.no_object (prop rule "condition")
            then [(("Rule[" ++ index_key index ++ "]") ++ ": Rule must have a condition object")%string]
            else Project.check (Project.no_text (prop (prop rule "condition") "action"))
                   (("Rule[" ++ index_key index ++ "]")
                    ++ ": Rule condition must have an action string"))
        ++ (if Project.no_object (prop rule "effect")
            then [(("Rule[" ++ index_key index ++ "]") ++ ": Rule must have an effect object")%string]
            else Project.check
                   (negb (Project.includes Project.validEffects (prop (prop rule "effect") "type")))
                   (("Rule[" ++ index_key index ++ "]")
                    ++ ": Rule effect.type must be one of: allow, deny, modify"))
        ++ Project.check (negb (String.eqb (typeof (prop rule "enabled")) "boolean"))
             (("Rule[" ++ index_key index ++ "]") ++ ": Rule enabled must be a boolean")).
Proof.
  intro O. unfold Project._validateRule. rewrite O. cbv zeta.
  rewrite !(read_ok rule) by now apply object_not_nullish. cbn [bind].
  destruct (Project.no_object (prop rule "condition")) eqn:C;
    destruct (Project.no_object (prop rule "effect")) eqn:E; cbn [bind];
    rewrite ?(read_ok (prop rule "condition")) by (now apply object_not_nullish);
    rewrite ?(read_ok (prop rule "effect")) by (now apply object_not_nullish);
    reflexivity.
Qed.

Lemma validators_agree_errors (rule : JsVal) (index : nat) :
  exists errors,
    Project._validateRule rule index = Ok errors
    /\ (errors = [] <-> Project.no_object rule = false /\ _validateRule rule = Ok true).
Proof.
  destruct (Project.no_object rule) eqn:O.
  - unfold Project._validateRule. rewrite O. eexists. split; [reflexivity|].
    split; [discriminate | intros [? _]; discriminate].
  - rewrite (project_validateRule_eq rule index O). eexists. split; [reflexivity|].
    unfold _validateRule. rewrite (read_ok rule) by now apply object_not_nullish.
    unfold bind.
    unfold Project.no_text, Project.no_priority, Project.includes,
      Project.validLevels, Project.validEffects, Project.no_object, HIERARCHY.
    destruct (negb (truthy (prop rule "id"))
              || negb (String.eqb (typeof (prop rule "id")) "string"));
      [simpl; split; [discriminate | intros [_ ?]; discriminate]|].
    destruct (negb (truthy (prop rule "name"))
              || negb (String.eqb (typeof (prop rule "name")) "string"));
      [simpl; split; [discriminate | intros [_ ?]; discriminate]|].
    destruct (negb (String.eqb (typeof (prop rule "priority")) "number")
              || lt_num (prop rule "priority") 1 || gt_num (prop rule "priority") 1000);
      [simpl; split; [discriminate | intros [_ ?]; discriminate]|].
    destruct (negb (existsb (is_str (prop rule "level"))
                            ["system"; "environment"; "project"; "mode"; "widget"]));
      [simpl; split; [discriminate | intros [_ ?]; discriminate]|].
    destruct (negb (truthy (prop rule "condition"))
              || negb (String.eqb (typeof (prop rule "condition")) "object"));
      [simpl; split; [discriminate | intros [_ ?]; discriminate]|].
    destruct (negb (truthy (prop (prop rule "condition") "action"))
              || negb (String.eqb (typeof (prop (prop rule "condition") "action")) "string"));
      [simpl; split; [discriminate | intros [_ ?]; discriminate]|].
    destruct (negb (truthy (prop rule "effect"))
              || negb (String.eqb (typeof (prop rule "effect")) "object"));
      [simpl; split; [discriminate | intros [_ ?]; discriminate]|].
    destruct (negb (existsb (is_str (prop (prop rule "effect") "type"))
                            ["allow"; "deny"; "modify"]));
      [simpl; split; [discriminate | intros [_ ?]; discriminate]|].
    destruct (negb (String.eqb (typeof (prop rule "enabled")) "boolean"));
      [simpl; split; [discriminate | intros [_ ?]; discriminate]|].
    simpl. split; auto.
Qed.

(** The two validators of rules, [Project._validateRule] and the engine's
    [_validateRule], accept the same candidates: the project's validator
    returns no error exactly for the objects the engine's validator
    accepts, and those [register] accepts too.  It never throws. *)
Theorem validators_agree (rule : JsVal) (index : nat) :
  exists errors,
    Project._validateRule rule index = Ok errors
    /\ (errors = [] <-> Project.no_object rule = false /\ _validateRule rule = Ok true)
    /\ (errors = [] -> accepts rule = true).
Proof.
  destruct (validators_agree_errors rule index) as (e & H & I).
  exists e. repeat split; try apply I; trivial.
  intro E. apply valid_accepts. now apply I.
Qed.

(** ** [validate] returns a verdict for every value *)

Lemma validateRule_total rule index : exists e, Project._validateRule rule index = Ok e.
Proof. destruct (validators_agree_errors rule index) as (e & H & _). now exists e. Qed.

Lemma validatePage_total page index : exists e, Project._validatePage page index = Ok e.
Proof.
  unfold Project._validatePage. destruct (Project.no_object page) eqn:O; [eauto|].
  cbv zeta. rewrite !(read_ok page) by now apply object_not_nullish. simpl. eauto.
Qed.

Lemma forEach_errors_total (f : JsVal -> nat -> Completion (list string)) index l :
  (forall x i, exists e, f x i = Ok e) -> exists e, Project.forEach_errors f index l = Ok e.
Proof.
  intro F. revert index. induction l as [|x l IH]; intro index; simpl; [eauto|].
  destruct (F x index) as [e ->]. destruct (IH (S index)) as [es ->]. simpl. eauto.
Qed.

(** The loop over [modes.available] throws only what the conversion of a
    mode that is not valid throws. *)
Lemma forEach_mode_total host l :
  Forall (fun mode => Project.includes Project.validModes mode = true
                      \/ exists text, to_text host mode = Ok text) l ->
  exists e, Project.forEach_mode host l = Ok e.
Proof.
  induction 1 as [|mode l Hm _ [es IH]]; cbn [Project.forEach_mode]; [eauto|].
  rewrite IH. destruct (Project.includes Project.validModes mode) eqn:V; cbn [bind]; [eauto|].
  destruct Hm as [Hm|[text ->]]; [discriminate|]. cbn [bind]. eauto.
Qed.

Lemma forEach_mode_throws host l e :
  Project.forEach_mode host l = Throw e ->
  exists mode, In mode l /\ Project.includes Project.validModes mode = false
               /\ to_text host mode = Throw e.
Proof.
  induction l as [|mode l IH]; cbn [Project.forEach_mode]; [discriminate|].
  destruct (Project.includes Project.validModes mode) eqn:V; cbn [bind].
  - destruct (Project.forEach_mode host l) as [es|e'] eqn:F; cbn [bind]; [discriminate|].
    intro H. injection H as ->. destruct (IH eq_refl) as (m & Hin & Hm).
    exists m. split; [now right | exact Hm].
  - destruct (to_text host mode) as [text|e'] eqn:Tx; cbn [bind].
    + destruct (Project.forEach_mode host l) as [es|e''] eqn:F; cbn [bind]; [discriminate|].
      intro H. injection H as ->. destruct (IH eq_refl) as (m & Hin & Hm).
      exists m. split; [now right | exact Hm].
    + intro H. injection H as ->. exists mode. split; [now left | auto].
Qed.

Section Total.
Variable host : Host.
Variable project : JsVal.
Hypothesis T : truthy project = true.

Let N : nullish project = false := truthy_not_nullish project T.

Ltac section_total :=
  rewrite (read_ok project) by exact N; cbn [bind];
  match goal with
  | |- context [if negb (truthy ?v) then _ else _] =>
      let E := fresh "E" in
      destruct (truthy v) eqn:E; cbn [negb]; [|eauto];
      rewrite !(read_ok v) by (now apply truthy_not_nullish); cbn [bind]; eauto
  | _ => eauto
  end.

Lemma id_total : exists e, Project.id_errors project = Ok e.
Proof. unfold Project.id_errors. section_total. Qed.

Lemma meta_total : exists e, Project.meta_errors host project = Ok e.
Proof.
  unfold Project.meta_errors. rewrite (read_ok project) by exact N. cbn [bind].
  destruct (truthy (prop project "meta")) eqn:E; cbn [negb]; [|eauto].
  unfold read_any. rewrite !(read_ok (prop project "meta")) by (now apply truthy_not_nullish).
  rewrite (truthy_not_nullish _ E). cbn [bind]. eauto.
Qed.

Lemma environment_total : exists e, Project.environment_errors project = Ok e.
Proof. unfold Project.environment_errors. section_total. Qed.

Lemma rules_total : exists e, Project.rules_errors project = Ok e.
Proof.
  unfold Project.rules_errors. rewrite (read_ok project) by exact N. cbn [bind].
  destruct (prop project "rules"); eauto.
  apply forEach_errors_total. apply validateRule_total.
Qed.

Lemma modes_total :
  (forall l, prop (prop project "modes") "available" = JArr l ->
             Forall (fun mode => Project.includes Project.validModes mode = true
                                 \/ exists text, to_text host mode = Ok text) l) ->
  exists e, Project.modes_errors host project = Ok e.
Proof.
  intro C. unfold Project.modes_errors. rewrite (read_ok project) by exact N. cbn [bind].
  destruct (truthy (prop project "modes")) eqn:E; cbn [negb]; [|eauto].
  rewrite !(read_ok (prop project "modes")) by (now apply truthy_not_nullish). cbn [bind].
  destruct (prop (prop project "modes") "available") as [| | | | | l | | |] eqn:A;
    cbn [bind]; eauto.
  destruct (forEach_mode_total host l (C l eq_refl)) as [e ->]. cbn [bind]. eauto.
Qed.

Lemma modes_throws e :
  Project.modes_errors host project = Throw e ->
  exists l mode,
    prop (prop project "modes") "available" = JArr l /\ In mode l
    /\ Project.includes Project.validModes mode = false /\ to_text host mode = Throw e.
Proof.
  unfold Project.modes_errors. rewrite (read_ok project) by exact N. cbn [bind].
  destruct (truthy (prop project "modes")) eqn:E; cbn [negb]; [|discriminate].
  rewrite !(read_ok (prop project "modes")) by (now apply truthy_not_nullish). cbn [bind].
  destruct (prop (prop project "modes") "available") as [| | | | | l | | |] eqn:A;
    cbn [bind]; try discriminate.
  destruct (Project.forEach_mode host l) as [es|e'] eqn:F; cbn [bind]; [discriminate|].
  intro H. injection H as ->.
  destruct (forEach_mode_throws host l e F) as (mode & Hin & V & Th).
  now exists l, mode.
Qed.

Lemma layout_total : exists e, Project.layout_errors project = Ok e.
Proof. unfold Project.layout_errors. section_total. Qed.

Lemma widgets_total : exists e, Project.widgets_errors project = Ok e.
Proof. unfold Project.widgets_errors. section_total. Qed.

Lemma assets_total : exists e, Project.assets_errors project = Ok e.
Proof. unfold Project.assets_errors. section_total. Qed.

Lemma pages_total : exists e, Project.pages_errors project = Ok e.
Proof.
  unfold Project.pages_errors. rewrite (read_ok project) by exact N. cbn [bind].
  destruct (prop project "pages"); eauto.
  apply forEach_errors_total. apply validatePage_total.
Qed.

Lemma exports_total : exists e, Project.exports_errors project = Ok e.
Proof. unfold Project.exports_errors. section_total. Qed.

Lemma history_total : exists e, Project.history_errors project = Ok e.
Proof. unfold Project.history_errors. section_total. Qed.

End Total.

(** [validate] returns a verdict for every value but one kind: a
    project whose [modes.available] is an array with a mode that is not
    valid and cannot be converted to text, on which the message for that
    mode throws.  For [null], [undefined] and every other falsy value the
    verdict has the one error that the project is null or undefined.  When
    [validate] throws, it throws what the conversion of such a mode
    throws.  When every mode of [modes.available] that is not valid can
    be converted, [validate] returns a verdict, which is [valid] exactly
    when it lists no error, and [isValid] returns that flag. *)
Theorem validate_returns_a_verdict (host : Host) (project : JsVal) :
  (truthy project = false ->
   Project.validate host project
   = Ok {| Project.valid := false; Project.errors := ["Project is null or undefined"] |})
  /\ (forall e, Project.validate host project = Throw e ->
                exists l mode,
                  prop (prop project "modes") "available" = JArr l /\ In mode l
                  /\ Project.includes Project.validModes mode = false
                  /\ to_text host mode = Throw e)
  /\ ((forall l, prop (prop project "modes") "available" = JArr l ->
                 Forall (fun mode => Project.includes Project.validModes mode = true
                                     \/ exists text, to_text host mode = Ok text) l) ->
      exists v,
        Project.validate host project = Ok v
        /\ (Project.valid v = true <-> Project.errors v = [])
        /\ Project.isValid host project = Ok (Project.valid v)).
Proof.
  unfold Project.isValid, Project.validate. destruct (truthy project) eqn:T; cbn [negb].
  - destruct (id_total project T) as [e1 ->].
    destruct (meta_total host project T) as [e2 ->].
    destruct (environment_total project T) as [e3 ->].
    destruct (rules_total project T) as [e4 ->].
    destruct (layout_total project T) as [e6 E6].
    destruct (widgets_total project T) as [e7 E7].
    destruct (assets_total project T) as [e8 E8].
    destruct (pages_total project T) as [e9 E9].
    destruct (exports_total project T) as [e10 E10].
    destruct (history_total project T) as [e11 E11].
    cbn [bind]. split; [discriminate|]. split.
    + intros e. destruct (Project.modes_errors host project) as [e5|e'] eqn:M.
      * rewrite E6, E7, E8, E9, E10, E11. discriminate.
      * cbn [bind]. intro H. injection H as ->. now apply (modes_throws host project T).
    + intro C. destruct (modes_total host project T C) as [e5 ->].
      rewrite E6, E7, E8, E9, E10, E11.
      cbn [bind]. eexists. split; [reflexivity|]. cbn [Project.valid Project.errors].
      split; [|reflexivity].
      rewrite Nat.eqb_eq. apply length_zero_iff_nil.
  - split; [reflexivity|]. split; [discriminate|].
    intros _. eexists. split; [reflexivity|]. simpl. split; [|reflexivity].
    split; discriminate.
Qed.

(** The sample project is found valid; a project whose one mode is an
    object without a callable [toString] or [valueOf] makes [validate]
    throw a [TypeError]. *)
Lemma validate_returns_a_verdict_witness :
  (exists v, Project.validate bare sample_project = Ok v
             /\ (Project.valid v = true <-> Project.errors v = [])
             /\ Project.isValid bare sample_project = Ok (Project.valid v))
  /\ Project.validate bare
       (JObj [("modes", JObj [("active", JStr "edit");
                              ("available",
                               JArr [JObj [("toString", JNull); ("valueOf", JNull)]])])])
     = Throw TypeError.
Proof.
  split; [|reflexivity].
  apply (proj2 (proj2 (validate_returns_a_verdict bare sample_project))).
  intros l E. vm_compute in E. injection E as <-.
  repeat constructor.
Defined.

(** ** A valid project's rules load *)

Lemma forEach_errors_nil index l :
  Project.forEach_errors Project._validateRule index l = Ok [] ->
  Forall (fun e => Project.no_object e = false /\ accepts e = true) l.
Proof.
  revert index. induction l as [|x l IH]; intros index H; [constructor|].
  simpl in H. destruct (validators_agree_errors x index) as (e & Hx & I). rewrite Hx in H.
  simpl in H. destruct (Project.forEach_errors Project._validateRule (S index) l) as [es|] eqn:R;
    [|discriminate].
  simpl in H. injection H as H. apply app_eq_nil in H. destruct H as [-> ->].
  constructor; [|now apply (IH (S index))].
  destruct (proj1 I eq_refl) as [O V]. split; trivial. now apply valid_accepts.
Qed.

Lemma valid_rules host project v :
  Project.validate host project = Ok v -> Project.valid v = true ->
  truthy project = true
  /\ exists entries, prop project "rules" = JArr entries
                     /\ Forall (fun e => Project.no_object e = false /\ accepts e = true) entries.
Proof.
  intros H V. unfold Project.validate in H.
  destruct (truthy project) eqn:T; cbn [negb] in H;
    [|injection H as <-; discriminate V].
  split; trivial.
  destruct (Project.id_errors project) as [e1|]; [|discriminate].
  destruct (Project.meta_errors host project) as [e2|]; [|discriminate].
  destruct (Project.environment_errors project) as [e3|]; [|discriminate].
  destruct (Project.rules_errors project) as [e4|] eqn:R; [|discriminate].
  destruct (Project.modes_errors host project) as [e5|]; [|discriminate].
  destruct (Project.layout_errors project) as [e6|]; [|discriminate].
  destruct (Project.widgets_errors project) as [e7|]; [|discriminate].
  destruct (Project.assets_errors project) as [e8|]; [|discriminate].
  destruct (Project.pages_errors project) as [e9|]; [|discriminate].
  destruct (Project.exports_errors project) as [e10|]; [|discriminate].
  destruct (Project.history_errors project) as [e11|]; [|discriminate].
  cbn [bind] in H. injection H as <-. cbn [Project.valid] in V.
  apply Nat.eqb_eq, length_zero_iff_nil in V.
  repeat (apply app_eq_nil in V; destruct V as [? V]). subst e4.
  unfold Project.rules_errors in R.
  rewrite (read_ok project) in R by now apply truthy_not_nullish.
  cbn [bind] in R.
  destruct (prop project "rules") as [| | | | | entries | | |]; try discriminate R.
  exists entries. split; trivial. now apply (forEach_errors_nil 0).
Qed.

(** The rules of a project that [Project.validate] found valid load: for
    such a project [project.rules] is an array of candidates each of which
    [register] accepts, [loadProjectRules] completes, and afterwards the
    store holds every entry of level project, unless a later entry of
    level project carries the same id, and no other rule of that level. *)
Theorem valid_project_loads (host : Host) (project : JsVal) (v : Project.Validation)
        (st : Engine) :
  Project.validate host project = Ok v -> Project.valid v = true ->
  exists entries,
    prop project "rules" = JArr entries
    /\ Forall (fun e => accepts e = true) entries
    /\ snd (loadProjectRules host project st) = Ok tt
    /\ (forall pre r post,
           entries = pre ++ r :: post -> project_level r = true ->
           (forall e, In e post -> project_level e = true -> same_id host e r = false) ->
           In r (_rules (fst (loadProjectRules host project st))))
    /\ (forall r, In r (_rules (fst (loadProjectRules host project st))) ->
                  project_level r = true -> In r entries).
Proof.
  intros H V. destruct (valid_rules host project v H V) as (T & entries & E & All).
  assert (A : Forall (fun e => accepts e = true) entries).
  { eapply Forall_impl; [|exact All]. now intros e [_ ?]. }
  assert (N : no_nullish entries).
  { eapply Forall_impl; [|exact All]. intros e [O _]. now apply object_not_nullish. }
  exists entries. split; trivial. split; trivial.
  rewrite (loadProjectRules_array host project entries st T E).
  split; [now apply forEach_ok|]. split.
  - intros pre r post Ee P D. rewrite Ee. apply forEach_last; trivial.
    + now rewrite <- Ee.
    + rewrite Forall_forall in A. apply A. rewrite Ee. apply in_or_app. right. now left.
    + intros e He Pe _. now apply D.
  - intros r Hin P.
    destruct (forEach_from host entries _ r Hin) as [I|(I & _ & _)]; trivial.
    simpl in I. apply filter_In in I. destruct I as [_ O].
    unfold other_level in O. rewrite P in O. discriminate.
Qed.

Lemma valid_project_loads_witness :
  exists entries,
    prop sample_project "rules" = JArr entries
    /\ Forall (fun e => accepts e = true) entries
    /\ snd (loadProjectRules bare sample_project booted) = Ok tt
    /\ (forall pre r post,
           entries = pre ++ r :: post -> project_level r = true ->
           (forall e, In e post -> project_level e = true -> same_id bare e r = false) ->
           In r (_rules (fst (loadProjectRules bare sample_project booted))))
    /\ (forall r, In r (_rules (fst (loadProjectRules bare sample_project booted))) ->
                  project_level r = true -> In r entries).
Proof.
  exact (valid_project_loads bare sample_project
           {| Project.valid := true; Project.errors := [] |} booted eq_refl eq_refl).
Defined.

(** ** A created project *)

Lemma invalid_by_meta host project e m :
  truthy project = true -> Project.meta_errors host project = Ok e -> In m e ->
  (forall r, Project.isValid host project = Ok r -> r = false)
  /\ ((exists e5, Project.modes_errors host project = Ok e5) ->
      Project.isValid host project = Ok false).
Proof.
  intros T E Hin. unfold Project.isValid, Project.validate. rewrite T. cbn [negb].
  destruct (id_total project T) as [e1 ->]. rewrite E.
  destruct (environment_total project T) as [e3 ->].
  destruct (rules_total project T) as [e4 ->].
  destruct (layout_total project T) as [e6 E6].
  destruct (widgets_total project T) as [e7 E7].
  destruct (assets_total project T) as [e8 E8].
  destruct (pages_total project T) as [e9 E9].
  destruct (exports_total project T) as [e10 E10].
  destruct (history_total project T) as [e11 E11].
  cbn [bind].
  destruct (Project.modes_errors host project) as [e5|x].
  - rewrite E6, E7, E8, E9, E10, E11. cbn [bind Project.valid].
    assert (F : Nat.eqb (List.length (e1 ++ e ++ e3 ++ e4 ++ e5 ++ e6 ++ e7 ++ e8 ++ e9
                                         ++ e10 ++ e11)) 0 = false).
    { apply Nat.eqb_neq. rewrite length_app, length_app.
      destruct e as [|y e]; [destruct Hin|]. simpl. lia. }
    rewrite F. split; [|reflexivity]. intros r H. now injection H as <-.
  - cbn [bind]. split; [discriminate|]. intros [e5 H]. discriminate.
Qed.

Lemma no_options_at options key :
  no_options options -> In key create_options -> or_else (prop options key) = fun d => d.
Proof.
  intros N Hin. unfold no_options in N. rewrite Forall_forall in N.
  unfold or_else. now rewrite (N key Hin).
Qed.

Lemma idle_rules_load host project st :
  truthy project = true -> prop project "rules" = JArr [] ->
  loadProjectRules host project st = (with_rules st (filter other_level (_rules st)), Ok tt).
Proof.
  intros T R. unfold loadProjectRules. rewrite T, R. reflexivity.
Qed.

(** [Project.create] and [Project.validate]: without options, or with an
    options object none of whose options is given, the created project is
    valid exactly when the host's id is not empty and its clock is
    positive, and loading it into the engine removes the rules of level
    project and adds none.  [create] takes every option as it is: with a
    name that is not a text the created project is never found valid, and
    it is found not valid when the modes are the ones [create] supplies. *)
Theorem create_then_validate (host : Host) (now : Z) (id : string) (options : JsVal) :
  options = JUndefined \/ (exists props, options = JObj props) ->
  exists project,
    Project.create host now id options = Ok project
    /\ (no_options options ->
        (Project.isValid host project = Ok true <-> id <> "" /\ (0 < now)%Z)
        /\ (forall st, loadProjectRules host project st
                       = (with_rules st (filter other_level (_rules st)), Ok tt)))
    /\ (truthy (prop options "name") = true -> typeof (prop options "name") <> "string" ->
        (forall r, Project.isValid host project = Ok r -> r = false)
        /\ (truthy (prop options "availableModes") = false ->
            Project.isValid host project = Ok false)).
Proof.
  intro Shape.
  assert (P : forall key, prop (default_to options (JObj [])) key = prop options key
                          \/ mem key object_prototype = true).
  { intro key. destruct Shape as [->|[props ->]]; [|now left].
    unfold default_to, prop. cbn [own].
    destruct (mem key object_prototype); [now right | now left]. }
  assert (Q : forall key, In key ("cdnAllowed" :: "cspEnabled" :: create_options) ->
                          prop (default_to options (JObj [])) key = prop options key).
  { intros key Hin. destruct (P key) as [E|E]; trivial. exfalso.
    simpl in Hin.
    repeat (destruct Hin as [<-|Hin]; [discriminate E|]). destruct Hin. }
  assert (N : nullish (default_to options (JObj [])) = false).
  { now destruct Shape as [->|[props ->]]. }
  assert (L : lookup host (default_to options (JObj [])) "name"
              = prop (default_to options (JObj [])) "name").
  { now destruct Shape as [->|[props ->]]. }
  unfold Project.create. cbv zeta. unfold read. rewrite N, L. cbn [bind].
  eexists. split; [reflexivity|]. split.
  - intro No.
    assert (D : forall key, In key create_options ->
                  or_else (prop (default_to options (JObj [])) key) = fun d => d).
    { intros key Hin. rewrite Q by (right; right; exact Hin). now apply no_options_at. }
    rewrite !D by (simpl; tauto).
    split.
    + destruct (match prop (default_to options (JObj [])) "cdnAllowed" with
                | JBool false => false | _ => true end);
        destruct (match prop (default_to options (JObj [])) "cspEnabled" with
                  | JBool false => false | _ => true end);
        destruct id as [|c s]; destruct now as [|p|p];
        vm_compute; intuition (try discriminate; try congruence; try lia).
    + intro st. apply idle_rules_load; reflexivity.
  - intros Tn Ty. rewrite <- (Q "name") in Tn, Ty by (simpl; tauto).
    match goal with
    | |- (forall r, Project.isValid host ?p = Ok r -> r = false) /\ _ =>
        assert (I : exists e m, Project.meta_errors host p = Ok e /\ In m e)
    end.
    { unfold Project.meta_errors, read, read_any.
      cbn [nullish prop own String.eqb Ascii.eqb Bool.eqb bind truthy negb lookup].
      do 2 eexists. split; [reflexivity|].
      unfold or_else at 1. rewrite Tn. unfold Project.check, Project.no_text. rewrite Tn.
      cbn [negb orb].
      destruct (String.eqb (typeof (prop (default_to options (JObj [])) "name")) "string") eqn:S.
      * apply String.eqb_eq in S. contradiction.
      * cbn [negb]. left. reflexivity. }
    destruct I as (e & m & Em & Hin).
    match goal with
    | |- (forall r, Project.isValid host ?p = Ok r -> r = false) /\ _ =>
        destruct (invalid_by_meta host p e m eq_refl Em Hin) as [A B]
    end.
    split; [exact A|].
    intro Ta. rewrite <- (Q "availableModes") in Ta by (simpl; tauto).
    apply B.
    assert (D : or_else (prop (default_to options (JObj [])) "availableModes") = fun d => d).
    { unfold or_else. now rewrite Ta. }
    rewrite D. unfold Project.modes_errors, read.
    cbn [nullish prop own String.eqb Ascii.eqb Bool.eqb bind truthy negb].
    eexists. reflexivity.
Qed.

Lemma create_then_validate_witness :
  Project.isValid bare
    (JObj [ ("id", JStr "p1");
            ("meta", JObj [ ("name", JStr "Untitled Project"); ("version", JStr "1.0.0");
                            ("created", num 5); ("modified", num 5);
                            ("author", JStr ""); ("description", JStr "") ]);
            ("environment", JObj [ ("target", JStr "web"); ("cdnAllowed", JBool true);
                                   ("cspEnabled", JBool true) ]);
            ("rules", JArr []);
            ("modes", JObj [ ("active", JStr "edit");
                             ("available", JArr [JStr "edit"; JStr "preview"; JStr "export"]) ]);
            ("layout", JObj [("panels", JArr []); ("windows", JArr []); ("dock", JArr [])]);
            ("widgets", JObj [("installed", JArr []); ("active", JArr [])]);
            ("assets", JObj [("files", JObj []); ("external", JArr [])]);
            ("pages", JArr []);
            ("exports", JObj [("lastExport", JNull); ("settings", JObj [])]);
            ("history", JArr []) ]) = Ok true.
Proof.
  destruct (create_then_validate bare 5 "p1" JUndefined (or_introl eq_refl))
    as (project & E & V & _).
  injection E as <-.
  apply (proj1 (V ltac:(repeat constructor))). split; [discriminate | reflexivity].
Defined.

(* ================================================================== *)
(** * The callers under the built-in rules *)




